(** * htsget-server: a shallow embedding of the header-boundary resolver,
      the router, content negotiation, error mapping and the ticket cache.

    The development follows the layout of the Python package:
    - [utils.py]    : [get_bam_header_size] (module [Bgzf]);
    - [server.py]   : [HttpError] and its subclasses, [Router] (module
                      [Routing]), [route_request] and [do_GET] (module
                      [Server]);
    - [__init__.py] : [check_headers], [handle_error] (module [Server]),
                      [ApiRouteHandler.handle] (module [Api]).
    - [utils.py]    : [run_interruptible] (module [Interrupt]).
    Modules [PyStr] and [Json] hold the string operations and [json.dumps].

    Python values are modelled as follows.  A [str] is a Rocq [string] whose
    characters are the code points 0..255 (header values reach the handler
    decoded as latin-1); where an operation leaves that range ([str.upper])
    its result is a list of code points.  An [int] is a [Z].  A byte stream
    is a [list byte].  A [dict] is a [gmap].  A call that may raise returns
    a [result]. *)

From Stdlib Require Import ZArith Lia Strings.Byte Strings.Ascii.
From stdpp Require Import gmap strings list fin_maps.

Local Open Scope Z_scope.

(** ** Exceptions and results *)

(** The built-in exception classes that the modelled code can raise, either
    with an explicit [raise] or from the interpreter and the binary reader. *)
Inductive exc_class : Set :=
| ValueError
| TypeError
| IndexError
| AttributeError
| KeyError
| StructError
| EOFError
| UnicodeDecodeError.

(** The argument of [NotFoundHttpError]: [route_request] and [__call__]
    pass a [str], [get_route_handler] passes the sequence of segments. *)
Inductive path_arg : Set :=
| PathStr (s : string)
| PathSeq (l : list string).

(** [server.py], class [HttpError]: [status], [error_type], the positional
    [args] handed to [Exception.__init__], and [__cause__] (kept as the
    [args] of the cause, the only part [message] looks at).  [err_path] is
    the [path] attribute that [NotFoundHttpError] adds. *)
Record HttpError : Set := mkHttpError {
  status : Z;
  error_type : string;
  args : list string;
  cause : option (list string);
  err_path : option path_arg
}.

Inductive exn : Set :=
| Exc (c : exc_class) (a : list string)
| Http (e : HttpError).

(** [exn_args e] is [e.args]. *)
Definition exn_args (e : exn) : list string :=
  match e with
  | Exc _ a => a
  | Http h => args h
  end.

(** Outcome of a call: a value, a raised exception, or no return at all.
    [NoReturn] stands for a wait on a held lock, for an outside call that
    does not come back, and for the exhaustion of the fuel that bounds the
    loops of the model ([Bgzf.scan_blocks], which never exhausts it:
    [get_bam_header_size_total]). *)
Inductive result (A : Type) : Type :=
| Ok (a : A)
| Raise (e : exn)
| NoReturn.
Arguments Ok {A} a.
Arguments Raise {A} e.
Arguments NoReturn {A}.

Definition rbind {A B} (m : result A) (k : A -> result B) : result B :=
  match m with
  | Ok a => k a
  | Raise e => Raise e
  | NoReturn => NoReturn
  end.

Definition is_raise {A} (c : exc_class) (r : result A) : Prop :=
  exists a, r = Raise (Exc c a).

(** ** Little-endian integers over bytes *)

Definition Z_of_byte (b : byte) : Z := Z.of_N (Byte.to_N b).

Definition byte_of_Z (z : Z) : byte :=
  match Byte.of_N (Z.to_N (z mod 256)) with
  | Some b => b
  | None => Byte.x00
  end.

(** [le_decode bs]: the unsigned value of [bs] read least significant
    byte first ([struct] formats [<H], [<I]). *)
Fixpoint le_decode (bs : list byte) : Z :=
  match bs with
  | [] => 0
  | b :: bs' => Z_of_byte b + 256 * le_decode bs'
  end.

(** [le_encode n z]: the [n]-byte little-endian representation of [z]. *)
Fixpoint le_encode (n : nat) (z : Z) : list byte :=
  match n with
  | O => []
  | S n' => byte_of_Z z :: le_encode n' (z / 256)
  end.

(** Two's complement reading of a [w]-bit unsigned value ([<i], [<b]). *)
Definition to_signed (w : Z) (u : Z) : Z :=
  if u <? 2 ^ (w - 1) then u else u - 2 ^ w.

Module Bgzf.

(** ** The binary reader *)

(** [ngsindex.utils.BinReader] is an imported library and not part of the
    sources.  It is a sequential reader over a byte stream with
    fixed-width integer and string decoding in a declared byte order;
    [get_bam_header_size] always declares ["<"].  Each operation below
    consumes its fixed number of bytes from the front of the stream.  The
    library's reader raises [EOFError] when the stream is too short;
    [read_string] raises [ValueError] when asked for zero bytes and
    [UnicodeDecodeError] when its codec does not decode the bytes; and it
    has no method [ushort].  A negative count is taken to raise
    [struct.error].  The arguments that the library gives its exceptions
    are not modelled. *)
Definition reader (A : Type) : Type := list byte -> result (A * list byte).

Definition ret {A} (a : A) : reader A := fun s => Ok (a, s).

Definition bind {A B} (m : reader A) (k : A -> reader B) : reader B :=
  fun s =>
    match m s with
    | Ok (a, s') => k a s'
    | Raise e => Raise e
    | NoReturn => NoReturn
    end.

Definition raise {A} (c : exc_class) (msg : string) : reader A :=
  fun _ => Raise (Exc c [msg]).

Definition fail {A} (e : exn) : reader A := fun _ => Raise e.

Notation "'let*' x ':=' m 'in' k" := (bind m (fun x => k))
  (at level 10, x name, m at level 100, k at level 200).

Definition short_read : exn := Exc EOFError [].
Definition negative_count : exn := Exc StructError [].
Definition zero_length : exn := Exc ValueError [].
Definition undecodable : exn := Exc UnicodeDecodeError [].

(** What [reader.ushort()] raises: the reader has [read_ushort] only. *)
Definition no_ushort : exn :=
  Exc AttributeError ["'BinReader' object has no attribute 'ushort'"%string].

(** [read_bytes n]: the next [n] bytes of the stream. *)
Definition read_bytes (n : Z) : reader (list byte) :=
  fun s =>
    if n <? 0 then Raise negative_count
    else if Z.of_nat (length s) <? n then Raise short_read
    else Ok (take (Z.to_nat n) s, drop (Z.to_nat n) s).

(** [read_ubytes(n)]: a tuple of [n] unsigned bytes. *)
Definition read_ubytes (n : Z) : reader (list Z) :=
  let* bs := read_bytes n in ret (Z_of_byte <$> bs).

(** [read_byte()]: one signed byte. *)
Definition read_byte : reader Z :=
  let* bs := read_bytes 1 in ret (to_signed 8 (le_decode bs)).

(** [read_ushort()]: unsigned 16-bit. *)
Definition read_ushort : reader Z :=
  let* bs := read_bytes 2 in ret (le_decode bs).

(** [ushort()], called once, on line 151, for [BSIZE]: an attribute that
    the reader does not have. *)
Definition ushort : reader Z := fail no_ushort.

(** [read_int()]: signed 32-bit. *)
Definition read_int : reader Z :=
  let* bs := read_bytes 4 in ret (to_signed 32 (le_decode bs)).

(** [read_uint()]: unsigned 32-bit. *)
Definition read_uint : reader Z :=
  let* bs := read_bytes 4 in ret (le_decode bs).

(** ** Resources and the parsed index *)

(** [store.py], class [Resource]: [open("b", decompress=True)] yields the
    inflated stream, [open("b", decompress=False)] the stored one. *)
Record Resource : Set := mkResource {
  decompressed : list byte;
  raw : list byte
}.

Definition open (r : Resource) (decompress : bool) : list byte :=
  if decompress then decompressed r else raw r.

(** Modelled from the spec: what [ngsindex.parse_index] returns, "a
    sequence of reference entries, each holding a sequence of (offset, ...)
    intervals"; the code reads [ref_indexes], [intervals] and
    [file_offset]. *)
Record Offset : Set := mkOffset { file_offset : Z; block_offset : Z }.
Record RefIndex : Set := mkRefIndex { intervals : list Offset }.
Record Index : Set := mkIndex { ref_indexes : list RefIndex }.

(** Lines 141-155: one iteration of the [while] loop; returns [bsize] and
    the block's [ISIZE]. *)
Definition read_block : reader (Z * Z) :=
  let* _ := read_ubytes 4 in
  let* _ := read_uint in
  let* _ := read_ubytes 2 in
  let* xlen := read_ushort in
  if negb (xlen =? 6) then
    raise ValueError "Extra RFC1952 subfields not yet supported"
  else
  let* ids := read_ubytes 2 in
  if negb (bool_decide (ids = [66; 67])) then
    raise ValueError "Invalid subfield identifier"
  else
  let* slen := read_ushort in
  if negb (slen =? 2) then
    raise ValueError "Invalid subfield length"
  else
  let* bsize := ushort in
  let* _ := read_ubytes (bsize - xlen - 19) in
  let* _ := read_uint in
  let* isize := read_uint in
  ret (bsize, isize).

(** Lines 138-156: [while block_size < uncompressed_size]. *)
Fixpoint scan_blocks (fuel : nat) (uncompressed_size header_size block_size : Z)
  : reader Z :=
  if block_size <? uncompressed_size then
    match fuel with
    | O => fun _ => NoReturn
    | S fuel' =>
        let* b := read_block in
        let header_size := header_size + fst b in
        let block_size := block_size + snd b in
        scan_blocks fuel' uncompressed_size header_size block_size
    end
  else ret (header_size + 1).

(** Python's [min] over a generator of integers; [ValueError] when empty. *)
Definition py_min (l : list Z) : result Z :=
  match l with
  | [] => Raise (Exc ValueError ["min() arg is an empty sequence"%string])
  | x :: l' => Ok (foldl Z.min x l')
  end.

(** Lines 161-163: the generator expression. *)
Definition index_offsets (index : Index) : list Z :=
  ref_index ← ref_indexes index; offset ← intervals ref_index; [file_offset offset].

(** The states [(header_size, block_size, stream)] that the [while] loop
    passes through at the top of an iteration: from one such state, with
    [block_size < uncompressed_size] and a block read without error, the
    loop comes to the next. *)
Inductive scan_reaches (uncompressed_size : Z)
  : Z -> Z -> list byte -> Z -> Z -> list byte -> Prop :=
| reaches_here hs bs s : scan_reaches uncompressed_size hs bs s hs bs s
| reaches_next hs bs s b_size i_size s1 hs' bs' s' :
    bs < uncompressed_size ->
    read_block s = Ok ((b_size, i_size), s1) ->
    scan_reaches uncompressed_size (hs + b_size) (bs + i_size) s1 hs' bs' s' ->
    scan_reaches uncompressed_size hs bs s hs' bs' s'.

(** ** Reading text *)

Section Codec.

(** The codec of [read_string]: whether it decodes a sequence of bytes.
    The library fixes it; nothing below depends on which one it is. *)
Variable decodes : list byte -> bool.

(** [read_string(n, flag)]: [n] bytes of text.  All callers discard the
    text, so the bytes stand for it. *)
Definition read_string (n : Z) (flag : bool) : reader (list byte) :=
  if n =? 0 then fail zero_length
  else
    let* bs := read_bytes n in
    if decodes bs then ret bs else fail undecodable.

(** ** [get_bam_header_size] *)

(** Lines 129-133: [for _ in range(n_ref)]. *)
Fixpoint read_refs (n_ref : nat) (uncompressed_size : Z) : reader Z :=
  match n_ref with
  | O => ret uncompressed_size
  | S n =>
      let* l_name := read_int in
      let* _ := read_string l_name true in
      let* _ := read_int in
      read_refs n (uncompressed_size + (8 + l_name))
  end.

(** Lines 120-133: the uncompressed size of the header. *)
Definition uncompressed_header_size : reader Z :=
  let uncompressed_size := 12 in
  let* _ := read_string 3 true in
  let* _ := read_byte in
  let* l_text := read_int in
  let uncompressed_size := uncompressed_size + l_text in
  let* _ := read_string l_text true in
  let* n_ref := read_int in
  read_refs (Z.to_nat n_ref) uncompressed_size.

Definition get_bam_header_size (bam_resource : Resource)
    (index_resource : option Index) : result Z :=
  match index_resource with
  | None =>
      match uncompressed_header_size (open bam_resource true) with
      | Ok (uncompressed_size, _) =>
          let bam_file := open bam_resource false in
          match scan_blocks (S (length bam_file)) uncompressed_size 0 0 bam_file with
          | Ok (header_size, _) => Ok header_size
          | Raise e => Raise e
          | NoReturn => NoReturn
          end
      | Raise e => Raise e
      | NoReturn => NoReturn
      end
  | Some index => py_min (index_offsets index)
  end.

(** ** Well-formed inputs

    The byte layouts that the statements below quantify over: a BAM header
    as the decompressed stream carries it, and a BGZF block as the stored
    stream carries it. *)

Record BamRef : Set := mkBamRef { ref_name : list byte; l_ref : Z }.
Record BamHeader : Set := mkBamHeader { text : list byte; refs : list BamRef }.

Definition bam_magic : list byte := [x42; x41; x4d; x01].

Definition encode_ref (r : BamRef) : list byte :=
  le_encode 4 (Z.of_nat (length (ref_name r))) ++ ref_name r ++ le_encode 4 (l_ref r).

Definition encode_bam_header (h : BamHeader) : list byte :=
  bam_magic ++ le_encode 4 (Z.of_nat (length (text h))) ++ text h
    ++ le_encode 4 (Z.of_nat (length (refs h)))
    ++ concat (encode_ref <$> refs h).

(** A reference whose name is not empty and is text for the codec. *)
Definition wf_ref (r : BamRef) : Prop :=
  0 < Z.of_nat (length (ref_name r)) < 2 ^ 31 /\
  decodes (ref_name r) = true /\
  0 <= l_ref r < 2 ^ 31.

(** A header whose text is not empty, with the magic string, the text
    and the names text for the codec. *)
Definition wf_bam_header (h : BamHeader) : Prop :=
  decodes (take 3 bam_magic) = true /\
  0 < Z.of_nat (length (text h)) < 2 ^ 31 /\
  decodes (text h) = true /\
  Z.of_nat (length (refs h)) < 2 ^ 31 /\
  Forall wf_ref (refs h).

End Codec.

(** The sum over the references of [8 + ln_i]. *)
Definition refs_size (rs : list BamRef) : Z :=
  foldr (fun r acc => 8 + Z.of_nat (length (ref_name r)) + acc) 0 rs.

(** The size as the specification words it: [4 + 4 + L + sum (8 + ln_i)]. *)
Definition spec_uncompressed_size (h : BamHeader) : Z :=
  4 + 4 + Z.of_nat (length (text h)) + refs_size (refs h).

Record BgzfBlock : Set := mkBgzfBlock {
  xfl : byte;
  os : byte;
  mtime : Z;
  cdata : list byte;
  crc32 : Z;
  isize : Z
}.

(** [BSIZE]: total block size minus one; the block is 12 header bytes,
    6 bytes of extra field, the payload and 8 trailer bytes. *)
Definition bsize (b : BgzfBlock) : Z := 25 + Z.of_nat (length (cdata b)).

Definition encode_block (b : BgzfBlock) : list byte :=
  [x1f; x8b; x08; x04] ++ le_encode 4 (mtime b) ++ [xfl b; os b]
    ++ le_encode 2 6 ++ [x42; x43] ++ le_encode 2 2 ++ le_encode 2 (bsize b)
    ++ cdata b ++ le_encode 4 (crc32 b) ++ le_encode 4 (isize b).

Definition wf_block (b : BgzfBlock) : Prop :=
  bsize b < 2 ^ 16 /\ 0 <= isize b < 2 ^ 32.

(** A codec for the sample inputs: the bytes below 128 are text. *)
Definition ascii_codec (bs : list byte) : bool :=
  forallb (fun b => Z_of_byte b <? 128) bs.

(** The index of the specification's example: interval offsets 500, 200
    and 800, spread over two reference entries. *)
Definition example_index : Index :=
  mkIndex [mkRefIndex [mkOffset 500 0; mkOffset 200 0]; mkRefIndex [];
           mkRefIndex [mkOffset 800 0]].

(** The file of the specification's scan-path example: no header text,
    no references, and one block that declares 8 uncompressed bytes. *)
Definition block_isize_8 : BgzfBlock := mkBgzfBlock x00 xff 0 [] 0 8.

Definition file_isize_8 : Resource :=
  mkResource (encode_bam_header (mkBamHeader [] [])) (encode_block block_isize_8).

(** A header with the text "@HD" and no references, and a file with this
    header and one well-formed block that declares 15 uncompressed
    bytes. *)
Definition header_hd : BamHeader := mkBamHeader [x40; x48; x44] [].

Definition block_isize_15 : BgzfBlock := mkBgzfBlock x00 xff 0 [] 0 15.

Definition file_hd : Resource :=
  mkResource (encode_bam_header header_hd) (encode_block block_isize_15).

(** A reader is well behaved when it never moves the stream backwards and
    always returns or raises. *)
Definition well_behaved {A} (m : reader A) : Prop :=
  forall s, match m s with
            | Ok (_, s') => (length s' <= length s)%nat
            | Raise _ => True
            | NoReturn => False
            end.

(** A file with the header "@HD" whose first block header carries the
    subfield identifiers (66, 65). *)
Definition file_bad_first_block : Resource :=
  mkResource (encode_bam_header header_hd)
    ([x1f; x8b; x08; x04; x00; x00; x00; x00; x00; xff]
       ++ [x06; x00] ++ [x42; x41] ++ [x02; x00] ++ [x19; x00]).

End Bgzf.

(** ** [server.py]: the HTTP errors *)

Definition NOT_FOUND : Z := 404.
Definition UNSUPPORTED_MEDIA_TYPE : Z := 415.
Definition INTERNAL_SERVER_ERROR : Z := 500.
Definition OK_STATUS : Z := 200.

(** [NotFoundHttpError(path)]: status, kind name, then the text. *)
Definition NotFoundHttpError (path : path_arg) : HttpError :=
  mkHttpError NOT_FOUND "NotFound" ["The resource requested was not found"%string]
    None (Some path).

(** [raise UnknownHttpError from err]: no positional text; [__cause__]
    is [err]. *)
Definition UnknownHttpError (err : exn) : HttpError :=
  mkHttpError INTERNAL_SERVER_ERROR "UnknownError" [] (Some (exn_args err)) None.

(** The [message] property.  With no positional text the second branch
    reads [self.__cause__.args]; every exception has a [__cause__]
    attribute, [None] unless the error was raised [from] another one, and
    [None] has no [args]. *)
Definition message (e : HttpError) : result string :=
  match args e with
  | msg :: _ => Ok msg
  | [] =>
      match cause e with
      | None =>
          Raise (Exc AttributeError
                   ["'NoneType' object has no attribute 'args'"%string])
      | Some (msg :: _) => Ok msg
      | Some [] => Ok ""%string
      end
  end.

(** ** [server.py]: the router *)

Module Routing.
Section Router.

(** The handlers bound to routes. *)
Context {H : Type}.

(** A value of the nested route dictionary: a handler (a callable, which
    [isinstance(val, dict)] tells apart), or a [dict] from segments to
    values. *)
#[local] Unset Elimination Schemes.
Inductive node : Type :=
| Leaf (handler : H)
| Inner (route_dict : gmap string node).
#[local] Set Elimination Schemes.

Record Router : Type := mkRouter { routes : gmap string node }.

(** [Router()]: [self.routes = {}]. *)
Definition new_router : Router := mkRouter ∅.

(** The walk of [add_route] from the dictionary [route_dict].  An empty
    [path] fails at [path[-1]].  A handler met where a dictionary is
    needed fails at the next [in] test or at the final item assignment
    (the wording of that [TypeError] names the handler's class and is not
    modelled); nothing has been created by then, so a failed call leaves
    the routes as they were. *)
Fixpoint add_route_from (route_dict : gmap string node) (path : list string)
    (handler : H) : result (gmap string node) :=
  match path with
  | [] => Raise (Exc IndexError ["list index out of range"%string])
  | part :: rest =>
      match rest with
      | [] => Ok (<[part := Leaf handler]> route_dict)
      | _ :: _ =>
          match route_dict !! part with
          | None =>
              rbind (add_route_from ∅ rest handler) (fun sub =>
              Ok (<[part := Inner sub]> route_dict))
          | Some (Inner sub0) =>
              rbind (add_route_from sub0 rest handler) (fun sub =>
              Ok (<[part := Inner sub]> route_dict))
          | Some (Leaf _) =>
              Raise (Exc TypeError ["handler object is not a dict"%string])
          end
      end
  end.

Definition add_route (r : Router) (path : list string) (handler : H)
  : result Router :=
  rbind (add_route_from (routes r) path handler) (fun d => Ok (mkRouter d)).

(** The loop of [get_route_handler]: [rest] is [path[i:]], [path] the
    whole argument (kept for the error). *)
Fixpoint walk (route_dict : gmap string node) (rest path : list string)
  : result (H * list string) :=
  match rest with
  | [] => Raise (Http (NotFoundHttpError (PathSeq path)))
  | part :: rest' =>
      match route_dict !! part with
      | None => Raise (Http (NotFoundHttpError (PathSeq path)))
      | Some (Inner val) => walk val rest' path
      | Some (Leaf val) => Ok (val, rest')
      end
  end.

Definition get_route_handler (r : Router) (path : list string)
  : result (H * list string) :=
  walk (routes r) path path.

(** [descend d p]: the inner node reached from [d] by following the
    segments of [p] through inner nodes only. *)
Fixpoint descend (d : gmap string node) (p : list string)
  : option (gmap string node) :=
  match p with
  | [] => Some d
  | part :: p' =>
      match d !! part with
      | Some (Inner d') => descend d' p'
      | _ => None
      end
  end.

End Router.
Arguments node : clear implicits.
Arguments Router : clear implicits.
End Routing.

(** [__init__.py]: the three handler classes that [create_default_router]
    binds. *)
Inductive handler_class : Set :=
| ReadsApiRouteHandler
| VariantsApiRouteHandler
| BlockRouteHandler.

(** [create_default_router]. *)
Definition create_default_router : result (Routing.Router handler_class) :=
  rbind (Routing.add_route Routing.new_router ["reads"%string] ReadsApiRouteHandler)
    (fun r =>
  rbind (Routing.add_route r ["variants"%string] VariantsApiRouteHandler)
    (fun r =>
  Routing.add_route r ["block"%string] BlockRouteHandler)).

(** ** Python strings *)

Module PyStr.

Definition code (c : Ascii.ascii) : N := Ascii.N_of_ascii c.

Definition in_range (lo hi : N) (c : Ascii.ascii) : bool :=
  ((lo <=? code c) && (code c <=? hi))%N.

Definition py_len (s : string) : Z := Z.of_nat (String.length s).

(** [s.startswith(p)]. *)
Definition startswith (s p : string) : bool := String.prefix p s.

(** A slice bound, clamped as Python clamps it. *)
Definition norm_index (len i : Z) : Z :=
  if i <? 0 then Z.max (len + i) 0 else Z.min i len.

(** [s[start:stop]], either bound possibly omitted. *)
Definition slice (s : string) (start stop : option Z) : string :=
  let len := py_len s in
  let lo := match start with Some i => norm_index len i | None => 0 end in
  let hi := match stop with Some j => norm_index len j | None => len end in
  if lo <? hi then String.substring (Z.to_nat lo) (Z.to_nat (hi - lo)) s
  else ""%string.

(** [s.endswith(suf)]. *)
Definition endswith (s suf : string) : bool :=
  (py_len suf <=? py_len s)
  && String.eqb (slice s (Some (py_len s - py_len suf)) None) suf.

Fixpoint map_chars (f : Ascii.ascii -> Ascii.ascii) (s : string) : string :=
  match s with
  | EmptyString => EmptyString
  | String c s' => String (f c) (map_chars f s')
  end.

(** [str.lower] on the code points 0..255: the ASCII capitals and the
    latin-1 capitals U+00C0..U+00DE (U+00D7 is the multiplication sign). *)
Definition lower_char (c : Ascii.ascii) : Ascii.ascii :=
  if in_range 65 90 c || (in_range 192 222 c && negb (code c =? 215)%N)
  then Ascii.ascii_of_N (code c + 32) else c.

Definition lower : string -> string := map_chars lower_char.

(** [str.upper] on the code points 0..255, as code points: the ASCII
    small letters and the latin-1 small letters U+00E0..U+00FE (U+00F7 is
    the division sign) lose 32; the capital of U+00B5 is U+039C, that of
    U+00FF is U+0178, and U+00DF becomes "SS". *)
Definition upper_char (c : Ascii.ascii) : list N :=
  if (code c =? 181)%N then [924%N]
  else if (code c =? 223)%N then [83%N; 83%N]
  else if (code c =? 255)%N then [376%N]
  else if in_range 97 122 c || (in_range 224 254 c && negb (code c =? 247)%N)
  then [(code c - 32)%N] else [code c].

Fixpoint upper (s : string) : list N :=
  match s with
  | EmptyString => []
  | String c s' => upper_char c ++ upper s'
  end.

(** [s.split(sep)] for a one-character separator. *)
Fixpoint split (sep : Ascii.ascii) (s : string) : list string :=
  match s with
  | EmptyString => [EmptyString]
  | String c s' =>
      if Ascii.eqb c sep then EmptyString :: split sep s'
      else match split sep s' with
           | [] => [String c EmptyString]
           | w :: ws => String c w :: ws
           end
  end.

(** White space as [int] strips it, among the code points 0..255. *)
Definition is_space (c : Ascii.ascii) : bool :=
  in_range 9 13 c || in_range 28 32 c || (code c =? 133)%N || (code c =? 160)%N.

Fixpoint lstrip (s : string) : string :=
  match s with
  | EmptyString => EmptyString
  | String c s' => if is_space c then lstrip s' else s
  end.

Definition strip (s : string) : string :=
  String.rev (lstrip (String.rev (lstrip s))).

Definition digit (c : Ascii.ascii) : option Z :=
  if in_range 48 57 c then Some (Z.of_N (code c) - 48) else None.

(** Decimal digits, single underscores allowed between digits. *)
Fixpoint digits (acc : Z) (after_digit : bool) (s : string) : option Z :=
  match s with
  | EmptyString => if after_digit then Some acc else None
  | String c s' =>
      if Ascii.eqb c "_"%char then
        if after_digit then digits acc false s' else None
      else
        match digit c with
        | Some d => digits (10 * acc + d) true s'
        | None => None
        end
  end.

(** [int(s)]; [None] stands for [ValueError]. *)
Definition py_int (s : string) : option Z :=
  match strip s with
  | String "+"%char s' => digits 0 false s'
  | String "-"%char s' => Z.opp <$> digits 0 false s'
  | s' => digits 0 false s'
  end.

(** Python's ordering of tuples of integers. *)
Fixpoint tuple_lt (a b : list Z) : bool :=
  match a, b with
  | _, [] => false
  | [], _ :: _ => true
  | x :: a', y :: b' =>
      if x <? y then true else if y <? x then false else tuple_lt a' b'
  end.

End PyStr.

(** ** [__init__.py]: content negotiation *)

Definition HTSGET_VERSION : list Z := [1; 1; 0].

(** [UnsupportedMediaTypeHttpError(media_type)]: the call to
    [super().__init__] passes the status and one string, which lands in
    the [error_type] parameter; no positional text is left for [args]. *)
Definition UnsupportedMediaTypeHttpError (media_type : string) : HttpError :=
  mkHttpError UNSUPPORTED_MEDIA_TYPE
    ("The requested media type is unsupported: " +:+ media_type) [] None None.

(** Request headers: names compare without regard to case and the first
    match wins, as in [http.client.HTTPMessage]. *)
Definition Headers : Set := list (string * string).

Fixpoint get_header (name : string) (headers : Headers) : option string :=
  match headers with
  | [] => None
  | (k, v) :: rest =>
      if String.eqb (PyStr.lower k) (PyStr.lower name) then Some v
      else get_header name rest
  end.

(** [tuple(int(v) for v in parts)]; [None] when some [int] raises. *)
Definition parse_version (parts : list string) : option (list Z) :=
  mapM PyStr.py_int parts.

(** [HtsgetHttpRequestHandler.check_headers]. *)
Definition check_headers (headers : Headers) : result unit :=
  match get_header "Accept" headers with
  | None => Ok tt
  | Some accept =>
      if negb (PyStr.startswith accept "application/") then
        Raise (Http (UnsupportedMediaTypeHttpError accept))
      else
        let accept_app := PyStr.lower (PyStr.slice accept (Some 12) None) in
        if String.eqb accept_app "json" then Ok tt
        else if PyStr.startswith accept_app "vnd.ga4gh.htsget.v"
                && PyStr.endswith accept_app "+json" then
          match parse_version
                  (PyStr.split "."%char (PyStr.slice accept (Some 18) (Some (-5)))) with
          | None => Raise (Http (UnsupportedMediaTypeHttpError accept))
          | Some version =>
              if PyStr.tuple_lt version HTSGET_VERSION then
                Raise (Http (UnsupportedMediaTypeHttpError accept))
              else
                match version, HTSGET_VERSION with
                | v0 :: _, s0 :: _ =>
                    if s0 <? v0 then
                      Raise (Http (UnsupportedMediaTypeHttpError accept))
                    else Ok tt
                | _, _ => Raise (Exc IndexError ["tuple index out of range"%string])
                end
          end
        else Raise (Http (UnsupportedMediaTypeHttpError accept))
  end.

(** ** JSON values and [json.dumps] *)

Module Json.

(** A [str] is given as a Rocq string ([JString]) or by its code points
    ([JText]). *)
#[local] Unset Elimination Schemes.
Inductive json : Set :=
| JNull
| JString (s : string)
| JText (points : list N)
| JArray (items : list json)
| JObject (members : list (string * json)).
#[local] Set Elimination Schemes.

(** The double quote character. *)
Definition dq : string := String "034"%char EmptyString.

Definition hex_digit (n : N) : Ascii.ascii :=
  if (n <? 10)%N then Ascii.ascii_of_N (48 + n) else Ascii.ascii_of_N (87 + n).

(** [json.dumps] escapes with [ensure_ascii]: every character outside
    space..tilde, the quote and the backslash. *)
Definition escape_char (c : Ascii.ascii) : string :=
  let n := PyStr.code c in
  if (n =? 34)%N then "\" +:+ dq
  else if (n =? 92)%N then "\\"
  else if (n =? 10)%N then "\n"
  else if (n =? 13)%N then "\r"
  else if (n =? 9)%N then "\t"
  else if (n =? 8)%N then "\b"
  else if (n =? 12)%N then "\f"
  else if PyStr.in_range 32 126 c then String c EmptyString
  else "\u00" +:+ String (hex_digit (n / 16)) (String (hex_digit (n mod 16)) EmptyString).

Fixpoint escape (s : string) : string :=
  match s with
  | EmptyString => EmptyString
  | String c s' => escape_char c +:+ escape s'
  end.

Definition quote (s : string) : string := dq +:+ escape s +:+ dq.

Definition hex4 (n : N) : string :=
  String (hex_digit (n / 4096 mod 16))
    (String (hex_digit (n / 256 mod 16))
       (String (hex_digit (n / 16 mod 16))
          (String (hex_digit (n mod 16)) EmptyString))).

(** The same escaping for a code point: beyond U+FFFF a surrogate pair. *)
Definition escape_point (n : N) : string :=
  if (n <? 256)%N then escape_char (Ascii.ascii_of_N n)
  else if (n <? 65536)%N then "\u" +:+ hex4 n
  else "\u" +:+ hex4 (55296 + (n - 65536) / 1024)
         +:+ "\u" +:+ hex4 (56320 + (n - 65536) mod 1024).

Fixpoint escape_points (l : list N) : string :=
  match l with
  | [] => EmptyString
  | n :: l' => escape_point n +:+ escape_points l'
  end.

Definition quote_points (l : list N) : string := dq +:+ escape_points l +:+ dq.

Fixpoint join (sep : string) (l : list string) : string :=
  match l with
  | [] => EmptyString
  | [x] => x
  | x :: l' => x +:+ sep +:+ join sep l'
  end.

(** [json.dumps(j)] with the default separators. *)
Fixpoint dumps (j : json) : string :=
  match j with
  | JNull => "null"
  | JString s => quote s
  | JText points => quote_points points
  | JArray items => "[" +:+ join ", " (List.map dumps items) +:+ "]"
  | JObject members =>
      "{" +:+ join ", " (List.map (fun kv => quote (fst kv) +:+ ": " +:+ dumps (snd kv))
                            members) +:+ "}"
  end.

End Json.

(** ** The request handler: calls, state and the handler monad *)

(** Calls made on the [BaseHTTPRequestHandler] while a request is served,
    as far as they put something on the connection; [wfile_write] is a
    write that the binary stream [wfile] accepts. *)
Inductive http_call : Set :=
| send_response (code : Z)
| send_error (code : Z)
| send_header (keyword value : string)
| end_headers
| wfile_write (data : string).

Module Server.

(** The state a request worker acts on: what it has sent so far, and the
    state [X] behind the route handlers. *)
Record St (X : Type) : Type := mkSt { sent : list http_call; ext : X }.
Arguments mkSt {X} sent ext.
Arguments sent {X} s.
Arguments ext {X} s.

Definition M (X A : Type) : Type := St X -> result A * St X.

Definition mret {X A} (a : A) : M X A := fun st => (Ok a, st).

Definition mbind {X A B} (m : M X A) (k : A -> M X B) : M X B :=
  fun st =>
    match m st with
    | (Ok a, st') => k a st'
    | (Raise e, st') => (Raise e, st')
    | (NoReturn, st') => (NoReturn, st')
    end.

Definition mraise {X A} (e : exn) : M X A := fun st => (Raise e, st).

Definition lift {X A} (r : result A) : M X A := fun st => (r, st).

Definition emit {X} (c : http_call) : M X unit :=
  fun st => (Ok tt, mkSt (sent st ++ [c]) (ext st)).

(** What [wfile.write] raises when it is handed a [str]. *)
Definition str_to_wfile : exn :=
  Exc TypeError ["a bytes-like object is required, not 'str'"%string].

(** [self.wfile.write(data)] with [data] a [str], as [json.dumps] returns
    it: [wfile] is the binary stream of the connection, and the call
    raises [TypeError] with nothing written. *)
Definition write_str {X} (data : string) : M X unit := mraise str_to_wfile.

Definition get_ext {X} : M X X := fun st => (Ok (ext st), st).

Definition put_ext {X} (x : X) : M X unit := fun st => (Ok tt, mkSt (sent st) x).

Notation "'let*' x ':=' m 'in' k" := (mbind m (fun x => k))
  (at level 10, x name, m at level 100, k at level 200).
Notation "m ';;' k" := (mbind m (fun _ => k))
  (at level 100, k at level 200, right associativity).

(** What [urllib.parse.urlparse] returns. *)
Record ParseResult : Set := mkParseResult {
  url_scheme : string;
  url_netloc : string;
  url_path : string;
  url_params : string;
  url_query : string;
  url_fragment : string
}.

Record Request : Set := mkRequest { req_path : string; headers : Headers }.

Definition ERROR_RESPONSE_CONTENT_TYPE : string := "application/json".

(** [HtsgetHttpRequestHandler.handle_error]. *)
Definition handle_error {X} (err : HttpError) : M X unit :=
  emit (send_error (status err)) ;;
  emit (send_header "Content-type" ERROR_RESPONSE_CONTENT_TYPE) ;;
  emit end_headers ;;
  let* msg := lift (message err) in
  let error_dict :=
    Json.JObject [("htsget"%string,
       Json.JObject [("error"%string, Json.JString (error_type err));
                     ("message"%string, Json.JString msg)])] in
  write_str (Json.dumps error_dict).

Section RequestHandler.

(** The route handlers [H] with their [__call__], the state [X] they act
    on, the server's router, and [urllib.parse.urlparse]. *)
Context {H X : Type}.
Variable call : H -> list string -> ParseResult -> M X unit.
Variable router : Routing.Router H.
Variable urlparse : string -> ParseResult.

(** [RoutingHttpRequestHandler.route_request]. *)
Definition route_request (req : Request) : M X unit :=
  let parsed := urlparse (req_path req) in
  if (PyStr.py_len (url_path parsed) =? 0)
     || negb (PyStr.startswith (url_path parsed) "/") then
    mraise (Http (NotFoundHttpError (PathStr (req_path req))))
  else
    let path_parts :=
      PyStr.split "/"%char (PyStr.slice (url_path parsed) (Some 1) None) in
    let* found := lift (Routing.get_route_handler router path_parts) in
    let route_handler := fst found in
    let sub_route := snd found in
    call route_handler sub_route parsed.

(** The [except] clauses of [do_GET]: an [HttpError] goes to
    [handle_error]; any other exception is first wrapped by
    [raise UnknownHttpError from err]. *)
Definition except_clauses (outcome : result unit * St X) : result unit * St X :=
  match outcome with
  | (Raise (Http err), st) => handle_error err st
  | (Raise (Exc c a), st) => handle_error (UnknownHttpError (Exc c a)) st
  | (Ok tt, st) => (Ok tt, st)
  | (NoReturn, st) => (NoReturn, st)
  end.

(** [RoutingHttpRequestHandler.do_GET], with the [check_headers] and
    [handle_error] of [HtsgetHttpRequestHandler]. *)
Definition do_GET (req : Request) : M X unit :=
  fun st =>
    except_clauses
      ((lift (check_headers (headers req)) ;; route_request req) st).

End RequestHandler.

End Server.

(** ** [__init__.py]: [ApiRouteHandler] *)

Definition OK_RESPONSE_CONTENT_TYPE : string :=
  "application/vnd.ga4gh.htsget.v{'.'.join(HTSGET_VERSION)}+json; charset=utf-8".

(** The content type that the specification gives for ticket responses. *)
Definition spec_ok_content_type : string :=
  "application/vnd.ga4gh.htsget.v1.1.0+json; charset=utf-8".

(** A query value: [handle] is written for a string; [__call__] passes
    what [parse_qs] returns, a list of strings per key. *)
Inductive pyval : Set :=
| VStr (s : string)
| VList (l : list string).

Module Api.
Import Server.

Section ApiRouteHandler.

(** Data resources [DR] (the cache keys), index resources [IR], and the
    state [W] of the data store and its resources. *)
Context {DR IR W : Type} `{Countable DR}.

(** Calls that [handle] makes outside the handler object. *)
Inductive store_call : Type :=
| call_resolve (record_id : list string) (data_format : pyval) (index_format : string)
| call_exists (index_resource : IR)
| call_create_index (data_resource : DR) (index_resource : IR)
| call_add_resource (index_resource : IR)
| call_create_ticket_urls (data_format : pyval) (data_resource : DR)
    (index_resource : IR).

(** The handler object and what it reaches: [_cache], [_cache_lock], the
    store, and the log of outside calls. *)
Record ApiState : Type := mkApiState {
  _cache : gmap DR string;
  _cache_lock : bool;
  store : W;
  calls : list store_call
}.

(** The abstract members of the class and the data store's methods.
    Each may raise and may change the store. *)
Record ApiClass : Type := mkApiClass {
  default_format : string;
  index_format : string;
  resolve : list string -> pyval -> string -> W -> result (DR * IR) * W;
  exists_ : IR -> W -> bool;
  create_index : DR -> IR -> W -> result unit * W;
  add_resource : IR -> W -> result unit * W;
  create_ticket_urls :
    pyval -> gmap string pyval -> DR -> IR -> W -> result Json.json * W
}.

Variable self : ApiClass.

Definition get_cache : M ApiState (gmap DR string) :=
  fun st => (Ok (_cache (ext st)), st).

Definition set_cache (c : gmap DR string) : M ApiState unit :=
  fun st =>
    (Ok tt, mkSt (sent st)
              (mkApiState c (_cache_lock (ext st)) (store (ext st)) (calls (ext st)))).

(** An outside call: logged, then run on the store. *)
Definition outside {A} (c : store_call) (f : W -> result A * W) : M ApiState A :=
  fun st =>
    let x := ext st in
    let (r, w) := f (store x) in
    (r, mkSt (sent st) (mkApiState (_cache x) (_cache_lock x) w (calls x ++ [c]))).

(** [Lock.acquire()]: takes a free lock; on a held lock the call waits
    and, with nobody else running, never returns. *)
Definition acquire : M ApiState unit :=
  fun st =>
    let x := ext st in
    if _cache_lock x then (NoReturn, st)
    else (Ok tt, mkSt (sent st) (mkApiState (_cache x) true (store x) (calls x))).

Definition release : M ApiState unit :=
  fun st =>
    let x := ext st in
    (Ok tt, mkSt (sent st) (mkApiState (_cache x) false (store x) (calls x))).

(** [data_format.upper()]: a list has no [upper]. *)
Definition py_upper (v : pyval) : result (list N) :=
  match v with
  | VStr s => Ok (PyStr.upper s)
  | VList _ =>
      Raise (Exc AttributeError ["'list' object has no attribute 'upper'"%string])
  end.

(** Lines 104-122: the branch taken when the key is not cached. *)
Definition make_ticket (data_format : pyval) (query : gmap string pyval)
    (data_resource : DR) (index_resource : IR) : M ApiState string :=
  let* found :=
    outside (call_exists index_resource)
      (fun w => (Ok (exists_ self index_resource w), w)) in
  (if negb found then
     outside (call_create_index data_resource index_resource)
       (create_index self data_resource index_resource) ;;
     outside (call_add_resource index_resource) (add_resource self index_resource)
   else mret tt) ;;
  let* ticket_urls :=
    outside (call_create_ticket_urls data_format data_resource index_resource)
      (create_ticket_urls self data_format query data_resource index_resource) in
  let* fmt := lift (py_upper data_format) in
  let ticket :=
    Json.JObject [("htsget"%string,
       Json.JObject [("format"%string, Json.JText fmt);
                     ("urls"%string, ticket_urls)])] in
  let ticket_str := Json.dumps ticket in
  acquire ;;
  let* cache := get_cache in
  (match cache !! data_resource with
   | None => set_cache (<[data_resource := ticket_str]> cache)
   | Some _ => mret tt
   end) ;;
  release ;;
  mret ticket_str.

(** [ApiRouteHandler.handle]. *)
Definition handle (record_id : list string) (query : gmap string pyval)
  : M ApiState unit :=
  let data_format := default (VStr (default_format self)) (query !! "format"%string) in
  let* resolved :=
    outside (call_resolve record_id data_format (index_format self))
      (resolve self record_id data_format (index_format self)) in
  let data_resource := fst resolved in
  let index_resource := snd resolved in
  let* cache := get_cache in
  let* ticket_str :=
    match cache !! data_resource with
    | Some ticket_str => mret ticket_str
    | None => make_ticket data_format query data_resource index_resource
    end in
  emit (send_response OK_STATUS) ;;
  emit (send_header "Content-Type" OK_RESPONSE_CONTENT_TYPE) ;;
  emit end_headers ;;
  write_str ticket_str.

(** Successive calls of [handle], each with its record id and query,
    whatever each one's outcome. *)
Fixpoint handle_all (reqs : list (list string * gmap string pyval))
    (st : St ApiState) : St ApiState :=
  match reqs with
  | [] => st
  | (record_id, query) :: reqs' => handle_all reqs' (snd (handle record_id query st))
  end.

(** *** Request workers running [handle] side by side

    [ThreadedHttpServer] serves every request on a thread of its own, so
    calls of [handle] on one handler object overlap.  A worker is at one
    of the points below; between two points it makes at most one access to
    what the workers share (the cache, the lock, the store). *)
Inductive point : Type :=
| AtResolve (record_id : list string) (query : gmap string pyval)
| AtInTest (data_format : pyval) (query : gmap string pyval)
    (data_resource : DR) (index_resource : IR)
| AtRead (data_resource : DR)
| AtExists (data_format : pyval) (query : gmap string pyval)
    (data_resource : DR) (index_resource : IR)
| AtCreateIndex (data_format : pyval) (query : gmap string pyval)
    (data_resource : DR) (index_resource : IR)
| AtAddResource (data_format : pyval) (query : gmap string pyval)
    (data_resource : DR) (index_resource : IR)
| AtTicketUrls (data_format : pyval) (query : gmap string pyval)
    (data_resource : DR) (index_resource : IR)
| AtAcquire (data_resource : DR) (ticket_str : string)
| AtInsert (data_resource : DR) (ticket_str : string)
| AtRelease (data_resource : DR) (ticket_str : string)
| AtRespond (data_resource : DR) (ticket_str : string)
| Returned (data_resource : DR)
| Raised (e : exn).

(** One move of a worker: the lines of [handle] from its point to the
    next. *)
Definition move (p : point) : M ApiState point :=
  match p with
  | AtResolve record_id query =>
      let data_format :=
        default (VStr (default_format self)) (query !! "format"%string) in
      let* resolved :=
        outside (call_resolve record_id data_format (index_format self))
          (resolve self record_id data_format (index_format self)) in
      mret (AtInTest data_format query (fst resolved) (snd resolved))
  | AtInTest data_format query data_resource index_resource =>
      let* cache := get_cache in
      match cache !! data_resource with
      | Some _ => mret (AtRead data_resource)
      | None => mret (AtExists data_format query data_resource index_resource)
      end
  | AtRead data_resource =>
      let* cache := get_cache in
      match cache !! data_resource with
      | Some ticket_str => mret (AtRespond data_resource ticket_str)
      | None => mraise (Exc KeyError [])
      end
  | AtExists data_format query data_resource index_resource =>
      let* found :=
        outside (call_exists index_resource)
          (fun w => (Ok (exists_ self index_resource w), w)) in
      if negb found then
        mret (AtCreateIndex data_format query data_resource index_resource)
      else mret (AtTicketUrls data_format query data_resource index_resource)
  | AtCreateIndex data_format query data_resource index_resource =>
      outside (call_create_index data_resource index_resource)
        (create_index self data_resource index_resource) ;;
      mret (AtAddResource data_format query data_resource index_resource)
  | AtAddResource data_format query data_resource index_resource =>
      outside (call_add_resource index_resource) (add_resource self index_resource) ;;
      mret (AtTicketUrls data_format query data_resource index_resource)
  | AtTicketUrls data_format query data_resource index_resource =>
      let* ticket_urls :=
        outside (call_create_ticket_urls data_format data_resource index_resource)
          (create_ticket_urls self data_format query data_resource index_resource) in
      let* fmt := lift (py_upper data_format) in
      let ticket :=
        Json.JObject [("htsget"%string,
           Json.JObject [("format"%string, Json.JText fmt);
                         ("urls"%string, ticket_urls)])] in
      mret (AtAcquire data_resource (Json.dumps ticket))
  | AtAcquire data_resource ticket_str =>
      acquire ;; mret (AtInsert data_resource ticket_str)
  | AtInsert data_resource ticket_str =>
      let* cache := get_cache in
      (match cache !! data_resource with
       | None => set_cache (<[data_resource := ticket_str]> cache)
       | Some _ => mret tt
       end) ;;
      mret (AtRelease data_resource ticket_str)
  | AtRelease data_resource ticket_str =>
      release ;; mret (AtRespond data_resource ticket_str)
  | AtRespond data_resource ticket_str =>
      emit (send_response OK_STATUS) ;;
      emit (send_header "Content-Type" OK_RESPONSE_CONTENT_TYPE) ;;
      emit end_headers ;;
      write_str ticket_str ;;
      mret (Returned data_resource)
  | Returned data_resource => mret (Returned data_resource)
  | Raised e => mret (Raised e)
  end.

(** A worker alone: moves until [handle] returns or raises; no path
    through [handle] has more than ten moves. *)
Fixpoint run_alone (fuel : nat) (p : point) : M ApiState unit :=
  match p with
  | Returned _ => mret tt
  | Raised e => mraise e
  | _ =>
      match fuel with
      | O => fun st => (NoReturn, st)
      | S fuel' => mbind (move p) (run_alone fuel')
      end
  end.

(** A worker: where it is and what it has sent on its connection. *)
Record worker : Type := mkWorker { at_point : point; out : list http_call }.

(** The workers and the handler object they share. *)
Record pool : Type := mkPool { workers : list worker; shared : ApiState }.

(** Worker [i] makes one move.  A worker that waits for the lock, or has
    finished, stays where it is. *)
Definition run_worker (i : nat) (p : pool) : pool :=
  match workers p !! i with
  | None => p
  | Some w =>
      match move (at_point w) (mkSt (out w) (shared p)) with
      | (Ok next, st) =>
          mkPool (<[i := mkWorker next (sent st)]> (workers p)) (ext st)
      | (Raise e, st) =>
          mkPool (<[i := mkWorker (Raised e) (sent st)]> (workers p)) (ext st)
      | (NoReturn, _) => p
      end
  end.

(** A schedule names the worker that moves next, move after move. *)
Definition run_schedule (schedule : list nat) (p : pool) : pool :=
  foldl (fun p i => run_worker i p) p schedule.


End ApiRouteHandler.
Arguments point : clear implicits.
Arguments worker : clear implicits.
Arguments pool DR IR W {_ _}.
Arguments store_call : clear implicits.
Arguments ApiState DR IR W {_ _}.
Arguments ApiClass : clear implicits.

End Api.

(** ** [__init__.py]: the [__call__] of the route handlers *)

Section Call.
Import Server.
Context {X : Type}.

(** [urllib.parse.parse_qs(query, True, True)]: a list of values per
    key; strict parsing raises on a malformed field. *)
Variable parse_qs : string -> result (gmap string pyval).

(** [ApiRouteHandler.__call__], for a class whose [handle] is
    [handle_method]. *)
Definition api_call (handle_method : list string -> gmap string pyval -> M X unit)
    (sub_route : list string) (parsed_url : ParseResult) : M X unit :=
  if negb (Nat.eqb (length sub_route) 0) then
    mraise (Http (NotFoundHttpError (PathStr (url_path parsed_url))))
  else
    let* query := lift (parse_qs (url_query parsed_url)) in
    handle_method sub_route query.

(** The three classes of the package: [ReadsApiRouteHandler] and
    [VariantsApiRouteHandler] override [handle] with an empty body, and
    [BlockRouteHandler.__call__] is empty. *)
Definition call_handler (h : handler_class) (sub_route : list string)
    (parsed_url : ParseResult) : M X unit :=
  match h with
  | ReadsApiRouteHandler | VariantsApiRouteHandler =>
      api_call (fun _ _ => mret tt) sub_route parsed_url
  | BlockRouteHandler => mret tt
  end.

End Call.

(** The body that the specification gives for an error response. *)
Definition spec_error_body (kind text : string) : string :=
  "{" +:+ Json.dq +:+ "htsget" +:+ Json.dq +:+ ": {"
    +:+ Json.dq +:+ "error" +:+ Json.dq +:+ ": " +:+ Json.dq +:+ kind +:+ Json.dq
    +:+ ", " +:+ Json.dq +:+ "message" +:+ Json.dq +:+ ": "
    +:+ Json.dq +:+ text +:+ Json.dq +:+ "}}".

(** ** Sample inputs *)

(** A handler class over a store with one BAM file whose index exists;
    [create_ticket_urls] is the one of the base class, which returns
    [None]. *)
Definition sample_class : Api.ApiClass string string unit :=
  Api.mkApiClass "BAM" "BAI"
    (fun _ _ _ w => (Ok ("data.bam", "data.bam.bai")%string, w))
    (fun _ _ => true)
    (fun _ _ w => (Ok tt, w))
    (fun _ w => (Ok tt, w))
    (fun _ _ _ _ w => (Ok Json.JNull, w)).

(** A fresh handler object on a connection that has sent nothing. *)
Definition fresh_state : Server.St (Api.ApiState string string unit) :=
  Server.mkSt [] (Api.mkApiState ∅ false tt []).

(** The same with a ticket already cached for the BAM file. *)
Definition cached_state : Server.St (Api.ApiState string string unit) :=
  Server.mkSt []
    (Api.mkApiState (<["data.bam"%string := "ticket"%string]> ∅) false tt []).

(** ** [utils.py]: [run_interruptible]

    The function acts on the signal handlers of the process, on the
    root logger, and on the object it runs.  A world holds the three: the
    calls made so far, in order, the handler installed for each signal
    that had one set, and the state of the runnable object. *)

Module Interrupt.

(** [signal.SIGQUIT] and [errno.EPIPE], with their Linux values. *)
Definition SIGQUIT : Z := 3.
Definition EPIPE : Z := 32.

(** An exception object: its class, the other classes of the method
    resolution order of its class, and its [errno] attribute (only
    [except IOError as err] reads it).  A class is identified by its
    name; [IOError] is the name [OSError]. *)
Record pyexc : Type := mkPyExc {
  cls : string;
  ancestors : list string;
  errno : option Z
}.

(** [isinstance(err, c)]. *)
Definition isinstance (err : pyexc) (c : string) : bool :=
  bool_decide (c ∈ cls err :: ancestors err).

(** The [KeyError] of a failed dict lookup and the [AttributeError] of a
    failed attribute lookup. *)
Definition key_error : pyexc :=
  mkPyExc "KeyError" ["LookupError"; "Exception"; "BaseException"; "object"]%string None.

Definition attribute_error : pyexc :=
  mkPyExc "AttributeError" ["Exception"; "BaseException"; "object"]%string None.

(** How a call ends: it returns, raises, or never returns. *)
Inductive outcome (A : Type) : Type :=
| Done (a : A)
| Throws (e : pyexc)
| Hangs.
Arguments Done {A} a.
Arguments Throws {A} e.
Arguments Hangs {A}.

Section RunInterruptible.
Context {CB S : Type}.

(** The exception with which [signal.signal] refuses a signal number, if
    it does (an invalid number, [SIGKILL], ...). *)
Variable signal_error : Z -> option pyexc.

(** A callback of [signal_callbacks]: one of the caller's, or the
    [core_dump_on_quit] that the function defines. *)
Inductive callback : Type :=
| user_callback (cb : CB)
| core_dump_on_quit.

Inductive disposition : Type :=
| SIG_DFL
| Installed (c : callback).

Inductive event : Type :=
| ev_signal (sig : Z) (d : disposition)
| ev_run
| ev_stop
| ev_log (level msg : string) (exc_info : bool).

Record world : Type := mkWorld {
  trace : list event;
  signals : gmap Z disposition;
  obj : S
}.

(** [Runnable]: the two methods, acting on the object's state. *)
Record Runnable : Type := mkRunnable {
  run : S -> outcome unit * S;
  stop : S -> outcome unit * S
}.

Definition IM (A : Type) : Type := world -> outcome A * world.

Definition ret {A} (a : A) : IM A := fun w => (Done a, w).

Definition bind {A B} (m : IM A) (k : A -> IM B) : IM B :=
  fun w =>
    match m w with
    | (Done a, w') => k a w'
    | (Throws e, w') => (Throws e, w')
    | (Hangs, w') => (Hangs, w')
    end.

Definition throw {A} (e : pyexc) : IM A := fun w => (Throws e, w).

Notation "'let*' x ':=' m 'in' k" := (bind m (fun x => k))
  (at level 10, x name, m at level 100, k at level 200).
Notation "m ';;' k" := (bind m (fun _ => k))
  (at level 100, k at level 200, right associativity).

(** [try: body except: handler]: every exception is handed to
    [handler], which re-raises what no clause takes. *)
Definition try_except {A} (body : IM A) (handler : pyexc -> IM A) : IM A :=
  fun w =>
    match body w with
    | (Throws e, w') => handler e w'
    | other => other
    end.

(** [try: body finally: final]: [final] runs when [body] returns or
    raises; what [final] raises replaces the outcome of [body]. *)
Definition try_finally {A} (body : IM A) (final : IM unit) : IM A :=
  fun w =>
    match body w with
    | (Hangs, w') => (Hangs, w')
    | (r, w') =>
        match final w' with
        | (Done _, w'') => (r, w'')
        | (Throws e, w'') => (Throws e, w'')
        | (Hangs, w'') => (Hangs, w'')
        end
    end.

(** [signal.signal(sig, d)]. *)
Definition signal_signal (sig : Z) (d : disposition) : IM unit :=
  fun w =>
    match signal_error sig with
    | Some e => (Throws e, w)
    | None =>
        (Done tt,
         mkWorld (trace w ++ [ev_signal sig d]) (<[sig := d]> (signals w)) (obj w))
    end.

(** [log.error(msg)], [log.error(msg, exc_info=True)], [log.info(msg)]. *)
Definition log (level msg : string) (exc_info : bool) : IM unit :=
  fun w => (Done tt, mkWorld (trace w ++ [ev_log level msg exc_info]) (signals w) (obj w)).

(** A call of a method of the runnable object. *)
Definition call (ev : event) (method : S -> outcome unit * S) : IM unit :=
  fun w =>
    let (r, s) := method (obj w) in
    (r, mkWorld (trace w ++ [ev]) (signals w) s).

(** [signal_callbacks] is a dict: its items in insertion order, with
    distinct keys.  Lines 47-55: the default, and the entry added for
    [SIGQUIT] when the dict has none. *)
Definition with_core_dump (signal_callbacks : option (list (Z * callback)))
  : list (Z * callback) :=
  let signal_callbacks := default [] signal_callbacks in
  if bool_decide (SIGQUIT ∈ signal_callbacks.*1) then signal_callbacks
  else signal_callbacks ++ [(SIGQUIT, core_dump_on_quit)].

(** Lines 57-58. *)
Fixpoint install (signal_callbacks : list (Z * callback)) : IM unit :=
  match signal_callbacks with
  | [] => ret tt
  | (sig, callback) :: rest => signal_signal sig (Installed callback) ;; install rest
  end.

(** Lines 86-87. *)
Fixpoint reset (sigs : list Z) : IM unit :=
  match sigs with
  | [] => ret tt
  | sig :: rest => signal_signal sig SIG_DFL ;; reset rest
  end.

(** Line 60: the keys of [error_handlers], or nothing when it is [None]
    or empty. *)
Definition err_types_of (error_handlers : option (gmap string (string * Z)))
  : gset string :=
  match error_handlers with
  | Some handlers => if bool_decide (handlers = ∅) then ∅ else dom handlers
  | None => ∅
  end.

(** Lines 65-82: the [except] clauses, tried in order.  The third one
    takes an exception of which some class of the method resolution order
    is a key, and then looks up the class of the exception itself; it is
    never reached with [error_handlers = None]. *)
Definition except_clauses (error_handlers : option (gmap string (string * Z)))
    (error_on_interrupt : bool) (err : pyexc) : IM Z :=
  if isinstance err "KeyboardInterrupt" then
    if error_on_interrupt then log "error" "Interrupted" false ;; ret 130
    else log "info" "Interrupted" false ;; ret 0
  else if isinstance err "OSError" then
    (if bool_decide (errno err = Some EPIPE) then log "error" "Broken pipe" true
     else log "error" "IO error" true) ;;
    ret 1
  else if existsb (fun c => bool_decide (c ∈ err_types_of error_handlers))
            (cls err :: ancestors err) then
    match default ∅ error_handlers !! cls err with
    | Some (msg, retcode) => log "error" msg true ;; ret retcode
    | None => throw key_error
    end
  else log "error" "Unknown error" true ;; ret 1.

Definition run_interruptible (runnable : Runnable)
    (error_handlers : option (gmap string (string * Z)))
    (signal_callbacks : option (list (Z * callback)))
    (error_on_interrupt : bool) : IM Z :=
  let signal_callbacks := with_core_dump signal_callbacks in
  install signal_callbacks ;;
  let* retcode :=
    try_finally
      (try_except (call ev_run (run runnable) ;; ret 0)
         (except_clauses error_handlers error_on_interrupt))
      (call ev_stop (stop runnable)) in
  reset signal_callbacks.*1 ;;
  ret retcode.

End RunInterruptible.

Arguments callback : clear implicits.
Arguments disposition : clear implicits.
Arguments event : clear implicits.
Arguments world : clear implicits.
Arguments Runnable : clear implicits.
Arguments IM : clear implicits.

(** ** [__init__.py]: [HtsgetServerRunner] and [run]

    The state of the runner is its [server] attribute, [None] until
    [run] has built the server.  [construct] is how the call of
    [HtsgetHttpServer] ends for a router, and [server_close] what closing
    does to a server. *)


Section Runner.
Context {Router Srv : Type}.
Variable construct : Router -> outcome Srv.
Variable server_close : Srv -> Srv.

Definition HtsgetServerRunner (router : Router) : Runnable (option Srv) :=
  mkRunnable
    (fun server =>
       match construct router with
       | Done srv => (Done tt, Some srv)
       | Throws e => (Throws e, server)
       | Hangs => (Hangs, server)
       end)
    (fun server =>
       match server with
       | Some srv => (Done tt, Some (server_close srv))
       | None => (Throws attribute_error, None)
       end).


End Runner.

End Interrupt.

(** A runnable object whose [run] raises a [BrokenPipeError], and one
    whose [run] raises a class derived from a registered one. *)
Definition broken_pipe : Interrupt.pyexc :=
  Interrupt.mkPyExc "BrokenPipeError"
    ["ConnectionError"; "OSError"; "Exception"; "BaseException"; "object"]%string
    (Some Interrupt.EPIPE).

Definition derived_error : Interrupt.pyexc :=
  Interrupt.mkPyExc "DerivedError"
    ["BaseError"; "Exception"; "BaseException"; "object"]%string None.

Definition raising (e : Interrupt.pyexc) : Interrupt.Runnable unit :=
  Interrupt.mkRunnable (fun s => (Interrupt.Throws e, s))
    (fun s => (Interrupt.Done tt, s)).

Definition empty_world {CB : Type} : Interrupt.world CB unit :=
  Interrupt.mkWorld [] ∅ tt.

(** [signal.signal] accepting every signal, and refusing [SIGQUIT]. *)
Definition accept_all : Z -> option Interrupt.pyexc := fun _ => None.

Definition refuse_sigquit : Z -> option Interrupt.pyexc :=
  fun sig =>
    if Z.eqb sig Interrupt.SIGQUIT then
      Some (Interrupt.mkPyExc "ValueError"
              ["Exception"; "BaseException"; "object"]%string None)
    else None.

(** ** Views of the handler state used in the statements *)

(** [untouched st st']: from [st] to [st'] nothing was sent, and the cache
    and the lock are as they were (the store and the log of outside calls
    may differ). *)
Definition untouched {DR IR W : Type} `{Countable DR}
    (st st' : Server.St (Api.ApiState DR IR W)) : Prop :=
  Server.sent st' = Server.sent st
  /\ Api._cache (Server.ext st') = Api._cache (Server.ext st)
  /\ Api._cache_lock (Server.ext st') = Api._cache_lock (Server.ext st).

(** The ticket that [handle] serialises for a format and a list of URLs. *)
Definition ticket_json (data_format : string) (urls : Json.json) : string :=
  Json.dumps
    (Json.JObject [("htsget"%string,
       Json.JObject [("format"%string, Json.JText (PyStr.upper data_format));
                     ("urls"%string, urls)])]).


(** What [handle] has put on the connection when it comes to write the
    ticket: the status line and the headers. *)
Definition ok_head : list http_call :=
  [send_response OK_STATUS;
   send_header "Content-Type" OK_RESPONSE_CONTENT_TYPE;
   end_headers].

(** The same for an error response with status [code]. *)
Definition error_head (code : Z) : list http_call :=
  [send_error code;
   send_header "Content-type" Server.ERROR_RESPONSE_CONTENT_TYPE;
   end_headers].

(** A store with one BAM file and no index yet; [create_index] and
    [add_resource] each count up the store. *)
Definition unindexed_class : Api.ApiClass string string nat :=
  Api.mkApiClass "BAM" "BAI"
    (fun _ _ _ w => (Ok ("data.bam", "data.bam.bai")%string, w))
    (fun _ w => bool_decide (w <> 0%nat))
    (fun _ _ w => (Ok tt, S w))
    (fun _ w => (Ok tt, S w))
    (fun _ _ _ _ w => (Ok Json.JNull, w)).

Definition unindexed_state : Server.St (Api.ApiState string string nat) :=
  Server.mkSt [] (Api.mkApiState ∅ false 0%nat []).

(** A worker between [self._cache_lock.acquire()] and
    [self._cache_lock.release()]. *)
Definition in_critical {DR IR : Type} (pt : Api.point DR IR) : bool :=
  match pt with
  | Api.AtInsert _ _ | Api.AtRelease _ _ => true
  | _ => false
  end.

(** A worker whose call of [handle] has returned. *)
Definition has_returned {DR IR : Type} (pt : Api.point DR IR) : bool :=
  match pt with
  | Api.Returned _ => true
  | _ => false
  end.

(** A worker that has found its key in the cache and is about to read
    [self._cache[data_resource]]. *)
Definition reading {DR IR : Type} (pt : Api.point DR IR) : option DR :=
  match pt with
  | Api.AtRead dr => Some dr
  | _ => None
  end.

(** Two workers about to start on the sample store, the index of which
    does not exist yet. *)
Definition two_workers : Api.pool string string nat :=
  Api.mkPool
    [Api.mkWorker (Api.AtResolve [] ∅) []; Api.mkWorker (Api.AtResolve [] ∅) []]
    (Api.mkApiState ∅ false 0%nat []).

(** Two workers about to start while the ticket of the BAM file is
    cached. *)
Definition two_workers_cached : Api.pool string string unit :=
  Api.mkPool
    [Api.mkWorker (Api.AtResolve [] ∅) []; Api.mkWorker (Api.AtResolve [] ∅) []]
    (Api.mkApiState (<["data.bam"%string := "ticket"%string]> ∅) false tt []).

(** * Properties *)

Section LittleEndian.

Lemma Z_of_byte_range b : 0 <= Z_of_byte b < 256.
Proof.
  unfold Z_of_byte. pose proof (Byte.to_N_bounded b). lia.
Qed.

Lemma Z_of_byte_of_Z z : Z_of_byte (byte_of_Z z) = z mod 256.
Proof.
  unfold Z_of_byte, byte_of_Z.
  assert (Hr : 0 <= z mod 256 < 256) by (apply Z.mod_pos_bound; lia).
  destruct (Byte.of_N (Z.to_N (z mod 256))) as [b|] eqn:E.
  - apply Byte.to_of_N in E. rewrite E. lia.
  - apply Byte.of_N_None_iff in E. lia.
Qed.

Lemma length_le_encode n z : length (le_encode n z) = n.
Proof. revert z. induction n as [|n IH]; intros z; simpl; [done|]. by rewrite IH. Qed.

Lemma le_decode_encode n z :
  0 <= z < 256 ^ Z.of_nat n -> le_decode (le_encode n z) = z.
Proof.
  revert z. induction n as [|n IH]; intros z Hz.
  - simpl in *. lia.
  - cbn [le_encode le_decode]. rewrite Z_of_byte_of_Z.
    rewrite Nat2Z.inj_succ, Z.pow_succ_r in Hz by lia.
    rewrite IH.
    + pose proof (Z.div_mod z 256). lia.
    + split; [apply Z.div_pos; lia|].
      apply Z.div_lt_upper_bound; lia.
Qed.

End LittleEndian.

Section Reader.
Import Bgzf.

Lemma bind_ok {A B} (m : reader A) (k : A -> reader B) s a s' :
  m s = Ok (a, s') -> bind m k s = k a s'.
Proof. unfold bind. by intros ->. Qed.

Lemma bind_raise {A B} (m : reader A) (k : A -> reader B) s e :
  m s = Raise e -> bind m k s = Raise e.
Proof. unfold bind. by intros ->. Qed.

Lemma bind_inv {A B} (m : reader A) (k : A -> reader B) s r :
  bind m k s = Ok r -> exists a s1, m s = Ok (a, s1) /\ k a s1 = Ok r.
Proof.
  unfold bind. destruct (m s) as [[a s1]| |]; [|done..]. intros Hk. by exists a, s1.
Qed.

Lemma read_bytes_app pre s n :
  n = Z.of_nat (length pre) -> read_bytes n (pre ++ s) = Ok (pre, s).
Proof.
  intros ->. unfold read_bytes.
  rewrite length_app, Nat2Z.id, take_app_length, drop_app_length.
  by rewrite !(proj2 (Z.ltb_ge _ _)) by lia.
Qed.

Lemma read_bytes_inv n s bs s' :
  read_bytes n s = Ok (bs, s') ->
  0 <= n /\ s = bs ++ s' /\ Z.of_nat (length bs) = n.
Proof.
  unfold read_bytes. destruct (n <? 0) eqn:E1; [done|].
  destruct (Z.of_nat (length s) <? n) eqn:E2; [done|]. intros [= <- <-].
  apply Z.ltb_ge in E1, E2. rewrite take_drop, length_take. repeat split; lia.
Qed.

Lemma read_bytes_shrinks n s bs s' :
  read_bytes n s = Ok (bs, s') -> (length s' = length s - Z.to_nat n)%nat.
Proof.
  intros (Hn & -> & <-)%read_bytes_inv. rewrite length_app. lia.
Qed.

Lemma read_ubytes_app pre s n :
  n = Z.of_nat (length pre) -> read_ubytes n (pre ++ s) = Ok (Z_of_byte <$> pre, s).
Proof. intros Hn. unfold read_ubytes. by erewrite bind_ok by by apply read_bytes_app. Qed.

Lemma read_string_app decodes pre s n b :
  n = Z.of_nat (length pre) -> 0 < n -> decodes pre = true ->
  read_string decodes n b (pre ++ s) = Ok (pre, s).
Proof.
  intros Hn Hpos Hd. unfold read_string.
  rewrite (proj2 (Z.eqb_neq _ _)) by lia.
  erewrite bind_ok by by apply read_bytes_app. by rewrite Hd.
Qed.

(** A text read that returns has read at least one byte, and text. *)
Lemma read_string_inv decodes n b s bs s' :
  read_string decodes n b s = Ok (bs, s') ->
  0 < n /\ s = bs ++ s' /\ Z.of_nat (length bs) = n /\ decodes bs = true.
Proof.
  unfold read_string. destruct (n =? 0) eqn:E; [done|]. apply Z.eqb_neq in E.
  intros (bs' & s1 & Hr & Hk)%bind_inv.
  destruct (decodes bs') eqn:Hd; [|done]. injection Hk as <- <-.
  apply read_bytes_inv in Hr as (Hn & -> & Hl). repeat split; [lia|done..].
Qed.

Lemma read_byte_app b s : exists v, read_byte (b :: s) = Ok (v, s).
Proof. eexists. unfold read_byte. by erewrite bind_ok by by apply (read_bytes_app [b]). Qed.

Lemma read_ushort_app bs s :
  length bs = 2%nat -> read_ushort (bs ++ s) = Ok (le_decode bs, s).
Proof.
  intros Hl. unfold read_ushort.
  by erewrite bind_ok by (apply read_bytes_app; lia).
Qed.

Lemma read_uint_app bs s :
  length bs = 4%nat -> read_uint (bs ++ s) = Ok (le_decode bs, s).
Proof.
  intros Hl. unfold read_uint.
  by erewrite bind_ok by (apply read_bytes_app; lia).
Qed.

Lemma read_ushort_encode z s :
  0 <= z < 2 ^ 16 -> read_ushort (le_encode 2 z ++ s) = Ok (z, s).
Proof.
  intros Hz. rewrite read_ushort_app by apply length_le_encode.
  by rewrite le_decode_encode by (change (256 ^ Z.of_nat 2) with (2 ^ 16); lia).
Qed.

Lemma read_uint_encode z s :
  0 <= z < 2 ^ 32 -> read_uint (le_encode 4 z ++ s) = Ok (z, s).
Proof.
  intros Hz. rewrite read_uint_app by apply length_le_encode.
  by rewrite le_decode_encode by (change (256 ^ Z.of_nat 4) with (2 ^ 32); lia).
Qed.

Lemma read_int_encode z s :
  0 <= z < 2 ^ 31 -> read_int (le_encode 4 z ++ s) = Ok (z, s).
Proof.
  intros Hz. unfold read_int.
  erewrite bind_ok by (apply read_bytes_app; by rewrite length_le_encode).
  rewrite le_decode_encode by (change (256 ^ Z.of_nat 4) with (2 ^ 32); lia).
  unfold ret, to_signed. change (32 - 1) with 31.
  by rewrite (proj2 (Z.ltb_lt _ _)) by lia.
Qed.

Lemma read_int_any bs s :
  length bs = 4%nat -> exists v, read_int (bs ++ s) = Ok (v, s).
Proof.
  intros Hl. eexists. unfold read_int.
  by erewrite bind_ok by (apply read_bytes_app; lia).
Qed.

End Reader.

Section HeaderSize.
Import Bgzf.
Variable decodes : list byte -> bool.

Lemma read_refs_encode rs acc s :
  Forall (wf_ref decodes) rs ->
  read_refs decodes (length rs) acc (concat (encode_ref <$> rs) ++ s)
  = Ok (acc + refs_size rs, s).
Proof.
  intros Hrs. revert acc. induction Hrs as [|r rs (Hn & Hd & Hl) _ IH]; intros acc.
  - simpl. unfold ret. f_equal. f_equal. lia.
  - cbn [length read_refs fmap list_fmap concat refs_size foldr].
    unfold encode_ref at 1. rewrite <- !app_assoc.
    erewrite bind_ok by (apply read_int_encode; lia).
    erewrite bind_ok by (apply read_string_app; [done|lia|done]).
    erewrite bind_ok by by apply read_int_encode.
    rewrite IH. f_equal. f_equal. unfold refs_size. lia.
Qed.

Lemma uncompressed_header_size_ok (h : BamHeader) (rest : list byte) :
  wf_bam_header decodes h ->
  uncompressed_header_size decodes (encode_bam_header h ++ rest)
  = Ok (12 + Z.of_nat (length (text h)) + refs_size (refs h), rest).
Proof.
  intros (Hm & Ht & Hd & Hn & Hrs).
  unfold uncompressed_header_size, encode_bam_header, bam_magic.
  erewrite bind_ok by by apply (read_string_app decodes [x42; x41; x4d]).
  destruct (read_byte_app x01
    ((le_encode 4 (Z.of_nat (length (text h))) ++ text h
       ++ le_encode 4 (Z.of_nat (length (refs h)))
       ++ concat (encode_ref <$> refs h)) ++ rest)) as [v Hv].
  erewrite bind_ok by exact Hv.
  rewrite <- !app_assoc.
  erewrite bind_ok by (apply read_int_encode; lia).
  erewrite bind_ok by (apply read_string_app; [done|lia|done]).
  erewrite bind_ok by (apply read_int_encode; lia).
  rewrite Nat2Z.id. by apply read_refs_encode.
Qed.

(** C1 (as amended): on every well-formed decompressed header stream
    (the text and every reference name not empty and text for the
    reader's codec) the first pass consumes exactly the header and yields
    [12 + L + sum (8 + ln_i)]: 4 magic bytes, the 4-byte text length, the
    4-byte reference count, [L] text bytes, and per reference a 4-byte name
    length, the name and a 4-byte sequence length. *)
Theorem uncompressed_header_size_encode (h : BamHeader) (rest : list byte) :
  wf_bam_header decodes h ->
  uncompressed_header_size decodes (encode_bam_header h ++ rest)
  = Ok (12 + Z.of_nat (length (text h)) + refs_size (refs h), rest).
Proof. apply uncompressed_header_size_ok. Qed.

End HeaderSize.

Lemma uncompressed_header_size_encode_witness :
  Bgzf.wf_bam_header Bgzf.ascii_codec
    (Bgzf.mkBamHeader [x40; x48; x44] [Bgzf.mkBamRef [x63; x31; x00] 1000]) /\
  Bgzf.uncompressed_header_size Bgzf.ascii_codec
    (Bgzf.encode_bam_header
       (Bgzf.mkBamHeader [x40; x48; x44] [Bgzf.mkBamRef [x63; x31; x00] 1000])
       ++ [x07])
  = Ok (26, [x07]).
Proof.
  assert (Hwf : Bgzf.wf_bam_header Bgzf.ascii_codec
            (Bgzf.mkBamHeader [x40; x48; x44] [Bgzf.mkBamRef [x63; x31; x00] 1000])).
  { unfold Bgzf.wf_bam_header. cbn [Bgzf.text Bgzf.refs length].
    split; [reflexivity|]. split; [lia|]. split; [reflexivity|]. split; [lia|].
    repeat constructor; cbn; lia. }
  split; [exact Hwf|].
  exact (uncompressed_header_size_encode Bgzf.ascii_codec _ [x07] Hwf).
Defined.

(** C1 (as stated) fails: for the header with the text "@HD" and no
    references the code yields 15, not the [4 + 4 + 3 + 0 = 11] of the
    formula. *)
Lemma uncompressed_header_size_not_spec :
  Bgzf.wf_bam_header Bgzf.ascii_codec Bgzf.header_hd /\
  Bgzf.spec_uncompressed_size Bgzf.header_hd = 11 /\
  Bgzf.uncompressed_header_size Bgzf.ascii_codec
    (Bgzf.encode_bam_header Bgzf.header_hd) = Ok (15, []) /\
  Bgzf.uncompressed_header_size Bgzf.ascii_codec
    (Bgzf.encode_bam_header Bgzf.header_hd)
  <> Ok (Bgzf.spec_uncompressed_size Bgzf.header_hd, []).
Proof.
  split.
  { unfold Bgzf.wf_bam_header, Bgzf.header_hd. cbn [Bgzf.text Bgzf.refs length].
    split; [reflexivity|]. split; [lia|]. split; [reflexivity|]. split; [lia|].
    constructor. }
  repeat split. vm_compute. discriminate.
Qed.

Section Termination.
Import Bgzf.
Variable decodes : list byte -> bool.

Lemma wb_ret {A} (a : A) : well_behaved (ret a).
Proof. intros s. simpl. lia. Qed.

Lemma wb_raise {A} c msg : well_behaved (@raise A c msg).
Proof. by intros s. Qed.

Lemma wb_fail {A} e : well_behaved (@fail A e).
Proof. by intros s. Qed.

Lemma wb_bind {A B} (m : reader A) (k : A -> reader B) :
  well_behaved m -> (forall a, well_behaved (k a)) -> well_behaved (bind m k).
Proof.
  intros Hm Hk s. unfold bind. specialize (Hm s).
  destruct (m s) as [[a s']| |]; [|done..].
  specialize (Hk a s'). destruct (k a s') as [[b s'']| |]; [lia|done..].
Qed.

Lemma wb_read_bytes n : well_behaved (read_bytes n).
Proof.
  intros s. unfold read_bytes. destruct (n <? 0); [done|].
  destruct (_ <? n); simpl; [done|]. rewrite length_drop. lia.
Qed.

Lemma wb_if {A} (b : bool) (m1 m2 : reader A) :
  well_behaved m1 -> well_behaved m2 -> well_behaved (if b then m1 else m2).
Proof. by destruct b. Qed.

Ltac wb_step :=
  first
    [ apply wb_ret | apply wb_raise | apply wb_fail | apply wb_read_bytes
    | apply wb_if
    | apply wb_bind; [|intros ?]
    | progress unfold read_ubytes, read_byte, read_ushort, ushort, read_int,
        read_uint, read_string ].

Lemma wb_read_refs n acc : well_behaved (read_refs decodes n acc).
Proof.
  revert acc. induction n as [|n IH]; intros acc; simpl; [apply wb_ret|].
  repeat wb_step. apply IH.
Qed.

Lemma wb_uncompressed_header_size : well_behaved (uncompressed_header_size decodes).
Proof.
  unfold uncompressed_header_size. repeat wb_step. apply wb_read_refs.
Qed.

Lemma wb_read_block : well_behaved read_block.
Proof. unfold read_block. repeat wb_step. Qed.

(** No iteration of the loop comes to its end: the three checks raise
    [ValueError], and past them [reader.ushort()] raises. *)
Lemma read_block_not_ok s r : read_block s <> Ok r.
Proof.
  unfold read_block. intros H.
  apply bind_inv in H as (? & ? & _ & H).
  apply bind_inv in H as (? & ? & _ & H).
  apply bind_inv in H as (? & ? & _ & H).
  apply bind_inv in H as (xlen & ? & _ & H).
  destruct (negb (xlen =? 6)); [done|].
  apply bind_inv in H as (ids & ? & _ & H).
  destruct (negb (bool_decide (ids = [66; 67]))); [done|].
  apply bind_inv in H as (slen & ? & _ & H).
  destruct (negb (slen =? 2)); [done|].
  by apply bind_inv in H as (? & ? & ? & _).
Qed.

Lemma read_block_shrinks s :
  match read_block s with
  | Ok (_, s') => (length s' < length s)%nat
  | Raise _ => True
  | NoReturn => False
  end.
Proof.
  pose proof (wb_read_block s) as Hwb. pose proof (read_block_not_ok s) as Hno.
  destruct (read_block s) as [[b s']| |]; [|done..]. by destruct (Hno (b, s')).
Qed.

Lemma scan_blocks_fuel fuel U hs bs s :
  (length s < fuel)%nat -> scan_blocks fuel U hs bs s <> NoReturn.
Proof.
  revert hs bs s. induction fuel as [|fuel IH]; intros hs bs s Hlt; [lia|].
  simpl. case_match; [|done]. unfold bind.
  pose proof (read_block_shrinks s) as Hs.
  destruct (read_block s) as [[b s']| |]; [|done..].
  apply IH. lia.
Qed.

(** While the loop condition holds the scan returns nothing. *)
Lemma scan_blocks_not_ok fuel U hs bs s r :
  bs < U -> scan_blocks fuel U hs bs s <> Ok r.
Proof.
  intros Hlt. destruct fuel as [|fuel]; cbn [scan_blocks];
    rewrite (proj2 (Z.ltb_lt _ _)) by done; [done|].
  intros (b & s1 & Hb & _)%bind_inv. by apply read_block_not_ok in Hb.
Qed.

(** The fuel given to the block scan is always enough: the model of
    [get_bam_header_size] returns or raises on every input. *)
Lemma get_bam_header_size_total r i : get_bam_header_size decodes r i <> NoReturn.
Proof.
  unfold get_bam_header_size. destruct i as [index|].
  - unfold py_min. by case_match.
  - pose proof (wb_uncompressed_header_size (open r true)) as Hu.
    destruct (uncompressed_header_size _ _) as [[U s']| |]; [|done..].
    pose proof (scan_blocks_fuel (S (length (open r false))) U 0 0 (open r false)) as Hf.
    destruct (scan_blocks _ _ _ _ _) as [[h s'']| |]; [done..|].
    exfalso. apply Hf; [lia|done].
Qed.

Lemma read_refs_lower n acc s U s' :
  read_refs decodes n acc s = Ok (U, s') -> acc <= U.
Proof.
  revert acc s. induction n as [|n IH]; intros acc s; cbn [read_refs].
  - by intros [= <- _].
  - intros (l_name & s1 & _ & H)%bind_inv.
    apply bind_inv in H as (bs & s2 & Hs & H). apply read_string_inv in Hs as (Hpos & _).
    apply bind_inv in H as (? & s3 & _ & H). apply IH in H. lia.
Qed.

(** The first pass, when it returns, has read a text of at least one
    byte: the size it yields is at least 13. *)
Lemma uncompressed_header_size_lower s U s' :
  uncompressed_header_size decodes s = Ok (U, s') -> 13 <= U.
Proof.
  unfold uncompressed_header_size.
  intros (? & s1 & _ & H)%bind_inv.
  apply bind_inv in H as (? & s2 & _ & H).
  apply bind_inv in H as (l_text & s3 & _ & H).
  apply bind_inv in H as (bs & s4 & Hs & H). apply read_string_inv in Hs as (Hpos & _).
  apply bind_inv in H as (n_ref & s5 & _ & H).
  apply read_refs_lower in H. lia.
Qed.

(** Without an index [get_bam_header_size] always raises. *)
Lemma get_bam_header_size_no_index r :
  exists e, get_bam_header_size decodes r None = Raise e.
Proof.
  pose proof (get_bam_header_size_total r None) as Htot.
  unfold get_bam_header_size in *.
  destruct (uncompressed_header_size decodes (open r true)) as [[U s']|e|] eqn:EU;
    [|by exists e|done].
  apply uncompressed_header_size_lower in EU.
  pose proof (scan_blocks_not_ok (S (length (open r false))) U 0 0 (open r false)) as Hno.
  destruct (scan_blocks _ _ _ _ _) as [[h s'']|e|]; [|by exists e|done].
  destruct (Hno (h, s'')); [lia|done].
Qed.

End Termination.

Section IndexPath.
Import Bgzf.
Variable decodes : list byte -> bool.

Lemma foldl_min_le (l : list Z) (x : Z) :
  foldl Z.min x l <= x /\ forall y, y ∈ l -> foldl Z.min x l <= y.
Proof.
  revert x. induction l as [|z l IH]; intros x; simpl.
  - split; [lia|]. intros y Hy. by apply elem_of_nil in Hy.
  - destruct (IH (Z.min x z)) as [H1 H2]. split; [lia|].
    intros y [->|Hy]%elem_of_cons; [lia|by apply H2].
Qed.

Lemma foldl_min_elem (l : list Z) (x : Z) : foldl Z.min x l ∈ x :: l.
Proof.
  revert x. induction l as [|z l IH]; intros x; simpl; [apply list_elem_of_here|].
  specialize (IH (Z.min x z)). apply elem_of_cons in IH as [IH|IH].
  - rewrite IH. destruct (Z.min_spec x z) as [[_ ->]|[_ ->]].
    + apply list_elem_of_here.
    + apply list_elem_of_further, list_elem_of_here.
  - by do 2 apply list_elem_of_further.
Qed.

Lemma elem_of_index_offsets index z :
  z ∈ index_offsets index <->
  exists ri o, ri ∈ ref_indexes index /\ o ∈ intervals ri /\ z = file_offset o.
Proof.
  unfold index_offsets. rewrite list_elem_of_bind. split.
  - intros (ri & Hz & Hri). apply list_elem_of_bind in Hz as (o & Hz & Ho).
    apply list_elem_of_singleton in Hz. by exists ri, o.
  - intros (ri & o & Hri & Ho & ->). exists ri. split; [|done].
    apply list_elem_of_bind. exists o. split; [|done].
    by apply list_elem_of_singleton.
Qed.

(** C3: with an index resource whose parsed index has at least one
    interval, [get_bam_header_size] returns the minimum file offset over
    all intervals of all reference entries: the returned value is the
    offset of some interval and is below every interval's offset.  For
    the index with offsets 500, 200 and 800 it returns 200. *)
Theorem get_bam_header_size_index_min (r : Resource) (index : Index)
    (ri : RefIndex) (o : Offset) :
  ri ∈ ref_indexes index -> o ∈ intervals ri ->
  (exists m, get_bam_header_size decodes r (Some index) = Ok m /\
     (exists ri' o', ri' ∈ ref_indexes index /\ o' ∈ intervals ri' /\
                     m = file_offset o') /\
     (forall ri' o', ri' ∈ ref_indexes index -> o' ∈ intervals ri' ->
                     m <= file_offset o')) /\
  get_bam_header_size decodes r (Some example_index) = Ok 200.
Proof.
  intros Hri Ho. split; [|done].
  assert (Hin : file_offset o ∈ index_offsets index).
  { apply elem_of_index_offsets. by exists ri, o. }
  unfold get_bam_header_size, py_min.
  destruct (index_offsets index) as [|x l] eqn:E; [by apply elem_of_nil in Hin|].
  exists (foldl Z.min x l). split; [done|]. split.
  - apply elem_of_index_offsets. rewrite E. apply foldl_min_elem.
  - intros ri' o' Hri' Ho'.
    assert (Hin' : file_offset o' ∈ x :: l).
    { rewrite <- E. apply elem_of_index_offsets. by exists ri', o'. }
    destruct (foldl_min_le l x) as [H1 H2].
    apply elem_of_cons in Hin' as [->|Hin']; [done|by apply H2].
Qed.

End IndexPath.

Lemma get_bam_header_size_index_min_witness :
  (exists m, Bgzf.get_bam_header_size Bgzf.ascii_codec (Bgzf.mkResource [] [])
               (Some Bgzf.example_index) = Ok m /\
     (exists ri' o', ri' ∈ Bgzf.ref_indexes Bgzf.example_index /\
                     o' ∈ Bgzf.intervals ri' /\ m = Bgzf.file_offset o') /\
     (forall ri' o', ri' ∈ Bgzf.ref_indexes Bgzf.example_index ->
                     o' ∈ Bgzf.intervals ri' -> m <= Bgzf.file_offset o')) /\
  Bgzf.get_bam_header_size Bgzf.ascii_codec (Bgzf.mkResource [] [])
    (Some Bgzf.example_index) = Ok 200.
Proof.
  apply (get_bam_header_size_index_min Bgzf.ascii_codec (Bgzf.mkResource [] [])
           Bgzf.example_index
           (Bgzf.mkRefIndex [Bgzf.mkOffset 500 0; Bgzf.mkOffset 200 0])
           (Bgzf.mkOffset 200 0)).
  - apply list_elem_of_here.
  - apply list_elem_of_further, list_elem_of_here.
Defined.

Section ScanClaims.
Import Bgzf.
Variable decodes : list byte -> bool.

Lemma refs_size_nonneg rs : 0 <= refs_size rs.
Proof. unfold refs_size. induction rs as [|r rs IH]; simpl; lia. Qed.

(** A block header that passes the three checks brings the loop to
    [reader.ushort()]. *)
Lemma read_block_encode b s :
  read_block (encode_block b ++ s) = Raise no_ushort.
Proof.
  unfold read_block, encode_block.
  rewrite <- !app_assoc.
  erewrite bind_ok by by apply (read_ubytes_app [x1f; x8b; x08; x04]).
  erewrite bind_ok by (apply read_uint_app, length_le_encode).
  erewrite bind_ok by by apply (read_ubytes_app [xfl b; os b]).
  erewrite bind_ok by by apply read_ushort_encode.
  cbn [Z.eqb Pos.eqb negb].
  erewrite bind_ok by by apply (read_ubytes_app [x42; x43]).
  change (Z_of_byte <$> [x42; x43]) with [66; 67].
  rewrite bool_decide_eq_true_2 by done. cbn [negb].
  erewrite bind_ok by by apply read_ushort_encode.
  cbn [Z.eqb Pos.eqb negb]. done.
Qed.

(** The scan path of the specification's own example, with no header
    text: the first pass already raises, on the empty text. *)
Lemma get_bam_header_size_isize_8_raises :
  get_bam_header_size ascii_codec file_isize_8 None = Raise zero_length.
Proof. reflexivity. Qed.

(** C2: the scan does not return [K + 1].  For every well-formed header
    and every stored stream that starts with a well-formed block (any
    declared sizes), the loop passes the three checks of the first block
    and then calls [reader.ushort()], a method that the reader does not
    have: [get_bam_header_size] raises [AttributeError] where lines 144
    and 149 show that [read_ushort()] is meant. *)
Theorem get_bam_header_size_single_block (h : BamHeader) (b : BgzfBlock)
    (data rest : list byte) :
  wf_bam_header decodes h ->
  get_bam_header_size decodes
    (mkResource (encode_bam_header h ++ data) (encode_block b ++ rest)) None
  = Raise no_ushort.
Proof.
  intros Hh. unfold get_bam_header_size. cbn [open decompressed raw].
  rewrite uncompressed_header_size_ok by done.
  destruct Hh as (_ & Ht & _).
  pose proof (refs_size_nonneg (refs h)) as Hr.
  cbn [scan_blocks]. rewrite (proj2 (Z.ltb_lt _ _)) by lia.
  by erewrite bind_raise by apply read_block_encode.
Qed.

Lemma read_block_malformed (pre xl ids sl tail : list byte) :
  length pre = 10%nat -> length xl = 2%nat -> length ids = 2%nat -> length sl = 2%nat ->
  le_decode xl <> 6 \/ Z_of_byte <$> ids <> [66; 67] \/ le_decode sl <> 2 ->
  is_raise ValueError (read_block (pre ++ xl ++ ids ++ sl ++ tail)).
Proof.
  intros Hpre Hxl Hids Hsl Hbad. unfold read_block.
  rewrite <- (take_drop 4 pre), <- (take_drop 4 (drop 4 pre)), <- !app_assoc.
  erewrite bind_ok by (apply read_ubytes_app; rewrite length_take; lia).
  erewrite bind_ok by (apply read_uint_app; rewrite length_take, length_drop; lia).
  erewrite bind_ok by (apply read_ubytes_app; rewrite !length_drop; lia).
  erewrite bind_ok by by apply read_ushort_app.
  destruct (le_decode xl =? 6) eqn:Ex; cbn [negb]; [|by eexists].
  erewrite bind_ok by (apply read_ubytes_app; lia).
  destruct (bool_decide (Z_of_byte <$> ids = [66; 67])) eqn:Ei; cbn [negb];
    [|by eexists].
  erewrite bind_ok by by apply read_ushort_app.
  destruct (le_decode sl =? 2) eqn:Es; cbn [negb]; [|by eexists].
  apply Z.eqb_eq in Ex, Es. apply bool_decide_eq_true_1 in Ei.
  by destruct Hbad as [?|[?|?]].
Qed.

Lemma scan_blocks_reaches U hs bs s hs' bs' s' :
  scan_reaches U hs bs s hs' bs' s' ->
  forall fuel, (length s < fuel)%nat ->
  exists fuel', (length s' < fuel')%nat /\
    scan_blocks fuel U hs bs s = scan_blocks fuel' U hs' bs' s'.
Proof.
  induction 1 as [hs bs s|hs bs s b_size i_size s1 hs' bs' s' Hlt Hrd _ IH];
    intros fuel Hfuel.
  - by exists fuel.
  - destruct fuel as [|fuel]; [lia|].
    pose proof (read_block_shrinks s) as Hs. rewrite Hrd in Hs.
    destruct (IH fuel) as (fuel' & Hf' & Heq); [lia|].
    exists fuel'. split; [done|]. cbn [scan_blocks].
    rewrite (proj2 (Z.ltb_lt _ _)) by done.
    by erewrite bind_ok by exact Hrd.
Qed.

(** C4: when the index-free scan comes to a block header (at the start of
    the stored stream or after any blocks it has passed over) whose XLEN
    is not 6, or whose subfield identifiers are not (66, 67), or whose
    subfield length is not 2, [get_bam_header_size] raises [ValueError]
    and returns no offset. *)
Theorem get_bam_header_size_malformed_block (r : Resource) (U : Z)
    (after : list byte) (hs bs : Z) (pre xl ids sl tail : list byte) :
  uncompressed_header_size decodes (decompressed r) = Ok (U, after) ->
  scan_reaches U 0 0 (raw r) hs bs (pre ++ xl ++ ids ++ sl ++ tail) ->
  bs < U ->
  length pre = 10%nat -> length xl = 2%nat -> length ids = 2%nat -> length sl = 2%nat ->
  le_decode xl <> 6 \/ Z_of_byte <$> ids <> [66; 67] \/ le_decode sl <> 2 ->
  is_raise ValueError (get_bam_header_size decodes r None) /\
  forall offset, get_bam_header_size decodes r None <> Ok offset.
Proof.
  intros HU Hreach Hlt Hpre Hxl Hids Hsl Hbad.
  assert (Hr : is_raise ValueError (get_bam_header_size decodes r None)).
  { unfold get_bam_header_size. cbn [open]. rewrite HU.
    destruct (scan_blocks_reaches _ _ _ _ _ _ _ Hreach (S (length (raw r))))
      as (fuel' & Hf' & ->); [lia|].
    destruct fuel' as [|fuel']; [lia|].
    cbn [scan_blocks]. rewrite (proj2 (Z.ltb_lt _ _)) by lia.
    destruct (read_block_malformed pre xl ids sl tail) as [a Ha]; [done..|].
    erewrite bind_raise by exact Ha. by exists a. }
  split; [done|]. intros offset. destruct Hr as [a ->]. discriminate.
Qed.

End ScanClaims.

Lemma get_bam_header_size_single_block_witness :
  Bgzf.get_bam_header_size Bgzf.ascii_codec
    (Bgzf.mkResource (Bgzf.encode_bam_header Bgzf.header_hd ++ [x2a])
       (Bgzf.encode_block Bgzf.block_isize_15 ++ [x1f; x8b]))
    None
  = Raise Bgzf.no_ushort.
Proof.
  apply (get_bam_header_size_single_block Bgzf.ascii_codec Bgzf.header_hd
           Bgzf.block_isize_15 [x2a] [x1f; x8b]).
  unfold Bgzf.wf_bam_header, Bgzf.header_hd. cbn [Bgzf.text Bgzf.refs length].
  split; [reflexivity|]. split; [lia|]. split; [reflexivity|]. split; [lia|].
  constructor.
Defined.

Lemma get_bam_header_size_malformed_block_witness :
  is_raise ValueError
    (Bgzf.get_bam_header_size Bgzf.ascii_codec Bgzf.file_bad_first_block None) /\
  forall offset,
    Bgzf.get_bam_header_size Bgzf.ascii_codec Bgzf.file_bad_first_block None
    <> Ok offset.
Proof.
  apply (get_bam_header_size_malformed_block Bgzf.ascii_codec
           Bgzf.file_bad_first_block 15 [] 0 0
           [x1f; x8b; x08; x04; x00; x00; x00; x00; x00; xff]
           [x06; x00] [x42; x41] [x02; x00] [x19; x00]).
  - reflexivity.
  - apply Bgzf.reaches_here.
  - lia.
  - reflexivity.
  - reflexivity.
  - reflexivity.
  - reflexivity.
  - right. left. by vm_compute.
Defined.

Section RouterFacts.
Import Routing.
Context {H : Type}.
Implicit Types (d : gmap string (node H)) (r : Router H) (h : H).

Lemma walk_add_route d d' (P extra full : list string) h :
  add_route_from d P h = Ok d' -> walk d' (P ++ extra) full = Ok (h, extra).
Proof.
  revert d d'. induction P as [|part rest IH]; intros d d' Hadd; [done|].
  cbn [add_route_from] in Hadd. destruct rest as [|part' rest].
  - injection Hadd as <-. cbn [app walk]. by rewrite lookup_insert_eq.
  - destruct (d !! part) as [[h0|sub0]|] eqn:E; [done|..].
    + destruct (add_route_from sub0 (part' :: rest) h) as [sub| |] eqn:Es; [|done..].
      injection Hadd as <-. rewrite <- app_comm_cons. cbn [walk].
      rewrite lookup_insert_eq. by apply (IH sub0).
    + destruct (add_route_from ∅ (part' :: rest) h) as [sub| |] eqn:Es; [|done..].
      injection Hadd as <-. rewrite <- app_comm_cons. cbn [walk].
      rewrite lookup_insert_eq. by apply (IH ∅).
Qed.

Lemma walk_absent d0 d (p1 p2 full : list string) (part : string) :
  descend d0 p1 = Some d -> d !! part = None ->
  walk d0 (p1 ++ part :: p2) full = Raise (Http (NotFoundHttpError (PathSeq full))).
Proof.
  revert d0. induction p1 as [|s p1 IH]; intros d0 Hd Hpart.
  - injection Hd as ->. cbn [app walk]. by rewrite Hpart.
  - cbn [descend] in Hd. rewrite <- app_comm_cons. cbn [walk].
    destruct (d0 !! s) as [[h0|sub]|]; [done| |done]. by apply IH.
Qed.

Lemma walk_inner d0 d (p full : list string) :
  descend d0 p = Some d ->
  walk d0 p full = Raise (Http (NotFoundHttpError (PathSeq full))).
Proof.
  revert d0. induction p as [|s p IH]; intros d0 Hd; [done|].
  cbn [descend] in Hd. cbn [walk].
  destruct (d0 !! s) as [[h0|sub]|]; [done| |done]. by apply IH.
Qed.

(** A later registration of a path [Q] that is not a prefix of [P] leaves
    the resolution of [P] as it was. *)
Lemma walk_add_route_other d d' (Q P full : list string) h h' :
  add_route_from d Q h' = Ok d' -> ¬ Q `prefix_of` P ->
  walk d P full = Ok (h, []) -> walk d' P full = Ok (h, []).
Proof.
  revert d d' P. induction Q as [|q Q IH]; intros d d' P Hadd Hpre Hw; [done|].
  destruct P as [|p P]; [done|]. cbn [add_route_from] in Hadd. cbn [walk] in *.
  destruct (decide (q = p)) as [->|Hne].
  - destruct Q as [|q' Q].
    { destruct Hpre. by exists P. }
    destruct (d !! p) as [[h0|sub0]|] eqn:E; [done| |done].
    destruct (add_route_from sub0 (q' :: Q) h') as [sub| |] eqn:Es; [|done..].
    injection Hadd as <-. rewrite lookup_insert_eq.
    apply (IH sub0); [done| |done].
    intros Hp. apply Hpre. by apply prefix_cons.
  - assert (Hd : d' !! p = d !! p); [|by rewrite Hd].
    destruct Q as [|q' Q].
    { injection Hadd as <-. by rewrite lookup_insert_ne. }
    destruct (d !! q) as [[h0|sub0]|] eqn:E; [done|..].
    + destruct (add_route_from sub0 (q' :: Q) h') as [sub| |]; [|done..].
      injection Hadd as <-. by rewrite lookup_insert_ne.
    + destruct (add_route_from ∅ (q' :: Q) h') as [sub| |]; [|done..].
      injection Hadd as <-. by rewrite lookup_insert_ne.
Qed.

Lemma get_route_handler_add_route_other r r' (Q P : list string) h h' :
  add_route r Q h' = Ok r' -> ¬ Q `prefix_of` P ->
  get_route_handler r P = Ok (h, []) -> get_route_handler r' P = Ok (h, []).
Proof.
  unfold add_route, get_route_handler. intros Hadd Hpre Hw.
  destruct (add_route_from (routes r) Q h') as [d'| |] eqn:E; [|done..].
  injection Hadd as <-. by apply (walk_add_route_other (routes r) _ Q P P h h').
Qed.

(** C5: after [add_route] has registered path [P] with handler [h],
    [get_route_handler] resolves [P] to [(h, [])] and [P ++ extra] to
    [(h, extra)]; and in any router, a path whose walk reaches an inner
    node that lacks the next segment, or that ends on an inner node,
    fails with [NotFound]. *)
Theorem router_resolution r r' (P : list string) h :
  add_route r P h = Ok r' ->
  get_route_handler r' P = Ok (h, []) /\
  (forall extra, get_route_handler r' (P ++ extra) = Ok (h, extra)) /\
  (forall (q : Router H) p1 part p2 d,
      descend (routes q) p1 = Some d -> d !! part = None ->
      get_route_handler q (p1 ++ part :: p2)
      = Raise (Http (NotFoundHttpError (PathSeq (p1 ++ part :: p2))))) /\
  (forall (q : Router H) p d,
      descend (routes q) p = Some d ->
      get_route_handler q p = Raise (Http (NotFoundHttpError (PathSeq p)))).
Proof.
  intros Hadd. unfold add_route in Hadd.
  destruct (add_route_from (routes r) P h) as [d'| |] eqn:E; [|done..].
  injection Hadd as <-. unfold get_route_handler. cbn [routes].
  split; [|split; [|split]].
  - rewrite <- (app_nil_r P) at 1. by apply (walk_add_route (routes r)).
  - intros extra. by apply (walk_add_route (routes r)).
  - intros q p1 part p2 d. apply walk_absent.
  - intros q p d. apply walk_inner.
Qed.

End RouterFacts.

Lemma router_resolution_witness :
  Routing.get_route_handler
    (Routing.mkRouter (<["reads"%string := Routing.Leaf ReadsApiRouteHandler]> ∅)) ["reads"%string]
  = Ok (ReadsApiRouteHandler, []) /\
  (forall extra,
      Routing.get_route_handler
        (Routing.mkRouter (<["reads"%string := Routing.Leaf ReadsApiRouteHandler]> ∅))
        (["reads"%string] ++ extra)
      = Ok (ReadsApiRouteHandler, extra)) /\
  (forall (q : Routing.Router handler_class) p1 part p2 d,
      Routing.descend (Routing.routes q) p1 = Some d -> d !! part = None ->
      Routing.get_route_handler q (p1 ++ part :: p2)
      = Raise (Http (NotFoundHttpError (PathSeq (p1 ++ part :: p2))))) /\
  (forall (q : Routing.Router handler_class) p d,
      Routing.descend (Routing.routes q) p = Some d ->
      Routing.get_route_handler q p = Raise (Http (NotFoundHttpError (PathSeq p)))).
Proof.
  apply (router_resolution Routing.new_router _ ["reads"%string] ReadsApiRouteHandler).
  reflexivity.
Defined.

Section Negotiation.
Import Server.

Lemma get_header_absent (name : string) (hs : Headers) :
  Forall (fun kv => PyStr.lower (fst kv) <> PyStr.lower name) hs ->
  get_header name hs = None.
Proof.
  induction 1 as [|[k v] hs Hk _ IH]; [done|]. cbn [get_header].
  destruct (String.eqb_spec (PyStr.lower k) (PyStr.lower name)) as [E|_]; [|done].
  by destruct Hk.
Qed.

(** C10: a request with no [Accept] header (no header whose name is
    "accept" in any casing) passes [check_headers], and [do_GET] is then
    exactly [route_request] followed by the error mapping. *)
Theorem do_GET_without_accept {H X : Type}
    (call : H -> list string -> ParseResult -> M X unit)
    (router : Routing.Router H) (urlparse : string -> ParseResult)
    (req : Request) (st : St X) :
  Forall (fun kv => PyStr.lower (fst kv) <> "accept"%string) (headers req) ->
  check_headers (headers req) = Ok tt /\
  do_GET call router urlparse req st
  = except_clauses (route_request call router urlparse req st).
Proof.
  intros Hno.
  assert (Hc : check_headers (headers req) = Ok tt).
  { unfold check_headers. by rewrite (get_header_absent "Accept"). }
  split; [done|]. unfold do_GET. by rewrite Hc.
Qed.

Lemma do_GET_without_accept_witness :
  check_headers [("Host", "localhost")%string] = Ok tt /\
  do_GET (X:=unit) (call_handler (fun _ => Ok ∅))
    (Routing.mkRouter (<["reads"%string := Routing.Leaf ReadsApiRouteHandler]> ∅))
    (fun p => mkParseResult "" "" p "" "" "")
    (mkRequest "/reads" [("Host", "localhost")%string]) (mkSt [] tt)
  = except_clauses
      (route_request (call_handler (fun _ => Ok ∅))
         (Routing.mkRouter (<["reads"%string := Routing.Leaf ReadsApiRouteHandler]> ∅))
         (fun p => mkParseResult "" "" p "" "" "")
         (mkRequest "/reads" [("Host", "localhost")%string]) (mkSt [] tt)).
Proof.
  apply (do_GET_without_accept (call_handler (fun _ => Ok ∅))
           (Routing.mkRouter (<["reads"%string := Routing.Leaf ReadsApiRouteHandler]> ∅))
           (fun p => mkParseResult "" "" p "" "" "")
           (mkRequest "/reads" [("Host", "localhost")%string]) (mkSt [] tt)).
  repeat constructor. simpl. discriminate.
Defined.

(** C6 fails on the code: with the server at version (1, 1, 0), the
    header [Accept: application/vnd.ga4gh.htsget.v1.1.0+json] is rejected
    with 415.  The version is cut out of [accept] with the offsets of
    [accept_app], so the text handed to [int] starts at "4gh". *)
Theorem check_headers_rejects_v1_1_0 :
  HTSGET_VERSION = [1; 1; 0] /\
  PyStr.split "."%char
    (PyStr.slice "application/vnd.ga4gh.htsget.v1.1.0+json" (Some 18) (Some (-5)))
  = ["4gh"; "htsget"; "v1"; "1"; "0"]%string /\
  check_headers [("Accept", "application/vnd.ga4gh.htsget.v1.1.0+json")%string]
  = Raise (Http (UnsupportedMediaTypeHttpError
                   "application/vnd.ga4gh.htsget.v1.1.0+json")) /\
  status (UnsupportedMediaTypeHttpError "application/vnd.ga4gh.htsget.v1.1.0+json")
  = 415.
Proof. repeat split; by vm_compute. Qed.

End Negotiation.

Section ErrorResponses.
Import Server.

(** For [NotFoundHttpError] the status line and the headers go out, and
    the write of the body raises. *)
Lemma handle_error_not_found {X} (path : path_arg) (st : St X) :
  handle_error (NotFoundHttpError path) st
  = (Raise str_to_wfile,
     mkSt (sent st ++ [send_error 404;
                       send_header "Content-type" "application/json";
                       end_headers])
          (ext st)).
Proof.
  unfold handle_error, write_str, mraise, mbind, emit, lift. cbn.
  by rewrite <- !app_assoc.
Qed.

Lemma handle_error_unsupported_media_type {X} (media_type : string) (st : St X) :
  handle_error (UnsupportedMediaTypeHttpError media_type) st
  = (Raise (Exc AttributeError ["'NoneType' object has no attribute 'args'"%string]),
     mkSt (sent st ++ [send_error 415;
                       send_header "Content-type" "application/json";
                       end_headers])
          (ext st)).
Proof.
  unfold handle_error, mbind, emit, lift. cbn. by rewrite <- !app_assoc.
Qed.

(** C8 fails on the code for the 415 errors: [UnsupportedMediaTypeHttpError]
    stores its descriptive text as [error_type] and leaves [args] empty,
    so the kind is not "UnsupportedMediaType", and reading [message]
    raises [AttributeError] before any body is written.  Shown for the
    request [GET /reads] with [Accept: text/plain]. *)
Theorem do_GET_text_plain_no_error_body {H X : Type}
    (call : H -> list string -> ParseResult -> M X unit)
    (router : Routing.Router H) (urlparse : string -> ParseResult) (x : X) :
  check_headers [("Accept", "text/plain")%string]
  = Raise (Http (UnsupportedMediaTypeHttpError "text/plain")) /\
  error_type (UnsupportedMediaTypeHttpError "text/plain")
  = "The requested media type is unsupported: text/plain"%string /\
  error_type (UnsupportedMediaTypeHttpError "text/plain")
  <> "UnsupportedMediaType"%string /\
  args (UnsupportedMediaTypeHttpError "text/plain") = [] /\
  do_GET call router urlparse
    (mkRequest "/reads" [("Accept", "text/plain")%string]) (mkSt [] x)
  = (Raise (Exc AttributeError ["'NoneType' object has no attribute 'args'"%string]),
     mkSt [send_error 415; send_header "Content-type" "application/json";
           end_headers] x).
Proof.
  split; [by vm_compute|]. split; [by vm_compute|]. split; [by vm_compute|].
  split; [done|].
  unfold do_GET. cbn [headers].
  replace (check_headers [("Accept", "text/plain")%string])
    with (@Raise unit (Http (UnsupportedMediaTypeHttpError "text/plain")))
    by by vm_compute.
  unfold mbind, lift, except_clauses.
  by rewrite handle_error_unsupported_media_type.
Qed.

End ErrorResponses.

Section TicketCache.
Import Server Api.
Context {DR IR W : Type} `{Countable DR}.
Implicit Types (st : St (ApiState DR IR W)) (self : ApiClass DR IR W).

(** The pointwise rule for sequencing: a property of the final state
    holds for [mbind m k] when it holds after [m] and is carried by [k]. *)
Lemma mbind_keeps {X A B} (I : St X -> Prop) (m : M X A) (k : A -> M X B) s :
  I (snd (m s)) ->
  (forall a s', m s = (Ok a, s') -> I (snd (k a s'))) ->
  I (snd (mbind m k s)).
Proof.
  unfold mbind. intros Hm Hk. destruct (m s) as [[a| |] s'] eqn:E; [|done..].
  by apply Hk.
Qed.

Lemma outside_cache {A} (c : store_call DR IR) (f : W -> result A * W) st :
  _cache (ext (snd (outside c f st))) = _cache (ext st).
Proof. unfold outside. by destruct (f _). Qed.

Lemma outside_cache_ok {A} (c : store_call DR IR) (f : W -> result A * W) st a st' :
  outside c f st = (Ok a, st') -> _cache (ext st') = _cache (ext st).
Proof. intros E. by rewrite <- (outside_cache c f st), E. Qed.

Lemma make_ticket_keeps self fmt query dr ir st (key : DR) (ticket : string) :
  _cache (ext st) !! key = Some ticket ->
  _cache (ext (snd (make_ticket self fmt query dr ir st))) !! key = Some ticket.
Proof.
  intros Hk. unfold make_ticket.
  apply (mbind_keeps (fun s => _cache (ext s) !! key = Some ticket));
    [by rewrite outside_cache|].
  intros found s1 E1. apply outside_cache_ok in E1. rewrite <- E1 in Hk.
  clear E1 st. revert Hk. generalize s1. clear s1. intros st Hk.
  apply (mbind_keeps (fun s => _cache (ext s) !! key = Some ticket)).
  { destruct found; cbn [negb]; [done|].
    apply (mbind_keeps (fun s => _cache (ext s) !! key = Some ticket));
      [by rewrite outside_cache|].
    intros [] s2 E2. apply outside_cache_ok in E2.
    by rewrite outside_cache, E2. }
  intros [] s2 E2.
  assert (Hk2 : _cache (ext s2) !! key = Some ticket).
  { destruct found; cbn [negb] in E2.
    - by injection E2 as <-.
    - unfold mbind in E2.
      destruct (outside _ _ st) as [[[]| |] s3] eqn:E3; [|done..].
      apply outside_cache_ok in E3, E2. by rewrite E2, E3. }
  clear E2 Hk st.
  apply (mbind_keeps (fun s => _cache (ext s) !! key = Some ticket));
    [by rewrite outside_cache|].
  intros urls s3 E3. apply outside_cache_ok in E3. rewrite <- E3 in Hk2. clear E3 s2.
  apply (mbind_keeps (fun s => _cache (ext s) !! key = Some ticket)); [done|].
  intros up s4 E4. unfold lift in E4. injection E4 as _ <-.
  apply (mbind_keeps (fun s => _cache (ext s) !! key = Some ticket)).
  { unfold acquire. by destruct (_cache_lock _). }
  intros [] s5 E5.
  assert (Hk5 : _cache (ext s5) !! key = Some ticket).
  { unfold acquire in E5. destruct (_cache_lock _); [done|]. by injection E5 as <-. }
  clear E5 Hk2 s3.
  unfold mbind at 1, get_cache at 1.
  apply (mbind_keeps (fun s => _cache (ext s) !! key = Some ticket)).
  { destruct (_cache (ext s5) !! dr) eqn:Edr; [done|].
    cbn. rewrite lookup_insert_ne; [done|]. intros ->. congruence. }
  intros [] s6 E6.
  assert (Hk6 : _cache (ext s6) !! key = Some ticket).
  { destruct (_cache (ext s5) !! dr) eqn:Edr.
    - by injection E6 as <-.
    - injection E6 as <-. cbn. rewrite lookup_insert_ne; [done|].
      intros ->. congruence. }
  done.
Qed.

Lemma handle_keeps self record_id query st (key : DR) (ticket : string) :
  _cache (ext st) !! key = Some ticket ->
  _cache (ext (snd (handle self record_id query st))) !! key = Some ticket.
Proof.
  intros Hk. unfold handle.
  apply (mbind_keeps (fun s => _cache (ext s) !! key = Some ticket));
    [by rewrite outside_cache|].
  intros [dr ir] s1 E1. apply outside_cache_ok in E1. rewrite <- E1 in Hk.
  unfold mbind at 1, get_cache at 1. cbn [fst snd].
  apply (mbind_keeps (fun s => _cache (ext s) !! key = Some ticket)).
  { destruct (_cache (ext s1) !! dr); [done|]. by apply make_ticket_keeps. }
  intros t s2 E2.
  assert (Hk2 : _cache (ext s2) !! key = Some ticket).
  { destruct (_cache (ext s1) !! dr).
    - by injection E2 as _ <-.
    - pose proof (make_ticket_keeps self
        (default (VStr (default_format self)) (query !! "format"%string))
        query dr ir s1 key ticket Hk) as Hm.
      by rewrite E2 in Hm. }
  done.
Qed.

Lemma handle_all_keeps self reqs st (key : DR) (ticket : string) :
  _cache (ext st) !! key = Some ticket ->
  _cache (ext (handle_all self reqs st)) !! key = Some ticket.
Proof.
  revert st. induction reqs as [|[record_id query] reqs IH]; intros st Hk; [done|].
  cbn [handle_all]. by apply IH, handle_keeps.
Qed.

Lemma handle_hit self record_id query st (key : DR) (ticket : string)
    (index_resource : IR) (w' : W) :
  _cache (ext st) !! key = Some ticket ->
  resolve self record_id
    (default (VStr (default_format self)) (query !! "format"%string))
    (index_format self) (store (ext st))
  = (Ok (key, index_resource), w') ->
  handle self record_id query st
  = (Raise str_to_wfile,
     mkSt (sent st ++ [send_response 200;
                       send_header "Content-Type" OK_RESPONSE_CONTENT_TYPE;
                       end_headers])
          (mkApiState (_cache (ext st)) (_cache_lock (ext st)) w'
             (calls (ext st)
                ++ [call_resolve record_id
                      (default (VStr (default_format self)) (query !! "format"%string))
                      (index_format self)]))).
Proof.
  intros Hk Hres. unfold handle, mbind, outside, get_cache. rewrite Hres.
  cbn. rewrite Hk. unfold mret, emit, write_str, mraise. cbn.
  by rewrite <- !app_assoc.
Qed.

(** C7 holds for the cache and fails on the code for the payload.  Once
    a ticket is stored in the cache under a key, no sequence of later
    [handle] calls changes the value under that key, and every later call
    that resolves to that key leaves the cache as it is and makes no
    outside call other than [resolve]: no existence check, no index
    creation.  But the call does not return the stored payload: after the
    status line and the headers, [wfile.write] is handed the stored [str]
    and raises [TypeError]. *)
Theorem ticket_cache_write_once self st (key : DR) (ticket : string)
    (reqs : list (list string * gmap string pyval))
    (record_id : list string) (query : gmap string pyval)
    (index_resource : IR) (w' : W) :
  _cache (ext st) !! key = Some ticket ->
  resolve self record_id
    (default (VStr (default_format self)) (query !! "format"%string))
    (index_format self) (store (ext (handle_all self reqs st)))
  = (Ok (key, index_resource), w') ->
  _cache (ext (handle_all self reqs st)) !! key = Some ticket /\
  handle self record_id query (handle_all self reqs st)
  = (Raise str_to_wfile,
     mkSt (sent (handle_all self reqs st)
             ++ [send_response 200;
                 send_header "Content-Type" OK_RESPONSE_CONTENT_TYPE;
                 end_headers])
          (mkApiState (_cache (ext (handle_all self reqs st)))
             (_cache_lock (ext (handle_all self reqs st))) w'
             (calls (ext (handle_all self reqs st))
                ++ [call_resolve record_id
                      (default (VStr (default_format self)) (query !! "format"%string))
                      (index_format self)]))).
Proof.
  intros Hk Hres.
  pose proof (handle_all_keeps self reqs st key ticket Hk) as Hk'.
  split; [done|]. by apply (handle_hit _ _ _ _ key ticket index_resource).
Qed.

End TicketCache.

Lemma ticket_cache_write_once_witness :
  Api._cache (Server.ext
     (Api.handle_all sample_class [([], ∅); (["x"%string], ∅)] cached_state))
    !! "data.bam"%string = Some "ticket"%string /\
  Api.handle sample_class [] ∅
    (Api.handle_all sample_class [([], ∅); (["x"%string], ∅)] cached_state)
  = (Raise Server.str_to_wfile,
     Server.mkSt
       (Server.sent
          (Api.handle_all sample_class [([], ∅); (["x"%string], ∅)] cached_state)
          ++ [send_response 200;
              send_header "Content-Type" OK_RESPONSE_CONTENT_TYPE;
              end_headers])
       (Api.mkApiState
          (Api._cache (Server.ext
             (Api.handle_all sample_class [([], ∅); (["x"%string], ∅)] cached_state)))
          (Api._cache_lock (Server.ext
             (Api.handle_all sample_class [([], ∅); (["x"%string], ∅)] cached_state)))
          tt
          (Api.calls (Server.ext
             (Api.handle_all sample_class [([], ∅); (["x"%string], ∅)] cached_state))
             ++ [Api.call_resolve []
                   (default (VStr (Api.default_format sample_class))
                      ((∅ : gmap string pyval) !! "format"%string))
                   (Api.index_format sample_class)]))).
Proof.
  apply (ticket_cache_write_once sample_class cached_state "data.bam"%string
           "ticket"%string [([], ∅); (["x"%string], ∅)] [] ∅ "data.bam.bai"%string tt).
  - reflexivity.
  - reflexivity.
Defined.

Section SuccessResponses.
Import Server Api.

(** C9 fails on the code: the constant is an ordinary string literal, not
    a formatted one, so the header of a 200 ticket response carries the
    text of the placeholder instead of the version numerals.  Shown for a
    first request on a fresh handler and for a cached one. *)
Theorem handle_sends_unformatted_content_type :
  sent (snd (handle sample_class [] ∅ fresh_state)) !! 0%nat
  = Some (send_response 200) /\
  sent (snd (handle sample_class [] ∅ fresh_state)) !! 1%nat
  = Some (send_header "Content-Type"
            "application/vnd.ga4gh.htsget.v{'.'.join(HTSGET_VERSION)}+json; charset=utf-8") /\
  sent (snd (handle sample_class [] ∅ cached_state)) !! 1%nat
  = Some (send_header "Content-Type"
            "application/vnd.ga4gh.htsget.v{'.'.join(HTSGET_VERSION)}+json; charset=utf-8") /\
  OK_RESPONSE_CONTENT_TYPE <> spec_ok_content_type.
Proof. repeat split; by vm_compute. Qed.

End SuccessResponses.

Section VersionedAccept.

Ltac ascii_cases c :=
  destruct c as [[] [] [] [] [] [] [] []]; vm_compute; intros Hc;
  first [discriminate Hc | by left | by right | done].

Lemma lower_char_4 c : PyStr.lower_char c = "4"%char -> c = "4"%char.
Proof. ascii_cases c. Qed.

Lemma lower_char_dot c : PyStr.lower_char c = "."%char -> c = "."%char.
Proof. ascii_cases c. Qed.

Lemma lower_char_g c : PyStr.lower_char c = "g"%char -> c = "g"%char \/ c = "G"%char.
Proof. ascii_cases c. Qed.

Lemma lower_char_h c : PyStr.lower_char c = "h"%char -> c = "h"%char \/ c = "H"%char.
Proof. ascii_cases c. Qed.

Lemma substring_all s : String.substring 0 (String.length s) s = s.
Proof. induction s as [|c s IH]; simpl; [done|]. by rewrite IH. Qed.

Lemma prefix_cons_inv c p d s :
  String.prefix (String c p) (String d s) = true -> c = d /\ String.prefix p s = true.
Proof. simpl. by destruct (Ascii.ascii_dec c d). Qed.

Lemma prefix_lower_cons_inv c p s :
  String.prefix (String c p) (PyStr.lower s) = true ->
  exists d s', s = String d s' /\ PyStr.lower_char d = c
               /\ String.prefix p (PyStr.lower s') = true.
Proof.
  destruct s as [|d s']; [done|]. cbn [PyStr.lower PyStr.map_chars].
  intros [-> Hp]%prefix_cons_inv. by exists d, s'.
Qed.

Lemma mapM_head_None {A B} (f : A -> option B) x l :
  f x = None -> mapM f (x :: l) = None.
Proof. intros Hx. cbn. by rewrite Hx. Qed.

Lemma parse_version_4gh (d7 d8 : Ascii.ascii) (rest : string) :
  d7 = "g"%char \/ d7 = "G"%char -> d8 = "h"%char \/ d8 = "H"%char ->
  parse_version
    (PyStr.split "."%char (String "4" (String d7 (String d8 (String "." rest)))))
  = None.
Proof.
  intros [-> | ->] [-> | ->]; cbn [PyStr.split Ascii.eqb Bool.eqb];
    destruct (PyStr.split "." rest); by apply mapM_head_None.
Qed.

(** Every [Accept] value of the versioned form is rejected, whatever
    version it names: the text handed to [int] always starts at "4gh". *)
Lemma check_headers_rejects_versioned (accept : string) :
  PyStr.startswith accept "application/" = true ->
  PyStr.startswith (PyStr.lower (PyStr.slice accept (Some 12) None))
    "vnd.ga4gh.htsget.v" = true ->
  PyStr.endswith (PyStr.lower (PyStr.slice accept (Some 12) None)) "+json" = true ->
  check_headers [("Accept"%string, accept)]
  = Raise (Http (UnsupportedMediaTypeHttpError accept)).
Proof.
  intros H1 H2 H3. unfold check_headers.
  change (get_header "Accept" [("Accept"%string, accept)]) with (Some accept).
  cbv beta iota zeta. rewrite H1. cbn [negb].
  destruct (String.eqb_spec (PyStr.lower (PyStr.slice accept (Some 12) None)) "json")
    as [E|_]; [by rewrite E in H2|].
  rewrite H2, H3. cbn [andb].
  assert (Hparse : parse_version
            (PyStr.split "."%char (PyStr.slice accept (Some 18) (Some (-5)))) = None);
    [|by rewrite Hparse].
  clear -H1 H2 H3. unfold PyStr.startswith in H1.
  do 12 (destruct accept as [|? accept]; [done|];
         apply prefix_cons_inv in H1 as [<- H1]).
  clear H1.
  assert (Hs : PyStr.slice
            (String "a" (String "p" (String "p" (String "l" (String "i"
              (String "c" (String "a" (String "t" (String "i" (String "o"
                (String "n" (String "/" accept))))))))))))
            (Some 12) None = accept).
  { unfold PyStr.slice, PyStr.py_len, PyStr.norm_index. cbn [String.length].
    change (12 <? 0) with false. cbv iota.
    rewrite Z.min_l by lia.
    destruct accept as [|c r]; [done|].
    rewrite (proj2 (Z.ltb_lt _ _)) by (cbn [String.length]; lia).
    replace (Z.to_nat (_ - _)) with (String.length (String c r))
      by (cbn [String.length]; lia).
    change (Z.to_nat 12) with 12%nat. cbn [String.substring String.length].
    by rewrite substring_all. }
  rewrite Hs in H2, H3. clear Hs. unfold PyStr.startswith in H2.
  apply prefix_lower_cons_inv in H2 as (d0 & r0 & -> & Hd0 & H2).
  apply prefix_lower_cons_inv in H2 as (d1 & r1 & -> & Hd1 & H2).
  apply prefix_lower_cons_inv in H2 as (d2 & r2 & -> & Hd2 & H2).
  apply prefix_lower_cons_inv in H2 as (d3 & r3 & -> & Hd3 & H2).
  apply prefix_lower_cons_inv in H2 as (d4 & r4 & -> & Hd4 & H2).
  apply prefix_lower_cons_inv in H2 as (d5 & r5 & -> & Hd5 & H2).
  apply prefix_lower_cons_inv in H2 as (d6 & r6 & -> & Hd6 & H2).
  apply prefix_lower_cons_inv in H2 as (d7 & r7 & -> & Hd7 & H2).
  apply prefix_lower_cons_inv in H2 as (d8 & r8 & -> & Hd8 & H2).
  apply prefix_lower_cons_inv in H2 as (d9 & r9 & -> & Hd9 & H2).
  apply prefix_lower_cons_inv in H2 as (d10 & r10 & -> & Hd10 & H2).
  apply prefix_lower_cons_inv in H2 as (d11 & r11 & -> & Hd11 & H2).
  apply prefix_lower_cons_inv in H2 as (d12 & r12 & -> & Hd12 & H2).
  apply prefix_lower_cons_inv in H2 as (d13 & r13 & -> & Hd13 & H2).
  apply prefix_lower_cons_inv in H2 as (d14 & r14 & -> & Hd14 & H2).
  apply prefix_lower_cons_inv in H2 as (d15 & r15 & -> & Hd15 & H2).
  apply prefix_lower_cons_inv in H2 as (d16 & r16 & -> & Hd16 & H2).
  apply prefix_lower_cons_inv in H2 as (d17 & r & -> & Hd17 & _).
  cbn [PyStr.lower PyStr.map_chars] in H3.
  rewrite Hd0, Hd1, Hd2, Hd3, Hd4, Hd5, Hd6, Hd7, Hd8, Hd9, Hd10, Hd11, Hd12,
    Hd13, Hd14, Hd15, Hd16, Hd17 in H3.
  do 5 (destruct r as [|? r]; [by vm_compute in H3|]).
  clear H3.
  apply lower_char_4 in Hd6 as ->. apply lower_char_dot in Hd9 as ->.
  apply lower_char_g in Hd7. apply lower_char_h in Hd8.
  unfold PyStr.slice, PyStr.py_len, PyStr.norm_index. cbn [String.length].
  change (18 <? 0) with false. change (-5 <? 0) with true. cbv iota.
  rewrite Z.min_l, Z.max_l by lia.
  rewrite (proj2 (Z.ltb_lt _ _)) by lia.
  replace (Z.to_nat (_ - _)) with (12 + String.length r)%nat by lia.
  change (Z.to_nat 18) with 18%nat. cbn [String.substring Nat.add].
  by apply parse_version_4gh.
Qed.

End VersionedAccept.

Section Workers.
Import Server Api.
Context {DR IR W : Type} `{Countable DR}.
Implicit Types (st : St (ApiState DR IR W)) (self : ApiClass DR IR W)
  (w : worker DR IR) (p : pool DR IR W).

Ltac unfold_moves :=
  unfold write_str, mbind, outside, get_cache, set_cache, acquire, release, emit,
    lift, mret, mraise in *.

Lemma move_keeps self (pt : point DR IR) st (key : DR) (ticket : string) :
  _cache (ext st) !! key = Some ticket ->
  _cache (ext (snd (move self pt st))) !! key = Some ticket.
Proof.
  intros Hk.
  destruct pt; cbn [move]; unfold_moves;
    cbn; repeat (case_match; simplify_eq/=); try done.
  rewrite lookup_insert_ne; [done|]. intros ->. congruence.
Qed.

Lemma run_worker_keeps self i p (key : DR) (ticket : string) :
  _cache (shared p) !! key = Some ticket ->
  _cache (shared (run_worker self i p)) !! key = Some ticket.
Proof.
  intros Hk. unfold run_worker. destruct (workers p !! i) as [w|]; [|done].
  pose proof (move_keeps self (at_point w) (mkSt (out w) (shared p)) key ticket Hk)
    as Hm.
  by destruct (move _ _ _) as [[next|e|] st'].
Qed.





Lemma mbind_ext {X A B} (m : M X A) (f g : A -> M X B) s :
  (forall a s', f a s' = g a s') -> mbind m f s = mbind m g s.
Proof. intros Hfg. unfold mbind. destruct (m s) as [[a| |] s']; by rewrite ?Hfg. Qed.

Lemma mbind_assoc {X A B C} (m : M X A) (f : A -> M X B) (g : B -> M X C) s :
  mbind (mbind m f) g s = mbind m (fun a => mbind (f a) g) s.
Proof. unfold mbind. by destruct (m s) as [[a| |] s']. Qed.

Lemma run_alone_S self n (pt : point DR IR) :
  run_alone self (S n) pt
  = match pt with
    | Returned _ => mret tt
    | Raised e => mraise e
    | _ => mbind (move self pt) (run_alone self n)
    end.
Proof. by destruct pt. Qed.

Ltac step_alone := rewrite run_alone_S; cbn [move].

Lemma mbind_mret_l {X A B} (a : A) (f : A -> M X B) s : mbind (mret a) f s = f a s.
Proof. reflexivity. Qed.

Ltac next_move := rewrite mbind_mret_l; step_alone.

(** The lines of [handle] from line 124 on. *)
Lemma run_alone_respond self n dr t st :
  run_alone self (S (S n)) (AtRespond dr t) st
  = (emit (send_response OK_STATUS) ;;
     emit (send_header "Content-Type" OK_RESPONSE_CONTENT_TYPE) ;;
     emit end_headers ;;
     write_str t) st.
Proof. reflexivity. Qed.

(** The lines of [make_ticket] from the lock on, then the response. *)
Lemma run_alone_acquire self n dr t st :
  run_alone self (S (S (S (S (S n))))) (AtAcquire dr t) st
  = (acquire ;;
     let* cache := get_cache in
     (match cache !! dr with
      | None => set_cache (<[dr := t]> cache)
      | Some _ => mret tt
      end) ;;
     release ;;
     let* ticket_str := mret t in
     emit (send_response OK_STATUS) ;;
     emit (send_header "Content-Type" OK_RESPONSE_CONTENT_TYPE) ;;
     emit end_headers ;;
     write_str ticket_str) st.
Proof.
  step_alone. rewrite mbind_assoc. apply mbind_ext. intros [] s1.
  next_move. rewrite mbind_assoc. apply mbind_ext. intros cache s2.
  rewrite mbind_assoc. apply mbind_ext. intros [] s3.
  next_move. rewrite mbind_assoc. apply mbind_ext. intros [] s4.
  rewrite mbind_mret_l. apply run_alone_respond.
Qed.

Lemma run_alone_ticket_urls self n fmt query dr ir st :
  run_alone self (S (S (S (S (S (S n)))))) (AtTicketUrls fmt query dr ir) st
  = (let* ticket_urls :=
       outside (call_create_ticket_urls fmt dr ir)
         (create_ticket_urls self fmt query dr ir) in
     let* up := lift (py_upper fmt) in
     let ticket :=
       Json.JObject [("htsget"%string,
          Json.JObject [("format"%string, Json.JText up);
                        ("urls"%string, ticket_urls)])] in
     let ticket_str := Json.dumps ticket in
     acquire ;;
     let* cache := get_cache in
     (match cache !! dr with
      | None => set_cache (<[dr := ticket_str]> cache)
      | Some _ => mret tt
      end) ;;
     release ;;
     let* ticket_str := mret ticket_str in
     emit (send_response OK_STATUS) ;;
     emit (send_header "Content-Type" OK_RESPONSE_CONTENT_TYPE) ;;
     emit end_headers ;;
     write_str ticket_str) st.
Proof.
  step_alone. rewrite mbind_assoc. apply mbind_ext. intros urls s1.
  rewrite mbind_assoc. apply mbind_ext. intros up s2.
  rewrite mbind_mret_l. cbv zeta. apply run_alone_acquire.
Qed.

Ltac norm_binds :=
  repeat first [rewrite mbind_assoc | rewrite mbind_mret_l | progress cbv beta zeta].

Ltac same_binds :=
  repeat (norm_binds; first [reflexivity | apply mbind_ext; intros ? ?]).

Lemma run_alone_exists self n fmt query dr ir st :
  run_alone self (S (S (S (S (S (S (S (S (S n))))))))) (AtExists fmt query dr ir) st
  = (let* ticket_str := make_ticket self fmt query dr ir in
     emit (send_response OK_STATUS) ;;
     emit (send_header "Content-Type" OK_RESPONSE_CONTENT_TYPE) ;;
     emit end_headers ;;
     write_str ticket_str) st.
Proof.
  step_alone. unfold make_ticket. rewrite !mbind_assoc. apply mbind_ext.
  intros found s1. destruct found; cbn [negb].
  - rewrite mbind_mret_l, (run_alone_ticket_urls self (S (S n))). same_binds.
  - next_move. rewrite !mbind_assoc. apply mbind_ext. intros [] s2.
    next_move. rewrite !mbind_assoc. apply mbind_ext. intros [] s3.
    rewrite mbind_mret_l, (run_alone_ticket_urls self n). same_binds.
Qed.

Lemma mbind_get_cache {B} (k : gmap DR string -> M (ApiState DR IR W) B) st :
  mbind get_cache k st = k (_cache (ext st)) st.
Proof. reflexivity. Qed.

(** A worker that runs alone from the start of [handle] does what the
    state-passing [handle] does. *)
Lemma run_alone_handle self record_id query st :
  run_alone self 12 (AtResolve record_id query) st = handle self record_id query st.
Proof.
  step_alone. unfold handle. rewrite mbind_assoc. apply mbind_ext.
  intros [dr ir] s1. cbn [fst snd].
  next_move. rewrite mbind_assoc, !mbind_get_cache.
  destruct (_cache (ext s1) !! dr) as [t|] eqn:E.
  - rewrite !mbind_mret_l. step_alone.
    rewrite mbind_assoc, mbind_get_cache, E, mbind_mret_l.
    apply (run_alone_respond self 7).
  - rewrite mbind_mret_l. apply (run_alone_exists self 1).
Qed.

End Workers.

Section Examples.
Import Server.

Example py_int_examples :
  PyStr.py_int " 1_0 " = Some 10 /\ PyStr.py_int "-12" = Some (-12) /\
  PyStr.py_int "4gh" = None /\ PyStr.py_int "" = None /\
  PyStr.py_int "1__0" = None /\ PyStr.py_int "007" = Some 7.
Proof. repeat split; by vm_compute. Qed.

Example slice_examples :
  PyStr.slice "abcdef" (Some 2) (Some (-1)) = "cde"%string /\
  PyStr.slice "abc" (Some 5) None = ""%string /\
  PyStr.slice "abc" (Some 1) (Some (-5)) = ""%string /\
  PyStr.split "/"%char "reads/a//b" = ["reads"; "a"; ""; "b"]%string /\
  PyStr.split "/"%char "" = [""%string].
Proof. repeat split; by vm_compute. Qed.

Example check_headers_examples :
  check_headers [("accept", "application/JSON")%string] = Ok tt /\
  check_headers [("Accept", "text/plain")%string]
  = Raise (Http (UnsupportedMediaTypeHttpError "text/plain")) /\
  check_headers [("Accept", "application/vnd.ga4gh.htsget.v2.0.0+json")%string]
  = Raise (Http (UnsupportedMediaTypeHttpError
                   "application/vnd.ga4gh.htsget.v2.0.0+json")) /\
  check_headers [("Accept", "application/xml")%string]
  = Raise (Http (UnsupportedMediaTypeHttpError "application/xml")).
Proof. repeat split; by vm_compute. Qed.

Example default_router_resolves :
  rbind create_default_router
    (fun r => Routing.get_route_handler r ["reads"; "NA12878"; "chr1"]%string)
  = Ok (ReadsApiRouteHandler, ["NA12878"; "chr1"]%string) /\
  rbind create_default_router
    (fun r => Routing.get_route_handler r ["tickets"]%string)
  = Raise (Http (NotFoundHttpError (PathSeq ["tickets"%string]))).
Proof. split; by vm_compute. Qed.

(** [GET /reads/NA12878] on the default router: the router hands
    ["NA12878"] to [ApiRouteHandler.__call__], which raises [NotFound];
    the write of the error body raises in turn. *)
Example do_GET_reads_with_id :
  rbind create_default_router (fun r =>
    Ok (do_GET (X:=unit) (call_handler (fun _ => Ok ∅)) r
          (fun p => mkParseResult "" "" p "" "" "")
          (mkRequest "/reads/NA12878" []) (mkSt [] tt)))
  = Ok (Raise str_to_wfile,
        mkSt [send_error 404; send_header "Content-type" "application/json";
              end_headers] tt).
Proof. by vm_compute. Qed.

Example dumps_escapes :
  Json.dumps (Json.JArray [Json.JString "a\b"; Json.JNull])
  = ("[" +:+ Json.dq +:+ "a\\b" +:+ Json.dq +:+ ", null]")%string.
Proof. by vm_compute. Qed.

(** [str.upper] leaves latin-1: "bam" gives "BAM"; the sharp s gives
    "SS", the micro sign U+039C and the y with diaeresis U+0178, which
    [json.dumps] writes as escapes. *)
Example upper_examples :
  PyStr.upper "bam" = [66; 65; 77]%N /\
  PyStr.upper (String (Ascii.ascii_of_N 223) EmptyString) = [83; 83]%N /\
  PyStr.upper (String (Ascii.ascii_of_N 181) EmptyString) = [924]%N /\
  PyStr.upper (String (Ascii.ascii_of_N 255) EmptyString) = [376]%N /\
  Json.dumps (Json.JText [376; 924; 66]%N)
  = (Json.dq +:+ "\u0178\u039cB" +:+ Json.dq)%string.
Proof. repeat split; by vm_compute. Qed.

End Examples.

(** * Further properties of the header-boundary resolver *)

Section ScanMore.
Import Bgzf.
Variable decodes : list byte -> bool.

(** X1: without an index resource [get_bam_header_size] returns no
    offset, whatever the resource holds: either the first pass raises, or
    the first iteration of the scan raises, at the latest on
    [reader.ushort()]. *)
Theorem get_bam_header_size_no_index_never_returns (r : Resource) :
  (exists e, get_bam_header_size decodes r None = Raise e) /\
  forall offset, get_bam_header_size decodes r None <> Ok offset.
Proof.
  destruct (get_bam_header_size_no_index decodes r) as [e He].
  split; [by exists e|]. intros offset. by rewrite He.
Qed.

(** X2: with an index resource whose parsed index holds no interval at
    all (no reference entries, or only entries without intervals),
    [get_bam_header_size] raises [ValueError] and returns no offset. *)
Theorem get_bam_header_size_index_empty (r : Resource) (index : Index) :
  Forall (fun ri => intervals ri = []) (ref_indexes index) ->
  is_raise ValueError (get_bam_header_size decodes r (Some index)) /\
  forall offset, get_bam_header_size decodes r (Some index) <> Ok offset.
Proof.
  intros Hempty.
  assert (He : index_offsets index = []).
  { unfold index_offsets. induction Hempty as [|ri ris Hri _ IH]; [done|].
    cbn [mbind list_bind]. rewrite Hri. cbn. exact IH. }
  unfold get_bam_header_size, py_min. rewrite He.
  split; [by eexists|done].
Qed.

(** X3: a BAM header without text (a text length of 0, which the format
    allows) does not get through the first pass: [read_string] is asked
    for zero bytes and raises [ValueError], before any block is read. *)
Theorem get_bam_header_size_empty_text (r : Resource) (rest : list byte) :
  decodes (take 3 bam_magic) = true ->
  decompressed r = bam_magic ++ le_encode 4 0 ++ rest ->
  get_bam_header_size decodes r None = Raise zero_length.
Proof.
  intros Hm Hd. unfold get_bam_header_size. cbn [open]. rewrite Hd.
  unfold uncompressed_header_size, bam_magic.
  erewrite bind_ok by by apply (read_string_app decodes [x42; x41; x4d]).
  destruct (read_byte_app x01 (le_encode 4 0 ++ rest)) as [v Hv].
  erewrite bind_ok by exact Hv.
  erewrite bind_ok by (apply read_int_encode; lia).
  done.
Qed.

End ScanMore.

Lemma get_bam_header_size_index_empty_witness :
  is_raise ValueError
    (Bgzf.get_bam_header_size Bgzf.ascii_codec (Bgzf.mkResource [] [])
       (Some (Bgzf.mkIndex [Bgzf.mkRefIndex []; Bgzf.mkRefIndex []]))) /\
  forall offset,
    Bgzf.get_bam_header_size Bgzf.ascii_codec (Bgzf.mkResource [] [])
      (Some (Bgzf.mkIndex [Bgzf.mkRefIndex []; Bgzf.mkRefIndex []])) <> Ok offset.
Proof.
  apply (get_bam_header_size_index_empty Bgzf.ascii_codec (Bgzf.mkResource [] [])
           (Bgzf.mkIndex [Bgzf.mkRefIndex []; Bgzf.mkRefIndex []])).
  repeat constructor.
Defined.

Lemma get_bam_header_size_empty_text_witness :
  Bgzf.get_bam_header_size Bgzf.ascii_codec Bgzf.file_isize_8 None
  = Raise Bgzf.zero_length.
Proof.
  apply (get_bam_header_size_empty_text Bgzf.ascii_codec Bgzf.file_isize_8
           (le_encode 4 0)).
  - reflexivity.
  - reflexivity.
Defined.

(** * Further properties of the router *)

Section RouterMore.
Import Routing.
Context {H : Type}.
Implicit Types (d : gmap string (node H)) (r : Router H) (h : H).

Lemma walk_ok_iff d (path full : list string) h (rest : list string) :
  walk d path full = Ok (h, rest) <->
  exists p1 part d', path = p1 ++ part :: rest /\ descend d p1 = Some d'
                     /\ d' !! part = Some (Leaf h).
Proof.
  revert d. induction path as [|s path IH]; intros d; cbn [walk].
  - split; [done|]. intros (p1 & part & d' & Hp & _). by destruct p1.
  - split.
    + destruct (d !! s) as [[h0|sub]|] eqn:E; [| |done].
      * intros [= -> ->]. by exists [], s, d.
      * intros (p1 & part & d' & -> & Hd & Hl)%IH. exists (s :: p1), part, d'.
        cbn [descend]. by rewrite E.
    + intros (p1 & part & d' & Hp & Hd & Hl). destruct p1 as [|s' p1].
      * cbn [app descend] in Hp, Hd. injection Hp as -> ->. injection Hd as ->.
        by rewrite Hl.
      * cbn [app descend] in Hp, Hd. injection Hp as <- ->.
        destruct (d !! s) as [[h0|sub]|]; [done| |done].
        apply IH. by exists p1, part, d'.
Qed.

Lemma walk_ok_or_not_found d (path full : list string) :
  (exists h rest, walk d path full = Ok (h, rest)) \/
  walk d path full = Raise (Http (NotFoundHttpError (PathSeq full))).
Proof.
  revert d. induction path as [|s path IH]; intros d; cbn [walk]; [by right|].
  destruct (d !! s) as [[h0|sub]|]; [left; by eexists _, _|apply IH|by right].
Qed.

(** X4: [get_route_handler] returns [(h, rest)] exactly when the path
    splits into segments that lead through inner nodes, one segment bound
    to the handler [h], and [rest]; in every other case it raises
    [NotFoundHttpError] with the whole path, and nothing else. *)
Theorem get_route_handler_characterised r (path : list string) :
  (forall h rest,
      get_route_handler r path = Ok (h, rest) <->
      exists p1 part d, path = p1 ++ part :: rest
                        /\ descend (routes r) p1 = Some d
                        /\ d !! part = Some (Leaf h)) /\
  ((exists h rest, get_route_handler r path = Ok (h, rest)) \/
   get_route_handler r path = Raise (Http (NotFoundHttpError (PathSeq path)))).
Proof.
  unfold get_route_handler. split.
  - intros h rest. apply walk_ok_iff.
  - apply walk_ok_or_not_found.
Qed.

Lemma add_route_from_outcome d (P full : list string) h :
  match add_route_from d P h with
  | Ok _ => P <> [] /\ forall h0 rest, walk d P full = Ok (h0, rest) -> rest = []
  | Raise (Exc IndexError _) => P = []
  | Raise (Exc TypeError _) =>
      exists h0 rest, rest <> [] /\ walk d P full = Ok (h0, rest)
  | _ => False
  end.
Proof.
  revert d. induction P as [|part P IH]; intros d; [done|].
  cbn [add_route_from walk]. destruct P as [|part' P].
  - split; [done|]. intros h0 rest.
    destruct (d !! part) as [[h1|sub]|]; [by intros [= _ <-]|done..].
  - destruct (d !! part) as [[h1|sub]|] eqn:E.
    + by exists h1, (part' :: P).
    + specialize (IH sub).
      destruct (add_route_from sub (part' :: P) h) as [d'|[[] a|e]|];
        cbn [rbind]; try done.
      split; [done|]. by destruct IH.
    + specialize (IH ∅).
      destruct (add_route_from ∅ (part' :: P) h) as [d'|[[] a|e]|];
        cbn [rbind]; done.
Qed.

(** X5: [add_route] fails in two ways only: with [IndexError] exactly on
    the empty path, and with [TypeError] exactly when a proper prefix of
    the path is already bound to a handler.  When it succeeds, no proper
    prefix of the path was bound to a handler. *)
Theorem add_route_outcome r (P : list string) h :
  match add_route r P h with
  | Ok _ =>
      P <> [] /\ forall h0 rest, get_route_handler r P = Ok (h0, rest) -> rest = []
  | Raise (Exc IndexError _) => P = []
  | Raise (Exc TypeError _) =>
      exists h0 rest, rest <> [] /\ get_route_handler r P = Ok (h0, rest)
  | _ => False
  end.
Proof.
  unfold add_route, get_route_handler.
  pose proof (add_route_from_outcome (routes r) P P h) as Ho.
  by destruct (add_route_from (routes r) P h) as [d'|[[] a|e]|].
Qed.

Lemma add_route_from_again d (P full : list string) h h' :
  walk d P full = Ok (h, []) -> exists d', add_route_from d P h' = Ok d'.
Proof.
  intros Hw. pose proof (add_route_from_outcome d P full h') as Ho.
  destruct (add_route_from d P h') as [d'|[[] a|e]|]; cbn beta iota in Ho;
    try done.
  - by exists d'.
  - destruct Ho as (h0 & rest & Hne & Hw'). rewrite Hw in Hw'. by simplify_eq.
  - by subst P.
Qed.

(** X6: registering again a path that is bound to a handler always
    succeeds, and the path then resolves to the new handler: the last
    registration wins. *)
Theorem add_route_replaces r (P : list string) h h' :
  get_route_handler r P = Ok (h, []) ->
  exists r', add_route r P h' = Ok r' /\ get_route_handler r' P = Ok (h', []).
Proof.
  unfold get_route_handler, add_route. intros Hw.
  destruct (add_route_from_again (routes r) P P h h' Hw) as [d' Hd'].
  exists (mkRouter d'). rewrite Hd'. split; [done|]. cbn [routes].
  rewrite <- (app_nil_r P) at 1. by apply (walk_add_route (routes r)).
Qed.

End RouterMore.

Lemma add_route_replaces_witness :
  exists r',
    Routing.add_route
      (Routing.mkRouter (<["reads"%string := Routing.Leaf ReadsApiRouteHandler]> ∅))
      ["reads"%string] BlockRouteHandler = Ok r'
    /\ Routing.get_route_handler r' ["reads"%string] = Ok (BlockRouteHandler, []).
Proof.
  apply (add_route_replaces
           (Routing.mkRouter (<["reads"%string := Routing.Leaf ReadsApiRouteHandler]> ∅))
           ["reads"%string] ReadsApiRouteHandler BlockRouteHandler).
  reflexivity.
Defined.

(** X7: a successful registration of a path [Q] leaves every registered
    path [P] of which [Q] is not a prefix resolving to the handler it had. *)
Theorem add_route_keeps_others {H : Type} (r r' : Routing.Router H)
    (Q P : list string) (h h' : H) :
  Routing.add_route r Q h' = Ok r' -> ¬ Q `prefix_of` P ->
  Routing.get_route_handler r P = Ok (h, []) ->
  Routing.get_route_handler r' P = Ok (h, []).
Proof.
  unfold Routing.add_route, Routing.get_route_handler. intros Hadd Hpre Hw.
  destruct (Routing.add_route_from (Routing.routes r) Q h') as [d'| |] eqn:E;
    [|done..].
  injection Hadd as <-. by apply (walk_add_route_other (Routing.routes r) _ Q P P h h').
Qed.

Lemma add_route_keeps_others_witness :
  Routing.get_route_handler
    (Routing.mkRouter
       (<["variants"%string := Routing.Leaf VariantsApiRouteHandler]>
          (<["reads"%string := Routing.Leaf ReadsApiRouteHandler]> ∅)))
    ["reads"%string]
  = Ok (ReadsApiRouteHandler, []).
Proof.
  apply (add_route_keeps_others
           (Routing.mkRouter (<["reads"%string := Routing.Leaf ReadsApiRouteHandler]> ∅))
           _ ["variants"%string] ["reads"%string] ReadsApiRouteHandler
           VariantsApiRouteHandler).
  - reflexivity.
  - intros [k Hk]. discriminate Hk.
  - reflexivity.
Defined.

(** * Further properties of content negotiation and of the request worker *)

Section NegotiationMore.

Lemma check_headers_single (hs : Headers) (accept : string) :
  get_header "Accept" hs = Some accept ->
  check_headers hs = check_headers [("Accept"%string, accept)].
Proof.
  intros Hg. unfold check_headers.
  change (get_header "Accept" [("Accept"%string, accept)]) with (Some accept).
  by rewrite Hg.
Qed.

Lemma check_headers_single_cases (accept : string) :
  (PyStr.startswith accept "application/" = true /\
   PyStr.lower (PyStr.slice accept (Some 12) None) = "json"%string /\
   check_headers [("Accept"%string, accept)] = Ok tt) \/
  (¬ (PyStr.startswith accept "application/" = true /\
      PyStr.lower (PyStr.slice accept (Some 12) None) = "json"%string) /\
   check_headers [("Accept"%string, accept)]
   = Raise (Http (UnsupportedMediaTypeHttpError accept))).
Proof.
  destruct (PyStr.startswith accept "application/") eqn:E1.
  - destruct (String.eqb_spec (PyStr.lower (PyStr.slice accept (Some 12) None)) "json")
      as [E2|E2].
    + left. split; [done|]. split; [done|]. unfold check_headers.
      change (get_header "Accept" [("Accept"%string, accept)]) with (Some accept).
      cbv beta iota zeta. rewrite E1, E2. done.
    + right. split; [by intros [_ ?]|].
      destruct (PyStr.startswith (PyStr.lower (PyStr.slice accept (Some 12) None))
                  "vnd.ga4gh.htsget.v") eqn:E3;
        [destruct (PyStr.endswith (PyStr.lower (PyStr.slice accept (Some 12) None))
                     "+json") eqn:E4|].
      * by apply check_headers_rejects_versioned.
      * unfold check_headers.
        change (get_header "Accept" [("Accept"%string, accept)]) with (Some accept).
        cbv beta iota zeta. rewrite E1. cbn [negb].
        destruct (String.eqb_spec (PyStr.lower (PyStr.slice accept (Some 12) None))
                    "json"); [done|].
        by rewrite E3, E4.
      * unfold check_headers.
        change (get_header "Accept" [("Accept"%string, accept)]) with (Some accept).
        cbv beta iota zeta. rewrite E1. cbn [negb].
        destruct (String.eqb_spec (PyStr.lower (PyStr.slice accept (Some 12) None))
                    "json"); [done|].
        by rewrite E3.
  - right. split; [by intros [? _]|]. unfold check_headers.
    change (get_header "Accept" [("Accept"%string, accept)]) with (Some accept).
    cbv beta iota zeta. by rewrite E1.
Qed.

(** X8: [check_headers] lets a request pass exactly when it has no
    [Accept] header, or when the first [Accept] value starts with
    "application/" and the rest is "json" in any casing.  In every other
    case it raises [UnsupportedMediaTypeHttpError] (status 415) carrying
    that value, and never anything else. *)
Theorem check_headers_characterised (hs : Headers) :
  (check_headers hs = Ok tt <->
   get_header "Accept" hs = None \/
   exists accept, get_header "Accept" hs = Some accept
     /\ PyStr.startswith accept "application/" = true
     /\ PyStr.lower (PyStr.slice accept (Some 12) None) = "json"%string) /\
  (check_headers hs = Ok tt \/
   exists accept, get_header "Accept" hs = Some accept
     /\ check_headers hs = Raise (Http (UnsupportedMediaTypeHttpError accept))
     /\ status (UnsupportedMediaTypeHttpError accept) = 415).
Proof.
  destruct (get_header "Accept" hs) as [accept|] eqn:Hg.
  - rewrite (check_headers_single hs accept Hg).
    destruct (check_headers_single_cases accept) as [(E1 & E2 & ->)|[Hn ->]].
    + split; [|by left]. split; [|done]. intros _. right. by exists accept.
    + split; [|right; by exists accept]. split; [done|].
      intros [?|(a & [= <-] & E1 & E2)]; [done|]. by destruct Hn.
  - assert (Hc : check_headers hs = Ok tt).
    { unfold check_headers. by rewrite Hg. }
    rewrite Hc. split; [|by left]. split; [by left|done].
Qed.

End NegotiationMore.

Section WorkerMore.
Import Server.

Lemma append_assoc (a b c : string) : (a +:+ b) +:+ c = a +:+ (b +:+ c).
Proof.
  induction a as [|x a IH]; [done|].
  change (String x ((a +:+ b) +:+ c) = String x (a +:+ b +:+ c)). by rewrite IH.
Qed.

(** The body that [handle_error] builds, and then fails to write, is the
    one the specification describes. *)
Lemma dumps_error_dict (kind text : string) :
  Json.dumps
    (Json.JObject [("htsget"%string,
       Json.JObject [("error"%string, Json.JString kind);
                     ("message"%string, Json.JString text)])])
  = spec_error_body (Json.escape kind) (Json.escape text).
Proof.
  unfold spec_error_body. cbn [Json.dumps List.map Json.join fst snd].
  unfold Json.quote.
  change (Json.escape "htsget") with "htsget"%string.
  change (Json.escape "error") with "error"%string.
  change (Json.escape "message") with "message"%string.
  rewrite !append_assoc. reflexivity.
Qed.

(** [handle_error] for an error whose [message] can be read: the status
    line and the headers go out, and the write of the body raises. *)
Lemma handle_error_with_message {X} (err : HttpError) (msg : string) (st : St X) :
  message err = Ok msg ->
  handle_error err st
  = (Raise str_to_wfile, mkSt (sent st ++ error_head (status err)) (ext st)).
Proof.
  intros Hm. unfold handle_error, write_str, mraise, mbind, emit, lift.
  cbn [sent ext]. rewrite Hm. unfold error_head. by rewrite <- !app_assoc.
Qed.

Lemma message_unknown (e : exn) :
  message (UnknownHttpError e) = Ok (hd ""%string (exn_args e)).
Proof. unfold message, UnknownHttpError. cbn. by destruct (exn_args e). Qed.

(** [handle_error] never returns: it raises at the write of the body,
    or before it while it reads [message]. *)
Lemma handle_error_raises {X} (err : HttpError) (st : St X) :
  exists e, handle_error err st
            = (Raise e, mkSt (sent st ++ error_head (status err)) (ext st))
    /\ (e = str_to_wfile
        \/ (e = Exc AttributeError ["'NoneType' object has no attribute 'args'"%string]
            /\ args err = [] /\ cause err = None)).
Proof.
  destruct (message err) as [msg|e|] eqn:Em.
  - exists str_to_wfile. split; [by apply (handle_error_with_message _ msg)|by left].
  - exists e. unfold handle_error, mbind, emit, lift. cbn [sent ext]. rewrite Em.
    unfold error_head. rewrite <- !app_assoc. split; [done|]. right.
    unfold message in Em.
    destruct (args err) as [|m ms] eqn:Ea; [|done].
    destruct (cause err) as [[|m ms]|] eqn:Ec; [done..|].
    by injection Em as <-.
  - unfold message in Em. destruct (args err); [|done].
    by destruct (cause err) as [[|]|].
Qed.

Section Worker.
Context {H X : Type}.
Variable call : H -> list string -> ParseResult -> M X unit.
Variable router : Routing.Router H.
Variable urlparse : string -> ParseResult.

(** X9: when header validation passes and routing or the route handler
    raises an exception that is not an [HttpError], [do_GET] does not
    return normally: it sends the status line 500 and the headers of the
    error response, and the write of the body, a [str] handed to the
    binary stream, raises [TypeError], which leaves [do_GET]. *)
Theorem do_GET_unknown_error (req : Request) (st st' : St X)
    (c : exc_class) (a : list string) :
  check_headers (headers req) = Ok tt ->
  route_request call router urlparse req st = (Raise (Exc c a), st') ->
  do_GET call router urlparse req st
  = (Raise str_to_wfile, mkSt (sent st' ++ error_head 500) (ext st')).
Proof.
  intros Hc Hr. unfold do_GET, mbind, lift. rewrite Hc, Hr. cbn [except_clauses].
  by rewrite (handle_error_with_message _ (hd ""%string a))
    by apply (message_unknown (Exc c a)).
Qed.


(** X11: when header validation passes and the URL path does not start
    with a slash (or is empty), or its first segment is not bound in the
    router, [do_GET] sends the status line 404 and the headers of the
    error response and leaves the state behind the handlers untouched;
    the write of the [NotFound] body raises [TypeError], which leaves
    [do_GET]. *)
Theorem do_GET_not_routed (req : Request) (st : St X) :
  check_headers (headers req) = Ok tt ->
  PyStr.startswith (url_path (urlparse (req_path req))) "/" = false \/
  (exists seg more,
      PyStr.split "/"%char (PyStr.slice (url_path (urlparse (req_path req))) (Some 1) None)
      = seg :: more
      /\ Routing.routes router !! seg = None) ->
  do_GET call router urlparse req st
  = (Raise str_to_wfile, mkSt (sent st ++ error_head 404) (ext st)).
Proof.
  intros Hc Hcase. unfold do_GET, mbind at 1, lift at 1. rewrite Hc.
  unfold route_request.
  destruct ((PyStr.py_len (url_path (urlparse (req_path req))) =? 0)
            || negb (PyStr.startswith (url_path (urlparse (req_path req))) "/"))
    eqn:E.
  - unfold mraise. cbn [except_clauses]. apply handle_error_not_found.
  - destruct Hcase as [Hs|(seg & more & Hsplit & Hseg)].
    { rewrite Hs in E. by rewrite orb_true_r in E. }
    unfold mbind, lift, Routing.get_route_handler. rewrite Hsplit.
    cbn [Routing.walk]. rewrite Hseg. cbn [except_clauses].
    apply handle_error_not_found.
Qed.

End Worker.

Lemma do_GET_unknown_error_witness :
  do_GET (X:=unit) (fun (_ : handler_class) _ _ => mraise (Exc ValueError ["boom"%string]))
    (Routing.mkRouter (<["reads"%string := Routing.Leaf ReadsApiRouteHandler]> ∅))
    (fun p => mkParseResult "" "" p "" "" "")
    (mkRequest "/reads" []) (mkSt [] tt)
  = (Raise str_to_wfile, mkSt ([] ++ error_head 500) tt).
Proof.
  apply (do_GET_unknown_error
           (fun (_ : handler_class) _ _ => mraise (Exc ValueError ["boom"%string]))
           (Routing.mkRouter (<["reads"%string := Routing.Leaf ReadsApiRouteHandler]> ∅))
           (fun p => mkParseResult "" "" p "" "" "")
           (mkRequest "/reads" []) (mkSt [] tt) (mkSt [] tt) ValueError
           ["boom"%string]).
  - reflexivity.
  - reflexivity.
Defined.

Lemma do_GET_not_routed_witness :
  do_GET (X:=unit) (call_handler (fun _ => Ok ∅))
    (Routing.mkRouter (<["reads"%string := Routing.Leaf ReadsApiRouteHandler]> ∅))
    (fun p => mkParseResult "" "" p "" "" "")
    (mkRequest "/tickets/1" []) (mkSt [] tt)
  = (Raise str_to_wfile, mkSt ([] ++ error_head 404) tt).
Proof.
  apply (do_GET_not_routed (call_handler (fun _ => Ok ∅))
           (Routing.mkRouter (<["reads"%string := Routing.Leaf ReadsApiRouteHandler]> ∅))
           (fun p => mkParseResult "" "" p "" "" "")
           (mkRequest "/tickets/1" []) (mkSt [] tt)).
  - reflexivity.
  - right. exists "tickets"%string, ["1"%string]. split; reflexivity.
Defined.

End WorkerMore.

Section PackageHandlers.
Import Server.
Context {X : Type}.
Variable parse_qs : string -> result (gmap string pyval).

Lemma call_handler_state (h : handler_class) sub_route parsed (st : St X) :
  snd (call_handler parse_qs h sub_route parsed st) = st.
Proof.
  destruct h; cbn [call_handler]; try done;
    unfold api_call, mbind, lift, mraise, mret;
    destruct (negb _); try done; by destruct (parse_qs _).
Qed.

Lemma route_request_call_handler_state router urlparse req (st : St X) :
  snd (route_request (call_handler parse_qs) router urlparse req st) = st.
Proof.
  unfold route_request. destruct (_ || _); [done|].
  unfold mbind, lift.
  destruct (Routing.get_route_handler _ _) as [[h rest]| |]; [|done..].
  apply call_handler_state.
Qed.

Lemma handle_error_sends (err : HttpError) (st : St X) :
  exists l, snd (handle_error err st) = mkSt (sent st ++ l) (ext st)
            /\ Forall (fun c => forall code, c <> send_response code) l.
Proof.
  destruct (handle_error_raises err st) as (e & -> & _).
  exists (error_head (status err)). split; [done|]. by repeat constructor.
Qed.

(** X12: with the three handler classes of the package, whatever the
    routes and the request, [do_GET] never sends a success status line:
    it sends nothing at all or an error response, and leaves the state
    behind the handlers untouched. *)
Theorem do_GET_package_handlers_no_success
    (router : Routing.Router handler_class) (urlparse : string -> ParseResult)
    (req : Request) (st : St X) :
  exists l,
    snd (do_GET (call_handler parse_qs) router urlparse req st)
    = mkSt (sent st ++ l) (ext st)
    /\ Forall (fun c => forall code, c <> send_response code) l.
Proof.
  unfold do_GET, mbind at 1, lift at 1.
  assert (Hnil : st = mkSt (sent st ++ []) (ext st)).
  { destruct st. cbn. by rewrite app_nil_r. }
  destruct (check_headers (headers req)) as [[]|e|].
  - pose proof (route_request_call_handler_state router urlparse req st) as Hs.
    destruct (route_request _ _ _ _ _) as [[[]|[c a|err]|] st']; cbn [snd] in Hs;
      subst st'; cbn [except_clauses snd].
    + exists []. split; [done|constructor].
    + apply handle_error_sends.
    + apply handle_error_sends.
    + exists []. split; [done|constructor].
  - destruct e as [c a|err]; cbn [except_clauses]; apply handle_error_sends.
  - exists []. split; [done|constructor].
Qed.

End PackageHandlers.

(** * Further properties of the ticket handler *)

Section HandleMore.
Import Server Api.
Context {DR IR W : Type} `{Countable DR}.
Implicit Types (st : St (ApiState DR IR W)) (self : ApiClass DR IR W).

Lemma mbind_ok {X A B} (m : M X A) (k : A -> M X B) s a s' :
  m s = (Ok a, s') -> mbind m k s = k a s'.
Proof. unfold mbind. by intros ->. Qed.

Lemma outside_eq {A} (c : store_call DR IR) (f : W -> result A * W) st r w :
  f (store (ext st)) = (r, w) ->
  outside c f st
  = (r, mkSt (sent st)
          (mkApiState (_cache (ext st)) (_cache_lock (ext st)) w
             (calls (ext st) ++ [c]))).
Proof. unfold outside. by intros ->. Qed.

(** X13: a first request for a data resource whose index exists: when
    the key is not cached, the lock is free, the format is a string and
    the outside calls succeed, [handle] calls [resolve], the existence
    check and [create_ticket_urls] in this order and nothing else, stores
    the serialised ticket under the key, releases the lock and sends the
    status line and the headers of the 200 response; the write of the
    ticket, a [str], then raises [TypeError]. *)
Theorem handle_miss_index_present self record_id query st
    (fmt : string) (dr : DR) (ir : IR) (w1 w2 : W) (urls : Json.json) :
  default (VStr (default_format self)) (query !! "format"%string) = VStr fmt ->
  resolve self record_id (VStr fmt) (index_format self) (store (ext st))
  = (Ok (dr, ir), w1) ->
  _cache (ext st) !! dr = None ->
  _cache_lock (ext st) = false ->
  exists_ self ir w1 = true ->
  create_ticket_urls self (VStr fmt) query dr ir w1 = (Ok urls, w2) ->
  handle self record_id query st
  = (Raise str_to_wfile,
     mkSt (sent st ++ ok_head)
       (mkApiState (<[dr := ticket_json fmt urls]> (_cache (ext st))) false w2
          (calls (ext st)
             ++ [call_resolve record_id (VStr fmt) (index_format self);
                 call_exists ir;
                 call_create_ticket_urls (VStr fmt) dr ir]))).
Proof.
  intros Hf Hres Hnone Hlock Hex Hurls. unfold handle, make_ticket. rewrite Hf.
  erewrite mbind_ok by by apply outside_eq.
  cbn [fst snd]. rewrite mbind_get_cache. cbn [ext _cache]. rewrite Hnone.
  rewrite mbind_assoc.
  erewrite mbind_ok by (apply outside_eq; cbn [ext store]; by rewrite Hex).
  cbn [negb]. rewrite mbind_assoc, mbind_mret_l, mbind_assoc.
  erewrite mbind_ok by (apply outside_eq; cbn [ext store]; exact Hurls).
  rewrite mbind_assoc. unfold lift at 1, mbind at 1. cbn [py_upper]. cbv zeta.
  rewrite mbind_assoc. unfold acquire at 1, mbind at 1. cbn [ext _cache_lock sent].
  rewrite Hlock. cbn [ext _cache _cache_lock sent store calls].
  rewrite mbind_assoc, mbind_get_cache. cbn [ext _cache]. rewrite Hnone.
  unfold mbind, set_cache, release, mret, emit, write_str, mraise, ok_head,
    ticket_json.
  cbn [ext _cache _cache_lock sent store calls].
  by rewrite <- !app_assoc.
Qed.

(** X14: a first request for a data resource whose index does not exist:
    under the same conditions, [handle] calls [create_index] and then
    [add_resource], once each, after the existence check and before
    [create_ticket_urls]; it then caches the ticket and sends the status
    line and the headers, and the write of the ticket raises
    [TypeError]. *)
Theorem handle_miss_index_absent self record_id query st
    (fmt : string) (dr : DR) (ir : IR) (w1 w2 w3 w4 : W) (urls : Json.json) :
  default (VStr (default_format self)) (query !! "format"%string) = VStr fmt ->
  resolve self record_id (VStr fmt) (index_format self) (store (ext st))
  = (Ok (dr, ir), w1) ->
  _cache (ext st) !! dr = None ->
  _cache_lock (ext st) = false ->
  exists_ self ir w1 = false ->
  create_index self dr ir w1 = (Ok tt, w2) ->
  add_resource self ir w2 = (Ok tt, w3) ->
  create_ticket_urls self (VStr fmt) query dr ir w3 = (Ok urls, w4) ->
  handle self record_id query st
  = (Raise str_to_wfile,
     mkSt (sent st ++ ok_head)
       (mkApiState (<[dr := ticket_json fmt urls]> (_cache (ext st))) false w4
          (calls (ext st)
             ++ [call_resolve record_id (VStr fmt) (index_format self);
                 call_exists ir;
                 call_create_index dr ir;
                 call_add_resource ir;
                 call_create_ticket_urls (VStr fmt) dr ir]))).
Proof.
  intros Hf Hres Hnone Hlock Hex Hci Har Hurls. unfold handle, make_ticket.
  rewrite Hf.
  erewrite mbind_ok by by apply outside_eq.
  cbn [fst snd]. rewrite mbind_get_cache. cbn [ext _cache]. rewrite Hnone.
  rewrite mbind_assoc.
  erewrite mbind_ok by (apply outside_eq; cbn [ext store]; by rewrite Hex).
  cbn [negb]. rewrite !mbind_assoc.
  erewrite mbind_ok by (apply outside_eq; cbn [ext store]; exact Hci).
  rewrite ?mbind_assoc.
  erewrite mbind_ok by (apply outside_eq; cbn [ext store]; exact Har).
  rewrite ?mbind_assoc.
  erewrite mbind_ok by (apply outside_eq; cbn [ext store]; exact Hurls).
  rewrite ?mbind_assoc. unfold lift at 1, mbind at 1. cbn [py_upper]. cbv zeta.
  rewrite mbind_assoc. unfold acquire at 1, mbind at 1. cbn [ext _cache_lock sent].
  rewrite Hlock. cbn [ext _cache _cache_lock sent store calls].
  rewrite mbind_assoc, mbind_get_cache. cbn [ext _cache]. rewrite Hnone.
  unfold mbind, set_cache, release, mret, emit, write_str, mraise, ok_head,
    ticket_json.
  cbn [ext _cache _cache_lock sent store calls].
  by rewrite <- !app_assoc.
Qed.

Lemma untouched_refl st : untouched st st.
Proof. by repeat split. Qed.

Lemma untouched_trans st1 st2 st3 :
  untouched st1 st2 -> untouched st2 st3 -> untouched st1 st3.
Proof. unfold untouched. intros (-> & -> & ->) (-> & -> & ->). done. Qed.

Lemma mbind_inv {X A B} (m : M X A) (k : A -> M X B) s r s2 :
  mbind m k s = (r, s2) ->
  (exists a s1, m s = (Ok a, s1) /\ k a s1 = (r, s2))
  \/ ((forall b, r <> Ok b) /\ exists r0, m s = (r0, s2) /\ forall a, r0 <> Ok a).
Proof.
  unfold mbind. destruct (m s) as [[a|e|] s1]; intros E.
  - left. by exists a, s1.
  - right. injection E as <- <-. split; [done|]. by eexists.
  - right. injection E as <- <-. split; [done|]. by eexists.
Qed.

Lemma outside_inv {A} (c : store_call DR IR) (f : W -> result A * W) st r st' :
  outside c f st = (r, st') ->
  exists w, f (store (ext st)) = (r, w)
    /\ st' = mkSt (sent st)
               (mkApiState (_cache (ext st)) (_cache_lock (ext st)) w
                  (calls (ext st) ++ [c])).
Proof.
  unfold outside. destruct (f _) as [r0 w]. intros E. injection E as <- <-.
  by exists w.
Qed.

Lemma outside_untouched {A} (c : store_call DR IR) (f : W -> result A * W) st r st' :
  outside c f st = (r, st') -> untouched st st'.
Proof. intros E. apply outside_inv in E as (w & _ & ->). by repeat split. Qed.

(** What [make_ticket] does to the state: either it fails before it has
    the lock and touches nothing, or it returns the ticket, having taken
    and released the lock and stored the ticket if the key was free. *)
Lemma make_ticket_effect self fmt query (dr : DR) (ir : IR) st r st' :
  make_ticket self fmt query dr ir st = (r, st') ->
  ((forall t, r <> Ok t) /\ untouched st st')
  \/ (exists t, r = Ok t
        /\ sent st' = sent st
        /\ _cache_lock (ext st) = false
        /\ _cache_lock (ext st') = false
        /\ _cache (ext st')
           = match _cache (ext st) !! dr with
             | None => <[dr := t]> (_cache (ext st))
             | Some _ => _cache (ext st)
             end).
Proof.
  unfold make_ticket. intros E.
  apply mbind_inv in E as [(found & s1 & E1 & E)|(Hr & r0 & E1 & _)];
    [|left; split; [done|by eapply outside_untouched]].
  apply outside_untouched in E1 as U1.
  apply mbind_inv in E as [([] & s2 & E2 & E)|(Hr & r0 & E2 & _)].
  2:{ left. split; [done|]. apply (untouched_trans _ _ _ U1).
      destruct (negb found); [|injection E2 as <- <-; apply untouched_refl].
      apply mbind_inv in E2 as [([] & s & Ea & Eb)|(_ & r1 & Ea & _)].
      - eapply untouched_trans; by eapply outside_untouched.
      - by eapply outside_untouched. }
  assert (U2 : untouched st s2).
  { apply (untouched_trans _ _ _ U1).
    destruct (negb found); [|injection E2 as <-; apply untouched_refl].
    apply mbind_inv in E2 as [([] & s & Ea & Eb)|(Hno & _)]; [|by destruct (Hno tt)].
    eapply untouched_trans; by eapply outside_untouched. }
  clear E1 E2 U1 s1.
  apply mbind_inv in E as [(urls & s3 & E3 & E)|(Hr & r0 & E3 & _)];
    [|left; split; [done|]; eapply untouched_trans; [exact U2|];
      by eapply outside_untouched].
  assert (U3 : untouched st s3).
  { eapply untouched_trans; [exact U2|]. by eapply outside_untouched. }
  clear E3 U2 s2.
  apply mbind_inv in E as [(f & s4 & E4 & E)|(Hr & r0 & E4 & _)];
    [|left; split; [done|]; unfold lift in E4; by injection E4 as _ <-].
  unfold lift in E4. injection E4 as _ <-.
  cbv zeta in E. destruct U3 as (Us & Uc & Ul).
  unfold mbind, acquire, get_cache, set_cache, release, mret in E.
  cbn [ext sent _cache _cache_lock store calls] in E.
  destruct (_cache_lock (ext s3)) eqn:L.
  { left. injection E as <- <-. split; [done|]. repeat split; congruence. }
  right. cbn [ext sent _cache _cache_lock store calls] in E.
  rewrite <- Uc, <- Ul, <- Us.
  destruct (_cache (ext s3) !! dr) eqn:C;
    cbn [ext sent _cache _cache_lock store calls] in E;
    injection E as <- <-; eexists; repeat split; done.
Qed.

(** What one call of [handle] does: it never returns.  Either it fails
    before it responds and nothing was sent or stored, or it sends the
    status line and the headers of a 200 response and raises at the write
    of the ticket, which is then the cached value of the resolved key. *)
Lemma handle_effect self record_id query st r st' :
  handle self record_id query st = (r, st') ->
  r <> Ok tt
  /\ (untouched st st'
      \/ (r = Raise str_to_wfile /\
          exists (dr : DR) (ir : IR) (w : W) (t : string),
            resolve self record_id
              (default (VStr (default_format self)) (query !! "format"%string))
              (index_format self) (store (ext st)) = (Ok (dr, ir), w)
            /\ sent st' = sent st ++ ok_head
            /\ _cache (ext st') = <[dr := t]> (_cache (ext st))
            /\ _cache_lock (ext st') = _cache_lock (ext st)
            /\ (_cache (ext st) !! dr = None \/ _cache (ext st) !! dr = Some t))).
Proof.
  unfold handle. intros E. cbv zeta in E.
  apply mbind_inv in E as [([dr ir] & s1 & E1 & E)|(Hr & r0 & E1 & _)];
    [|split; [apply Hr|left; by eapply outside_untouched]].
  apply outside_untouched in E1 as U1. apply outside_inv in E1 as (w & Hres & _).
  rewrite mbind_get_cache in E. cbn [fst snd] in E.
  apply mbind_inv in E as [(t & s2 & E2 & E)|(Hr & r0 & E2 & Hr0)].
  - unfold mbind, emit, write_str, mraise in E. cbn [sent ext] in E.
    injection E as <- <-. split; [done|]. right. split; [done|].
    exists dr, ir, w, t. split; [done|]. cbn [sent ext].
    destruct U1 as (Us & Uc & Ul). rewrite Uc in E2. unfold ok_head.
    destruct (_cache (ext st) !! dr) as [t0|] eqn:C.
    + injection E2 as <- <-. rewrite Us, Uc, Ul, <- !app_assoc.
      repeat split; [|by right]. by rewrite insert_id.
    + apply make_ticket_effect in E2 as [(Hno & _)|(t' & [= <-] & Es & L1 & L2 & Ec)];
        [by destruct (Hno t)|].
      rewrite Uc, C in Ec. rewrite Es, Us, Ec, L2, <- Ul, L1, <- !app_assoc.
      repeat split. by left.
  - split; [apply Hr|]. left. apply (untouched_trans _ _ _ U1).
    destruct (_cache (ext s1) !! dr) as [t0|].
    + injection E2 as <- <-. apply untouched_refl.
    + apply make_ticket_effect in E2 as [(_ & U)|(t' & -> & _)]; [done|].
      by destruct (Hr0 t').
Qed.

(** X15: [handle] never returns normally.  Either it fails before it
    responds, with nothing sent and the cache and the lock as they were,
    or it sends the status line and the headers of a 200 response and
    raises [TypeError] at the write of the ticket; in that case the key
    that [resolve] gave is cached. *)
Theorem handle_outcome self record_id query st :
  fst (handle self record_id query st) <> Ok tt
  /\ (untouched st (snd (handle self record_id query st))
      \/ (fst (handle self record_id query st) = Raise str_to_wfile /\
          exists (dr : DR) (ir : IR) (w : W) (t : string),
            resolve self record_id
              (default (VStr (default_format self)) (query !! "format"%string))
              (index_format self) (store (ext st)) = (Ok (dr, ir), w)
            /\ sent (snd (handle self record_id query st)) = sent st ++ ok_head
            /\ _cache (ext (snd (handle self record_id query st))) !! dr = Some t)).
Proof.
  destruct (handle self record_id query st) as [r st'] eqn:E. cbn [fst snd].
  apply handle_effect in E as (Hr & [U|(-> & dr & ir & w & t & E)]);
    (split; [done|]); [by left|].
  destruct E as (Hres & Hs & Hc & _). right. split; [done|].
  exists dr, ir, w, t. repeat split; [done..|]. rewrite Hc. apply lookup_insert_eq.
Qed.

(** X17: one call of [handle] changes the cache at no key, or at the one
    key that [resolve] gave, and there only if that key was free: every
    other key, and every taken key, reads as before. *)
Theorem handle_cache_frame self record_id query st (k : DR) :
  _cache (ext (snd (handle self record_id query st))) !! k = _cache (ext st) !! k
  \/ (_cache (ext st) !! k = None
      /\ exists (ir : IR) (w : W),
           resolve self record_id
             (default (VStr (default_format self)) (query !! "format"%string))
             (index_format self) (store (ext st)) = (Ok (k, ir), w)).
Proof.
  destruct (handle self record_id query st) as [r st'] eqn:E. cbn [snd].
  apply handle_effect in E as (_ & [(_ & -> & _)|(_ & dr & ir & w & t & E)]);
    [by left|].
  destruct E as (Hres & _ & -> & _ & Hk).
  destruct (decide (dr = k)) as [->|Hne]; [|left; by apply lookup_insert_ne].
  destruct Hk as [Hk|Hk].
  - right. split; [done|]. by exists ir, w.
  - left. by rewrite lookup_insert_eq.
Qed.

(** X18: [handle] leaves the lock as it found it, whatever its outcome:
    the lock it takes on the path that builds a ticket is released before
    it responds, and no failing path holds it. *)
Theorem handle_lock_restored self record_id query st :
  _cache_lock (ext (snd (handle self record_id query st))) = _cache_lock (ext st).
Proof.
  destruct (handle self record_id query st) as [r st'] eqn:E. cbn [snd].
  apply handle_effect in E as (_ & [(_ & _ & ->)|(_ & dr & ir & w & t & E)]);
    [done|].
  by destruct E as (_ & _ & _ & -> & _).
Qed.

(** X19: two requests one after the other.  When the first got as far as
    the response (it sent something) and the second resolves to the same
    data resource, the second makes no outside call but [resolve], leaves
    the cache as the first left it, sends the status line and the headers
    again and raises [TypeError] at the write, whatever its own record id
    and query are. *)
Theorem handle_twice self record_id query record_id2 query2 st
    (dr : DR) (ir ir2 : IR) (w w2 : W) :
  sent (snd (handle self record_id query st)) <> sent st ->
  resolve self record_id
    (default (VStr (default_format self)) (query !! "format"%string))
    (index_format self) (store (ext st)) = (Ok (dr, ir), w) ->
  resolve self record_id2
    (default (VStr (default_format self)) (query2 !! "format"%string))
    (index_format self) (store (ext (snd (handle self record_id query st))))
  = (Ok (dr, ir2), w2) ->
  handle self record_id2 query2 (snd (handle self record_id query st))
  = (Raise str_to_wfile,
     mkSt (sent st ++ ok_head ++ ok_head)
       (mkApiState (_cache (ext (snd (handle self record_id query st))))
          (_cache_lock (ext st)) w2
          (calls (ext (snd (handle self record_id query st)))
             ++ [call_resolve record_id2
                   (default (VStr (default_format self))
                      (query2 !! "format"%string))
                   (index_format self)]))).
Proof.
  destruct (handle self record_id query st) as [r st'] eqn:E. cbn [fst snd].
  intros Hsent Hres Hres2.
  apply handle_effect in E as (_ & [(Us & _)|(_ & dr' & ir' & w' & t & E)]);
    [done|].
  destruct E as (Hres' & Hs & Hc & Hl & _).
  rewrite Hres in Hres'. injection Hres' as <- <- <-.
  rewrite (handle_hit self record_id2 query2 st' dr t ir2 w2);
    [|rewrite Hc; apply lookup_insert_eq|done].
  rewrite Hs, Hl, <- app_assoc. reflexivity.
Qed.

End HandleMore.

Section HandleCall.
Import Server Api.
Context {DR IR W : Type} `{Countable DR}.

(** X20: a request that names its format in the query string.
    [parse_qs] gives a list for every key, so [handle] reads a list as
    the format: when the key is not cached, the index exists and the
    outside calls succeed, [__call__] raises
    [AttributeError("'list' object has no attribute 'upper'")] after
    [create_ticket_urls], and nothing is sent or cached. *)
Theorem api_call_list_format (self : ApiClass DR IR W)
    (parse_qs : string -> result (gmap string pyval)) (parsed_url : ParseResult)
    (st : St (ApiState DR IR W)) (query : gmap string pyval) (l : list string)
    (dr : DR) (ir : IR) (w1 w2 : W) (urls : Json.json) :
  parse_qs (url_query parsed_url) = Ok query ->
  query !! "format"%string = Some (VList l) ->
  resolve self [] (VList l) (index_format self) (store (ext st))
  = (Ok (dr, ir), w1) ->
  _cache (ext st) !! dr = None ->
  exists_ self ir w1 = true ->
  create_ticket_urls self (VList l) query dr ir w1 = (Ok urls, w2) ->
  api_call parse_qs (handle self) [] parsed_url st
  = (Raise (Exc AttributeError ["'list' object has no attribute 'upper'"%string]),
     mkSt (sent st)
       (mkApiState (_cache (ext st)) (_cache_lock (ext st)) w2
          (calls (ext st)
             ++ [call_resolve [] (VList l) (index_format self);
                 call_exists ir;
                 call_create_ticket_urls (VList l) dr ir]))).
Proof.
  intros Hq Hf Hres Hnone Hex Hurls. unfold api_call. cbn [length Nat.eqb negb].
  rewrite Hq. unfold lift at 1, mbind at 1.
  unfold handle, make_ticket. rewrite Hf. cbn [default].
  erewrite mbind_ok by by apply outside_eq.
  cbn [fst snd]. rewrite mbind_get_cache. cbn [ext _cache]. rewrite Hnone.
  rewrite mbind_assoc.
  erewrite mbind_ok by (apply outside_eq; cbn [ext store]; by rewrite Hex).
  cbn [negb]. rewrite mbind_assoc, mbind_mret_l, mbind_assoc.
  erewrite mbind_ok by (apply outside_eq; cbn [ext store]; exact Hurls).
  rewrite mbind_assoc. unfold lift at 1, mbind at 1. cbn [py_upper].
  cbn [ext _cache _cache_lock sent store calls].
  by rewrite <- !app_assoc.
Qed.

End HandleCall.

Lemma handle_miss_index_present_witness :
  Api.handle sample_class [] ∅ fresh_state
  = (Raise Server.str_to_wfile,
     Server.mkSt
       (Server.sent fresh_state ++ ok_head)
       (Api.mkApiState
          (<["data.bam"%string := ticket_json "BAM" Json.JNull]>
             (Api._cache (Server.ext fresh_state)))
          false tt
          (Api.calls (Server.ext fresh_state)
             ++ [Api.call_resolve [] (VStr "BAM") (Api.index_format sample_class);
                 Api.call_exists "data.bam.bai"%string;
                 Api.call_create_ticket_urls (VStr "BAM") "data.bam"%string
                   "data.bam.bai"%string]))).
Proof.
  apply (handle_miss_index_present sample_class [] ∅ fresh_state "BAM"
           "data.bam"%string "data.bam.bai"%string tt tt Json.JNull);
    reflexivity.
Defined.

Lemma handle_miss_index_absent_witness :
  Api.handle unindexed_class [] ∅ unindexed_state
  = (Raise Server.str_to_wfile,
     Server.mkSt
       (Server.sent unindexed_state ++ ok_head)
       (Api.mkApiState
          (<["data.bam"%string := ticket_json "BAM" Json.JNull]>
             (Api._cache (Server.ext unindexed_state)))
          false 2%nat
          (Api.calls (Server.ext unindexed_state)
             ++ [Api.call_resolve [] (VStr "BAM") (Api.index_format unindexed_class);
                 Api.call_exists "data.bam.bai"%string;
                 Api.call_create_index "data.bam"%string "data.bam.bai"%string;
                 Api.call_add_resource "data.bam.bai"%string;
                 Api.call_create_ticket_urls (VStr "BAM") "data.bam"%string
                   "data.bam.bai"%string]))).
Proof.
  apply (handle_miss_index_absent unindexed_class [] ∅ unindexed_state "BAM"
           "data.bam"%string "data.bam.bai"%string 0%nat 1%nat 2%nat 2%nat Json.JNull);
    reflexivity.
Defined.

Lemma handle_twice_witness :
  Api.handle sample_class ["x"%string] ∅
    (snd (Api.handle sample_class [] ∅ fresh_state))
  = (Raise Server.str_to_wfile,
     Server.mkSt (Server.sent fresh_state ++ ok_head ++ ok_head)
       (Api.mkApiState
          (Api._cache (Server.ext (snd (Api.handle sample_class [] ∅ fresh_state))))
          (Api._cache_lock (Server.ext fresh_state)) tt
          (Api.calls (Server.ext (snd (Api.handle sample_class [] ∅ fresh_state)))
             ++ [Api.call_resolve ["x"%string]
                   (default (VStr (Api.default_format sample_class))
                      ((∅ : gmap string pyval) !! "format"%string))
                   (Api.index_format sample_class)]))).
Proof.
  apply (handle_twice sample_class [] ∅ ["x"%string] ∅ fresh_state
           "data.bam"%string "data.bam.bai"%string "data.bam.bai"%string tt tt).
  - vm_compute. discriminate.
  - reflexivity.
  - reflexivity.
Defined.

Lemma api_call_list_format_witness :
  api_call (fun _ => Ok {["format"%string := VList ["BAM"%string]]})
    (Api.handle sample_class) []
    (Server.mkParseResult "" "" "/reads" "" "format=BAM" "") fresh_state
  = (Raise (Exc AttributeError ["'list' object has no attribute 'upper'"%string]),
     Server.mkSt (Server.sent fresh_state)
       (Api.mkApiState (Api._cache (Server.ext fresh_state))
          (Api._cache_lock (Server.ext fresh_state)) tt
          (Api.calls (Server.ext fresh_state)
             ++ [Api.call_resolve [] (VList ["BAM"%string])
                   (Api.index_format sample_class);
                 Api.call_exists "data.bam.bai"%string;
                 Api.call_create_ticket_urls (VList ["BAM"%string])
                   "data.bam"%string "data.bam.bai"%string]))).
Proof.
  apply (api_call_list_format sample_class
           (fun _ => Ok {["format"%string := VList ["BAM"%string]]})
           (Server.mkParseResult "" "" "/reads" "" "format=BAM" "") fresh_state
           {["format"%string := VList ["BAM"%string]]} ["BAM"%string]
           "data.bam"%string "data.bam.bai"%string tt tt Json.JNull);
    reflexivity.
Defined.

(** * Further properties of overlapping requests *)

Section WorkersMore.
Import Server Api.
Context {DR IR W : Type} `{Countable DR}.
Implicit Types (p : pool DR IR W) (w : worker DR IR).

Ltac unfold_steps :=
  unfold mbind, outside, get_cache, set_cache, acquire, release, emit, lift,
    mret, mraise in *.

(** What one move does to the lock. *)
Lemma move_lock (self : ApiClass DR IR W) (pt : point DR IR) st r st' :
  move self pt st = (r, st') ->
  match pt with
  | AtAcquire dr t =>
      (_cache_lock (ext st) = true /\ r = NoReturn)
      \/ (_cache_lock (ext st) = false /\ r = Ok (AtInsert dr t)
          /\ _cache_lock (ext st') = true)
  | AtInsert dr t => r = Ok (AtRelease dr t) /\ _cache_lock (ext st') = _cache_lock (ext st)
  | AtRelease dr t => r = Ok (AtRespond dr t) /\ _cache_lock (ext st') = false
  | _ =>
      _cache_lock (ext st') = _cache_lock (ext st)
      /\ forall next, r = Ok next -> in_critical next = false
  end.
Proof.
  destruct pt; cbn [move]; unfold_steps; cbn;
    repeat (case_match; simplify_eq/=); intros E; simplify_eq/=;
    repeat split; try done; try (intros next [= <-]; done); auto.
Qed.

(** The mutual exclusion invariant of a pool. *)
Lemma run_worker_exclusion (self : ApiClass DR IR W) j p :
  (forall i i' w w', workers p !! i = Some w -> workers p !! i' = Some w' ->
     in_critical (at_point w) = true -> in_critical (at_point w') = true -> i = i') ->
  (_cache_lock (shared p) = true
   <-> exists i w, workers p !! i = Some w /\ in_critical (at_point w) = true) ->
  (forall i i' w w', workers (run_worker self j p) !! i = Some w ->
     workers (run_worker self j p) !! i' = Some w' ->
     in_critical (at_point w) = true -> in_critical (at_point w') = true -> i = i')
  /\ (_cache_lock (shared (run_worker self j p)) = true
      <-> exists i w, workers (run_worker self j p) !! i = Some w
                      /\ in_critical (at_point w) = true).
Proof.
  intros Huniq Hlock. unfold run_worker.
  destruct (workers p !! j) as [wj|] eqn:Ej; [|done].
  destruct (move self (at_point wj) (mkSt (out wj) (shared p))) as [r st'] eqn:Em.
  pose proof (lookup_lt_Some _ _ _ Ej) as Hlen.
  apply move_lock in Em. cbn [ext] in Em.
  (* the pool after a move of [j] to a point [next] *)
  assert (Hstay : forall next lock',
    (in_critical next = true ->
       in_critical (at_point wj) = true \/ _cache_lock (shared p) = false) ->
    (lock' = true <->
       (in_critical next = true
        \/ (in_critical (at_point wj) = false /\ _cache_lock (shared p) = true))) ->
    (forall i i' w w',
       <[j := mkWorker next (sent st')]> (workers p) !! i = Some w ->
       <[j := mkWorker next (sent st')]> (workers p) !! i' = Some w' ->
       in_critical (at_point w) = true -> in_critical (at_point w') = true -> i = i')
    /\ (lock' = true
        <-> exists i w, <[j := mkWorker next (sent st')]> (workers p) !! i = Some w
                        /\ in_critical (at_point w) = true)).
  { intros next lock' Hnext Hl'.
    assert (Hother : forall i w, i <> j -> workers p !! i = Some w ->
              in_critical (at_point w) = true ->
              in_critical (at_point wj) = false /\ _cache_lock (shared p) = true
              /\ in_critical next = false).
    { intros i w Hne Hi Hc.
      assert (Hl : _cache_lock (shared p) = true) by (apply Hlock; eauto).
      destruct (in_critical (at_point wj)) eqn:Cj.
      { destruct Hne. by apply (Huniq i j w wj). }
      repeat split; [done|]. destruct (in_critical next) eqn:Cn; [|done].
      destruct (Hnext eq_refl); congruence. }
    split.
    - intros i i' w w' Hi Hi' Hc Hc'.
      destruct (decide (i = j)) as [->|Hne], (decide (i' = j)) as [->|Hne']; [done|..].
      + rewrite list_lookup_insert_eq in Hi by done. injection Hi as <-.
        rewrite list_lookup_insert_ne in Hi' by done.
        destruct (Hother i' w' Hne' Hi' Hc') as (_ & _ & Hn). cbn in Hc. congruence.
      + rewrite list_lookup_insert_eq in Hi' by done. injection Hi' as <-.
        rewrite list_lookup_insert_ne in Hi by done.
        destruct (Hother i w Hne Hi Hc) as (_ & _ & Hn). cbn in Hc'. congruence.
      + rewrite list_lookup_insert_ne in Hi, Hi' by done. by apply (Huniq i i' w w').
    - rewrite Hl'. split.
      + intros [Hn|(Cj & Hl)].
        * exists j, (mkWorker next (sent st')).
          by rewrite list_lookup_insert_eq by done.
        * apply Hlock in Hl as (i & w & Hi & Hc). exists i, w. split; [|done].
          rewrite list_lookup_insert_ne; [done|]. intros ->. congruence.
      + intros (i & w & Hi & Hc). destruct (decide (i = j)) as [->|Hne].
        * rewrite list_lookup_insert_eq in Hi by done. injection Hi as <-. by left.
        * rewrite list_lookup_insert_ne in Hi by done.
          destruct (Hother i w Hne Hi Hc) as (? & ? & _). by right. }
  assert (Hcrit : in_critical (at_point wj) = true -> _cache_lock (shared p) = true).
  { intros Hc. apply Hlock. eauto. }
  destruct (at_point wj) eqn:Ept; cbn [in_critical] in Hstay, Hcrit;
    try (destruct Em as (Hl & Hn);
         destruct r as [next|err|]; cbn [workers shared];
         [apply Hstay; [rewrite (Hn next eq_refl); done|];
          rewrite (Hn next eq_refl), Hl; intuition congruence
         |apply Hstay; [done|]; rewrite Hl; intuition congruence
         |done]).
  - (* AtAcquire *)
    destruct Em as [(Hl & ->)|(Hl & -> & Hl')]; [done|].
    cbn [workers shared]. apply Hstay; [by right|]. rewrite Hl'. intuition congruence.
  - (* AtInsert *)
    destruct Em as (-> & Hl). cbn [workers shared]. apply Hstay; [by left|].
    rewrite Hl, (Hcrit eq_refl). intuition congruence.
  - (* AtRelease *)
    destruct Em as (-> & Hl). cbn [workers shared]. apply Hstay; [done|].
    rewrite Hl. intuition congruence.
Qed.

(** X21: mutual exclusion under every interleaving.  From a pool whose
    lock is free and in which no worker is between [acquire] and
    [release], every schedule leads to a pool in which at most one worker
    is between [acquire] and [release], and the lock is held exactly when
    there is one. *)
Theorem schedule_mutual_exclusion (self : ApiClass DR IR W) schedule p :
  _cache_lock (shared p) = false ->
  Forall (fun w => in_critical (at_point w) = false) (workers p) ->
  (forall i i' w w',
     workers (run_schedule self schedule p) !! i = Some w ->
     workers (run_schedule self schedule p) !! i' = Some w' ->
     in_critical (at_point w) = true -> in_critical (at_point w') = true -> i = i')
  /\ (_cache_lock (shared (run_schedule self schedule p)) = true
      <-> exists i w, workers (run_schedule self schedule p) !! i = Some w
                      /\ in_critical (at_point w) = true).
Proof.
  intros Hl Hall.
  assert (Hinv :
    (forall i i' w w', workers p !! i = Some w -> workers p !! i' = Some w' ->
       in_critical (at_point w) = true -> in_critical (at_point w') = true -> i = i')
    /\ (_cache_lock (shared p) = true
        <-> exists i w, workers p !! i = Some w /\ in_critical (at_point w) = true)).
  { rewrite Forall_lookup in Hall. split.
    - intros i i' w w' Hi _ Hc. rewrite (Hall i w Hi) in Hc. done.
    - rewrite Hl. split; [done|]. intros (i & w & Hi & Hc).
      rewrite (Hall i w Hi) in Hc. done. }
  clear Hl Hall. revert p Hinv.
  induction schedule as [|j schedule IH]; intros p Hinv; [done|].
  cbn [run_schedule foldl]. apply IH. destruct Hinv. by apply run_worker_exclusion.
Qed.

(** A move that leads to the read of the cache has just seen the key
    in it. *)
Lemma move_to_read (self : ApiClass DR IR W) (pt : point DR IR) st next st' dr :
  move self pt st = (Ok next, st') -> reading next = Some dr ->
  is_Some (_cache (ext st') !! dr).
Proof.
  destruct pt; cbn [move]; unfold_steps; cbn;
    repeat (case_match; simplify_eq/=); intros E; simplify_eq/=;
    try done; intros [= <-]; eauto.
Qed.

Lemma run_worker_reading (self : ApiClass DR IR W) j p :
  (forall i w dr, workers p !! i = Some w -> reading (at_point w) = Some dr ->
     is_Some (_cache (shared p) !! dr)) ->
  forall i w dr, workers (run_worker self j p) !! i = Some w ->
    reading (at_point w) = Some dr ->
    is_Some (_cache (shared (run_worker self j p)) !! dr).
Proof.
  intros Hinv i w dr Hi Hr.
  assert (Hold : forall w0, workers p !! i = Some w0 -> reading (at_point w0) = Some dr ->
            is_Some (_cache (shared (run_worker self j p)) !! dr)).
  { intros w0 Hi0 Hr0. destruct (Hinv i w0 dr Hi0 Hr0) as [t Ht].
    exists t. by apply run_worker_keeps. }
  unfold run_worker in Hi |- *. unfold run_worker in Hold.
  destruct (workers p !! j) as [wj|] eqn:Ej; [|by apply (Hold w)].
  pose proof (lookup_lt_Some _ _ _ Ej) as Hlen.
  destruct (move self (at_point wj) (mkSt (out wj) (shared p))) as [[next|e|] st'] eqn:Em;
    cbn [workers shared] in *; [| |by apply (Hold w)].
  - destruct (decide (i = j)) as [->|Hne].
    + rewrite list_lookup_insert_eq in Hi by done. injection Hi as <-.
      cbn [at_point] in Hr. by apply (move_to_read self _ _ _ _ _ Em).
    + rewrite list_lookup_insert_ne in Hi by done. by apply (Hold w).
  - destruct (decide (i = j)) as [->|Hne].
    + rewrite list_lookup_insert_eq in Hi by done. by injection Hi as <-.
    + rewrite list_lookup_insert_ne in Hi by done. by apply (Hold w).
Qed.

(** X22: the read [self._cache[data_resource]] that follows the test
    [data_resource in self._cache] is made without the lock, with moves
    of other workers in between.  Under every schedule, every worker that
    has passed the test still finds its key: its next move reads a ticket
    and raises no [KeyError]. *)
Theorem schedule_read_finds_key (self : ApiClass DR IR W) schedule p :
  Forall (fun w => reading (at_point w) = None) (workers p) ->
  forall i w dr,
    workers (run_schedule self schedule p) !! i = Some w ->
    reading (at_point w) = Some dr ->
    exists t,
      _cache (shared (run_schedule self schedule p)) !! dr = Some t
      /\ move self (at_point w) (mkSt (out w) (shared (run_schedule self schedule p)))
         = (Ok (AtRespond dr t),
            mkSt (out w) (shared (run_schedule self schedule p))).
Proof.
  intros Hall.
  assert (Hinv : forall i w dr, workers p !! i = Some w ->
            reading (at_point w) = Some dr -> is_Some (_cache (shared p) !! dr)).
  { rewrite Forall_lookup in Hall. intros i w dr Hi Hr.
    rewrite (Hall i w Hi) in Hr. done. }
  clear Hall.
  assert (Hend : forall i w dr, workers (run_schedule self schedule p) !! i = Some w ->
            reading (at_point w) = Some dr ->
            is_Some (_cache (shared (run_schedule self schedule p)) !! dr)).
  { revert p Hinv. induction schedule as [|j schedule IH]; intros p Hinv; [done|].
    cbn [run_schedule foldl]. apply IH. by apply run_worker_reading. }
  intros i w dr Hi Hr. destruct (Hend i w dr Hi Hr) as [t Ht]. exists t.
  split; [done|]. destruct (at_point w); try done. injection Hr as ->.
  cbn [move]. rewrite mbind_get_cache. cbn [ext]. by rewrite Ht.
Qed.


(** No move ends a call of [handle] normally. *)
Lemma move_not_returned (self : ApiClass DR IR W) (pt : point DR IR) st next st' :
  has_returned pt = false -> move self pt st = (Ok next, st') ->
  has_returned next = false.
Proof.
  destruct pt; cbn [move has_returned]; try done; unfold_steps; unfold write_str, mraise;
    cbn; repeat (case_match; simplify_eq/=); intros _ E; by simplify_eq/=.
Qed.

(** X16: no request is ever answered, under any interleaving.  From a
    pool in which no worker has returned from [handle], every schedule
    leads to a pool in which no worker has returned: each call is still
    on its way, is waiting, or has raised. *)
Theorem schedule_no_worker_returns (self : ApiClass DR IR W) schedule p :
  Forall (fun w => has_returned (at_point w) = false) (workers p) ->
  Forall (fun w => has_returned (at_point w) = false)
    (workers (run_schedule self schedule p)).
Proof.
  revert p. induction schedule as [|j schedule IH]; intros p Hall; [done|].
  cbn [run_schedule foldl]. apply IH. unfold run_worker.
  destruct (workers p !! j) as [wj|] eqn:Ej; [|done].
  pose proof (Forall_lookup_1 _ _ _ _ Hall Ej) as Hj.
  destruct (move self (at_point wj) (mkSt (out wj) (shared p))) as [[next|e|] st'] eqn:Em;
    cbn [workers]; [| |done].
  - apply Forall_insert; [done|]. cbn [at_point].
    by apply (move_not_returned self _ _ _ _ Hj Em).
  - by apply Forall_insert.
Qed.

End WorkersMore.

Lemma schedule_mutual_exclusion_witness :
  (forall i i' w w',
     Api.workers (Api.run_schedule unindexed_class [0; 1; 0; 1; 0; 1; 0; 1; 0; 1; 0]%nat
                    two_workers) !! i = Some w ->
     Api.workers (Api.run_schedule unindexed_class [0; 1; 0; 1; 0; 1; 0; 1; 0; 1; 0]%nat
                    two_workers) !! i' = Some w' ->
     in_critical (Api.at_point w) = true -> in_critical (Api.at_point w') = true ->
     i = i')
  /\ (Api._cache_lock
        (Api.shared (Api.run_schedule unindexed_class
                       [0; 1; 0; 1; 0; 1; 0; 1; 0; 1; 0]%nat two_workers)) = true
      <-> exists i w,
            Api.workers (Api.run_schedule unindexed_class
                           [0; 1; 0; 1; 0; 1; 0; 1; 0; 1; 0]%nat two_workers) !! i
            = Some w
            /\ in_critical (Api.at_point w) = true).
Proof.
  apply (schedule_mutual_exclusion unindexed_class
           [0; 1; 0; 1; 0; 1; 0; 1; 0; 1; 0]%nat two_workers).
  - reflexivity.
  - repeat constructor.
Defined.

Lemma schedule_no_worker_returns_witness :
  Forall (fun w => has_returned (Api.at_point w) = false)
    (Api.workers (Api.run_schedule sample_class
                    [0; 1; 0; 1; 0; 1; 0; 0; 1; 1]%nat two_workers_cached)).
Proof.
  apply (schedule_no_worker_returns sample_class [0; 1; 0; 1; 0; 1; 0; 0; 1; 1]%nat
           two_workers_cached).
  repeat constructor.
Defined.

Lemma schedule_read_finds_key_witness :
  Forall (fun w => reading (Api.at_point w) = None) (Api.workers two_workers_cached)
  /\ forall i w dr,
    Api.workers (Api.run_schedule sample_class [0; 1; 0; 1]%nat two_workers_cached) !! i
    = Some w ->
    reading (Api.at_point w) = Some dr ->
    exists t,
      Api._cache (Api.shared (Api.run_schedule sample_class [0; 1; 0; 1]%nat
                                two_workers_cached)) !! dr = Some t
      /\ Api.move sample_class (Api.at_point w)
           (Server.mkSt (Api.out w)
              (Api.shared (Api.run_schedule sample_class [0; 1; 0; 1]%nat
                             two_workers_cached)))
         = (Ok (Api.AtRespond dr t),
            Server.mkSt (Api.out w)
              (Api.shared (Api.run_schedule sample_class [0; 1; 0; 1]%nat
                             two_workers_cached))).
Proof.
  assert (Hstart : Forall (fun w => reading (Api.at_point w) = None)
                     (Api.workers two_workers_cached)) by repeat constructor.
  split; [exact Hstart|].
  exact (schedule_read_finds_key sample_class [0; 1; 0; 1]%nat two_workers_cached
           Hstart).
Defined.


(** * Properties of [run_interruptible] *)

Section InterruptFacts.
Import Interrupt.
Context {CB S : Type}.
Variable signal_error : Z -> option pyexc.
Implicit Types (w : world CB S) (runnable : Runnable S)
  (cbs : list (Z * callback CB)) (sigs : list Z)
  (error_handlers : option (gmap string (string * Z))).

Ltac unfold_im := unfold bind, ret, throw, log, call, signal_signal in *.

Lemma install_ok cbs w :
  (forall sig, sig ∈ cbs.*1 -> signal_error sig = None) ->
  install signal_error cbs w
  = (Done tt,
     mkWorld (trace w ++ map (fun sc => ev_signal sc.1 (Installed sc.2)) cbs)
       (foldl (fun m sc => <[sc.1 := Installed sc.2]> m) (signals w) cbs)
       (obj w)).
Proof.
  revert w. induction cbs as [|[sig c] cbs IH]; intros w Hsig.
  - destruct w. cbn. by rewrite app_nil_r.
  - cbn [install]. unfold bind at 1, signal_signal at 1.
    rewrite (Hsig sig) by (cbn; apply list_elem_of_here).
    rewrite IH by (intros s Hs; apply Hsig; cbn; by apply list_elem_of_further).
    cbn. by rewrite <- app_assoc.
Qed.

Lemma reset_ok sigs w :
  (forall sig, sig ∈ sigs -> signal_error sig = None) ->
  reset signal_error sigs w
  = (Done tt,
     mkWorld (trace w ++ map (fun sig => ev_signal sig SIG_DFL) sigs)
       (foldl (fun m sig => <[sig := SIG_DFL]> m) (signals w) sigs)
       (obj w)).
Proof.
  revert w. induction sigs as [|sig sigs IH]; intros w Hsig.
  - destruct w. cbn. by rewrite app_nil_r.
  - cbn [reset]. unfold bind at 1, signal_signal at 1.
    rewrite (Hsig sig) by apply list_elem_of_here.
    rewrite IH by (intros s Hs; apply Hsig; by apply list_elem_of_further).
    cbn. by rewrite <- app_assoc.
Qed.

Lemma reset_lookup sigs (m : gmap Z (disposition CB)) sig :
  foldl (fun m sig => <[sig := SIG_DFL]> m) m sigs !! sig
  = if bool_decide (sig ∈ sigs) then Some SIG_DFL else m !! sig.
Proof.
  revert m. induction sigs as [|s sigs IH]; intros m; cbn [foldl].
  - rewrite bool_decide_eq_false_2; [done|]. by intros ?%elem_of_nil.
  - rewrite IH. destruct (decide (sig ∈ sigs)) as [Hin|Hnin].
    + rewrite !bool_decide_eq_true_2; [done| |done]. by apply list_elem_of_further.
    + rewrite (bool_decide_eq_false_2 _ Hnin).
      destruct (decide (sig = s)) as [->|Hne].
      * rewrite bool_decide_eq_true_2 by apply list_elem_of_here.
        apply lookup_insert_eq.
      * rewrite bool_decide_eq_false_2.
        { by apply lookup_insert_ne. }
        intros [->|?]%elem_of_cons; done.
Qed.

Lemma install_lookup_other cbs (m : gmap Z (disposition CB)) sig :
  sig ∉ cbs.*1 ->
  foldl (fun m sc => <[sc.1 := Installed sc.2]> m) m cbs !! sig = m !! sig.
Proof.
  revert m. induction cbs as [|[s c] cbs IH]; intros m Hnin; [done|].
  cbn [foldl]. cbn in Hnin. rewrite IH.
  - apply lookup_insert_ne. cbn. intros ->. apply Hnin, list_elem_of_here.
  - intros Hin. by apply Hnin, list_elem_of_further.
Qed.

Lemma install_lookup_in cbs (m : gmap Z (disposition CB)) sig :
  sig ∈ cbs.*1 \/ (exists c, m !! sig = Some (Installed c)) ->
  exists c, foldl (fun m sc => <[sc.1 := Installed sc.2]> m) m cbs !! sig
            = Some (Installed c).
Proof.
  revert m. induction cbs as [|[s c] cbs IH]; intros m Hin.
  - destruct Hin as [Hin|Hin]; [by apply elem_of_nil in Hin|done].
  - cbn [foldl]. apply IH. destruct Hin as [Hin|(c' & Hc')].
    + cbn in Hin. apply elem_of_cons in Hin as [->|Hin]; [|by left].
      right. exists c. apply lookup_insert_eq.
    + right. cbn. destruct (decide (sig = s)) as [->|Hne].
      * exists c. apply lookup_insert_eq.
      * exists c'. by rewrite lookup_insert_ne.
Qed.

Lemma with_core_dump_sigquit (signal_callbacks : option (list (Z * callback CB))) :
  SIGQUIT ∈ (with_core_dump signal_callbacks).*1.
Proof.
  unfold with_core_dump. case_bool_decide as Hin; [done|].
  rewrite fmap_app. apply elem_of_app. right. cbn. apply list_elem_of_here.
Qed.

(** The [except] clauses log at most one line and touch nothing else. *)
Lemma except_clauses_effect error_handlers error_on_interrupt err w :
  exists r logs,
    except_clauses error_handlers error_on_interrupt err w
    = (r, mkWorld (trace w ++ logs) (signals w) (obj w))
    /\ r <> Hangs
    /\ Forall (fun ev => exists level msg exc_info, ev = ev_log level msg exc_info) logs.
Proof.
  destruct w as [t sg o].
  assert (Hnil : forall r : outcome Z, r <> Hangs ->
    exists r' logs,
      (r, mkWorld t sg o) = (r', mkWorld (t ++ logs) sg o)
      /\ r' <> Hangs
      /\ Forall (fun ev => exists level msg exc_info, ev = ev_log level msg exc_info) logs).
  { intros r Hr. exists r, []. rewrite app_nil_r. repeat split; [done|constructor]. }
  assert (Hone : forall (code : Z) level msg exc_info,
    exists r' logs,
      (Done code, mkWorld (t ++ [ev_log level msg exc_info]) sg o)
      = (r', mkWorld (t ++ logs) sg o)
      /\ r' <> Hangs
      /\ Forall (fun ev => exists level msg exc_info, ev = ev_log level msg exc_info) logs).
  { intros code level msg exc_info. eexists _, [_]. split; [reflexivity|].
    split; [done|]. repeat constructor. eauto. }
  unfold except_clauses.
  destruct (isinstance err "KeyboardInterrupt").
  { destruct error_on_interrupt; apply Hone. }
  destruct (isinstance err "OSError").
  { destruct (bool_decide (errno err = Some EPIPE)); apply Hone. }
  destruct (existsb _ _); [|apply Hone].
  destruct (default ∅ error_handlers !! cls err) as [[msg retcode]|]; [apply Hone|].
  by apply Hnil.
Qed.

(** The protected block: [run], at most one log line, then [stop]. *)
Lemma guarded_effect runnable error_handlers error_on_interrupt w :
  fst (run runnable (obj w)) <> Hangs ->
  exists r logs s,
    try_finally
      (try_except (bind (call ev_run (run runnable)) (fun _ => ret 0))
         (except_clauses error_handlers error_on_interrupt))
      (call ev_stop (stop runnable)) w
    = (r, mkWorld (trace w ++ [ev_run] ++ logs ++ [ev_stop]) (signals w) s)
    /\ Forall (fun ev => exists level msg exc_info, ev = ev_log level msg exc_info) logs.
Proof.
  intros Hrun. unfold try_finally, try_except. unfold bind at 1, call at 1, ret at 1.
  destruct (run runnable (obj w)) as [[[]|err|] s1]; [| |done].
  - cbn [trace signals obj]. unfold call. cbn [trace signals obj].
    destruct (stop runnable s1) as [[[]|e'|] s2];
      eexists _, [], _; (split; [|constructor]); cbn; by rewrite <- ?app_assoc.
  - destruct (except_clauses_effect error_handlers error_on_interrupt err
                (mkWorld (trace w ++ [ev_run]) (signals w) s1))
      as (r & logs & -> & Hr & Hlogs).
    cbn [trace signals obj]. unfold call. cbn [trace signals obj].
    destruct r as [code|e|]; [| |done];
      destruct (stop runnable s1) as [[[]|e'|] s2];
      eexists _, logs, _; (split; [|done]); cbn; by rewrite <- ?app_assoc.
Qed.

(** X24: when [signal.signal] accepts the signals of the callbacks and
    [run] returns or raises, [run_interruptible] installs the callbacks
    (with the one it adds for [SIGQUIT]), calls [run] once, logs at most
    lines of the root logger, and then calls [stop] exactly once, on every
    path; after [stop] it does nothing but reset signals to [SIG_DFL]. *)
Theorem run_interruptible_stop_once runnable error_handlers
    (signal_callbacks : option (list (Z * callback CB))) error_on_interrupt w :
  (forall sig, sig ∈ (with_core_dump signal_callbacks).*1 -> signal_error sig = None) ->
  fst (run runnable (obj w)) <> Hangs ->
  exists logs resets,
    trace (snd (run_interruptible signal_error runnable error_handlers
                  signal_callbacks error_on_interrupt w))
    = trace w
        ++ map (fun sc => ev_signal sc.1 (Installed sc.2))
             (with_core_dump signal_callbacks)
        ++ [ev_run] ++ logs ++ [ev_stop] ++ resets
    /\ Forall (fun ev => exists level msg exc_info, ev = ev_log level msg exc_info) logs
    /\ Forall (fun ev => exists sig, ev = ev_signal sig SIG_DFL) resets.
Proof.
  intros Hsig Hrun. unfold run_interruptible. cbv zeta.
  unfold bind at 1. rewrite install_ok by done.
  unfold bind at 1.
  match goal with
  | |- context [try_finally ?b ?f ?w1] =>
      destruct (guarded_effect runnable error_handlers error_on_interrupt w1 Hrun)
        as (r & logs & s & -> & Hlogs)
  end.
  cbn [trace signals obj]. exists logs.
  destruct r as [code|e|].
  - unfold bind at 1. rewrite reset_ok by done. cbn [ret snd trace].
    eexists. split; [|split; [done|]].
    + rewrite <- !app_assoc. reflexivity.
    + generalize ((with_core_dump signal_callbacks).*1). intros sigs.
      induction sigs; cbn; constructor; eauto.
  - exists []. cbn [snd trace]. rewrite <- !app_assoc. repeat split; [done|constructor].
  - exists []. cbn [snd trace]. rewrite <- !app_assoc. repeat split; [done|constructor].
Qed.

Lemma guarded_signals runnable error_handlers error_on_interrupt w :
  signals (snd (try_finally
                  (try_except (bind (call ev_run (run runnable)) (fun _ => ret 0))
                     (except_clauses error_handlers error_on_interrupt))
                  (call ev_stop (stop runnable)) w))
  = signals w.
Proof.
  destruct (run runnable (obj w)) as [r1 s1] eqn:Er.
  assert (Hr : r1 = Hangs \/ r1 <> Hangs) by (destruct r1; auto).
  destruct Hr as [->|Hr].
  - unfold try_finally, try_except, bind, call. by rewrite Er.
  - destruct (guarded_effect runnable error_handlers error_on_interrupt w)
      as (r & logs & s & -> & _); [by rewrite Er|done].
Qed.

(** [run_interruptible] when the callbacks are accepted: the protected
    block runs in the world with the callbacks installed, and the signals
    are reset if it yields a code. *)
Lemma run_interruptible_installed runnable error_handlers
    (signal_callbacks : option (list (Z * callback CB))) error_on_interrupt w :
  (forall sig, sig ∈ (with_core_dump signal_callbacks).*1 -> signal_error sig = None) ->
  run_interruptible signal_error runnable error_handlers signal_callbacks
    error_on_interrupt w
  = match try_finally
            (try_except (bind (call ev_run (run runnable)) (fun _ => ret 0))
               (except_clauses error_handlers error_on_interrupt))
            (call ev_stop (stop runnable))
            (mkWorld
               (trace w ++ map (fun sc => ev_signal sc.1 (Installed sc.2))
                             (with_core_dump signal_callbacks))
               (foldl (fun m sc => <[sc.1 := Installed sc.2]> m) (signals w)
                  (with_core_dump signal_callbacks))
               (obj w)) with
    | (Done code, w2) =>
        (Done code,
         mkWorld
           (trace w2 ++ map (fun sig => ev_signal sig SIG_DFL)
                          (with_core_dump signal_callbacks).*1)
           (foldl (fun m sig => <[sig := SIG_DFL]> m) (signals w2)
              (with_core_dump signal_callbacks).*1)
           (obj w2))
    | (Throws e, w2) => (Throws e, w2)
    | (Hangs, w2) => (Hangs, w2)
    end.
Proof.
  intros Hsig. unfold run_interruptible. cbv zeta.
  unfold bind at 1. rewrite install_ok by done. unfold bind at 1.
  destruct (try_finally _ _ _) as [[code|e|] w2]; [|done..].
  unfold bind. by rewrite reset_ok.
Qed.

(** X25: when [run_interruptible] returns a code, every signal of the
    callbacks, and [SIGQUIT], is set to [SIG_DFL] (not to the handler it
    had before the call), and the handler of every other signal is as it
    was. *)
Theorem run_interruptible_signals_reset runnable error_handlers
    (signal_callbacks : option (list (Z * callback CB))) error_on_interrupt w code :
  (forall sig, sig ∈ (with_core_dump signal_callbacks).*1 -> signal_error sig = None) ->
  fst (run_interruptible signal_error runnable error_handlers signal_callbacks
         error_on_interrupt w) = Done code ->
  forall sig,
    signals (snd (run_interruptible signal_error runnable error_handlers
                    signal_callbacks error_on_interrupt w)) !! sig
    = if bool_decide (sig ∈ (with_core_dump signal_callbacks).*1)
      then Some SIG_DFL else signals w !! sig.
Proof.
  intros Hsig. rewrite run_interruptible_installed by done.
  match goal with
  | |- context [try_finally ?b ?f ?w1] =>
      pose proof (guarded_signals runnable error_handlers error_on_interrupt w1) as Hs;
      destruct (try_finally b f w1) as [r w2] eqn:Eg
  end.
  cbn [snd signals] in Hs. destruct r as [c|e|]; cbn [fst]; [|done..].
  intros _ sig. cbn [snd signals]. rewrite reset_lookup, Hs.
  case_bool_decide as Hin; [done|]. by apply install_lookup_other.
Qed.

Lemma bind_ext_in {A B} (m : IM CB S A) (k1 k2 : A -> IM CB S B) w :
  (forall a w', m w = (Done a, w') -> k1 a w' = k2 a w') ->
  bind m k1 w = bind m k2 w.
Proof. intros Hk. unfold bind. destruct (m w) as [[a|e|] w']; auto. Qed.

Lemma install_obj cbs w r w1 :
  install signal_error cbs w = (r, w1) -> obj w1 = obj w.
Proof.
  revert w. induction cbs as [|[sig c] cbs IH]; intros w Ei.
  - by injection Ei as _ <-.
  - cbn [install] in Ei. unfold bind at 1, signal_signal at 1 in Ei.
    destruct (signal_error sig); [by injection Ei as _ <-|]. by apply IH in Ei.
Qed.

Lemma bind_congr {A B} (m1 m2 : IM CB S A) (k : A -> IM CB S B) w :
  m1 w = m2 w -> bind m1 k w = bind m2 k w.
Proof. unfold bind. by intros ->. Qed.

Lemma try_finally_congr {A} (body1 body2 : IM CB S A) (final : IM CB S unit) w :
  body1 w = body2 w -> try_finally body1 final w = try_finally body2 final w.
Proof. unfold try_finally. by intros ->. Qed.

Lemma try_except_congr {A} (body : IM CB S A) (h1 h2 : pyexc -> IM CB S A) w :
  (forall e w', body w = (Throws e, w') -> h1 e w' = h2 e w') ->
  try_except body h1 w = try_except body h2 w.
Proof. intros Hh. unfold try_except. destruct (body w) as [[a|e|] w']; auto. Qed.

(** X26: a [KeyboardInterrupt] and an [OSError] never reach
    [error_handlers]: when [run] raises an instance of either (of a
    subclass as well), the outcome, the log and the return code are those
    of a call without [error_handlers], whatever the dict holds for the
    class of the exception. *)
Theorem run_interruptible_handlers_shadowed runnable error_handlers
    (signal_callbacks : option (list (Z * callback CB))) error_on_interrupt w err :
  fst (run runnable (obj w)) = Throws err ->
  isinstance err "KeyboardInterrupt" || isinstance err "OSError" = true ->
  run_interruptible signal_error runnable error_handlers signal_callbacks
    error_on_interrupt w
  = run_interruptible signal_error runnable None signal_callbacks
      error_on_interrupt w.
Proof.
  intros Hrun Hinst. unfold run_interruptible. cbv zeta.
  apply bind_ext_in. intros [] w1 Ei. apply install_obj in Ei.
  apply bind_congr, try_finally_congr, try_except_congr. intros e w' Hbody.
  assert (e = err) as ->.
  { unfold bind, call in Hbody. rewrite Ei in Hbody.
    destruct (run runnable (obj w)) as [r s1]. cbn [fst] in Hrun. subst r.
    by injection Hbody as <- _. }
  unfold except_clauses.
  destruct (isinstance err "KeyboardInterrupt"); [done|].
  destruct (isinstance err "OSError"); [done|]. done.
Qed.

(** X27: an exception of a class that is derived from a key of
    [error_handlers], but is no key itself, is taken by the third
    [except] clause, whose lookup by the class of the exception then
    fails: [run_interruptible] raises [KeyError] instead of returning a
    code.  [stop] has been called, nothing has been logged, and the
    callbacks stay installed. *)
Theorem run_interruptible_subclass_key_error runnable
    (handlers : gmap string (string * Z))
    (signal_callbacks : option (list (Z * callback CB))) error_on_interrupt w
    err (c : string) s1 s2 :
  (forall sig, sig ∈ (with_core_dump signal_callbacks).*1 -> signal_error sig = None) ->
  run runnable (obj w) = (Throws err, s1) ->
  isinstance err "KeyboardInterrupt" = false ->
  isinstance err "OSError" = false ->
  c ∈ ancestors err -> is_Some (handlers !! c) ->
  handlers !! cls err = None ->
  stop runnable s1 = (Done tt, s2) ->
  run_interruptible signal_error runnable (Some handlers) signal_callbacks
    error_on_interrupt w
  = (Throws key_error,
     mkWorld
       (trace w
          ++ map (fun sc => ev_signal sc.1 (Installed sc.2))
               (with_core_dump signal_callbacks)
          ++ [ev_run; ev_stop])
       (foldl (fun m sc => <[sc.1 := Installed sc.2]> m) (signals w)
          (with_core_dump signal_callbacks))
       s2)
  /\ exists cb,
       foldl (fun m sc => <[sc.1 := Installed sc.2]> m) (signals w)
         (with_core_dump signal_callbacks) !! SIGQUIT
       = Some (Installed cb).
Proof.
  intros Hsig Hrun Hki Hos Hc Hh Hnone Hstop. split.
  - unfold run_interruptible. cbv zeta.
    unfold bind at 1. rewrite install_ok by done.
    unfold bind at 1, try_finally, try_except. unfold bind at 1, call at 1.
    cbn [obj]. rewrite Hrun. unfold except_clauses. rewrite Hki, Hos.
    assert (Hex : existsb (fun c0 => bool_decide (c0 ∈ err_types_of (Some handlers)))
                    (cls err :: ancestors err) = true).
    { apply existsb_exists. exists c. split.
      - apply list_elem_of_In. by apply list_elem_of_further.
      - apply bool_decide_eq_true_2. unfold err_types_of.
        case_bool_decide as He.
        + rewrite He, lookup_empty in Hh. by destruct Hh.
        + by apply elem_of_dom. }
    rewrite Hex. change (default ∅ (Some handlers)) with handlers. rewrite Hnone.
    unfold throw, call. cbn [obj trace signals]. rewrite Hstop.
    by rewrite <- !app_assoc.
  - apply install_lookup_in. left. apply with_core_dump_sigquit.
Qed.

Lemma guarded_stop_raises runnable error_handlers error_on_interrupt w e :
  fst (run runnable (obj w)) <> Hangs ->
  fst (stop runnable (snd (run runnable (obj w)))) = Throws e ->
  exists w2,
    try_finally
      (try_except (bind (call ev_run (run runnable)) (fun _ => ret 0))
         (except_clauses error_handlers error_on_interrupt))
      (call ev_stop (stop runnable)) w
    = (Throws e, w2)
    /\ signals w2 = signals w.
Proof.
  intros Hrun Hstop. unfold try_finally, try_except.
  unfold bind at 1, call at 1, ret at 1.
  destruct (run runnable (obj w)) as [[[]|err|] s1]; [| |done]; cbn [fst snd] in Hstop.
  - cbn [trace signals obj]. unfold call. cbn [trace signals obj].
    destruct (stop runnable s1) as [r2 s2]. cbn [fst] in Hstop. subst r2.
    by eexists.
  - destruct (except_clauses_effect error_handlers error_on_interrupt err
                (mkWorld (trace w ++ [ev_run]) (signals w) s1))
      as (r & logs & -> & Hr & _).
    cbn [trace signals obj]. unfold call. cbn [trace signals obj].
    destruct (stop runnable s1) as [r2 s2]. cbn [fst] in Hstop. subst r2.
    destruct r; [| |done]; by eexists.
Qed.

(** X28: what [stop] raises wins: when [run] has returned or raised and
    [stop] then raises, [run_interruptible] raises the exception of
    [stop], whatever the [except] clauses made of the outcome of [run],
    and the signals are not reset. *)
Theorem run_interruptible_stop_raises runnable error_handlers
    (signal_callbacks : option (list (Z * callback CB))) error_on_interrupt w e :
  (forall sig, sig ∈ (with_core_dump signal_callbacks).*1 -> signal_error sig = None) ->
  fst (run runnable (obj w)) <> Hangs ->
  fst (stop runnable (snd (run runnable (obj w)))) = Throws e ->
  fst (run_interruptible signal_error runnable error_handlers signal_callbacks
         error_on_interrupt w) = Throws e
  /\ signals (snd (run_interruptible signal_error runnable error_handlers
                     signal_callbacks error_on_interrupt w))
     = foldl (fun m sc => <[sc.1 := Installed sc.2]> m) (signals w)
         (with_core_dump signal_callbacks).
Proof.
  intros Hsig Hrun Hstop. rewrite run_interruptible_installed by done.
  match goal with
  | |- context [try_finally ?b ?f ?w1] =>
      destruct (guarded_stop_raises runnable error_handlers error_on_interrupt w1 e
                  Hrun Hstop) as (w2 & -> & Hs)
  end.
  by cbn [fst snd signals] in *.
Qed.

Lemma install_fails cbs w sig e :
  sig ∈ cbs.*1 -> signal_error sig = Some e ->
  exists e' (k : nat),
    install signal_error cbs w
    = (Throws e',
       mkWorld (trace w ++ map (fun sc => ev_signal sc.1 (Installed sc.2)) (take k cbs))
         (foldl (fun m sc => <[sc.1 := Installed sc.2]> m) (signals w) (take k cbs))
         (obj w)).
Proof.
  revert w. induction cbs as [|[s c] cbs IH]; intros w Hin He.
  - by apply elem_of_nil in Hin.
  - cbn [install]. unfold bind at 1, signal_signal at 1.
    destruct (signal_error s) as [e0|] eqn:Es.
    + exists e0, 0%nat. destruct w. cbn. by rewrite app_nil_r.
    + cbn in Hin. apply elem_of_cons in Hin as [->|Hin]; [congruence|].
      destruct (IH (mkWorld (trace w ++ [ev_signal s (Installed c)])
                      (<[s := Installed c]> (signals w)) (obj w)) Hin He)
        as (e' & k & ->).
      exists e', (Datatypes.S k). cbn. by rewrite <- app_assoc.
Qed.

(** X29: when [signal.signal] refuses one of the signals,
    [run_interruptible] raises while it installs the callbacks: the
    object is never run and never stopped, and the callbacks installed
    before the refused one stay installed. *)
Theorem run_interruptible_install_fails runnable error_handlers
    (signal_callbacks : option (list (Z * callback CB))) error_on_interrupt w sig e :
  sig ∈ (with_core_dump signal_callbacks).*1 ->
  signal_error sig = Some e ->
  exists e' (k : nat),
    run_interruptible signal_error runnable error_handlers signal_callbacks
      error_on_interrupt w
    = (Throws e',
       mkWorld
         (trace w
            ++ map (fun sc => ev_signal sc.1 (Installed sc.2))
                 (take k (with_core_dump signal_callbacks)))
         (foldl (fun m sc => <[sc.1 := Installed sc.2]> m) (signals w)
            (take k (with_core_dump signal_callbacks)))
         (obj w)).
Proof.
  intros Hin He. unfold run_interruptible. cbv zeta. unfold bind at 1.
  destruct (install_fails (with_core_dump signal_callbacks) w sig e Hin He)
    as (e' & k & ->).
  by exists e', k.
Qed.

End InterruptFacts.

Section RunnerFacts.
Import Interrupt.
Context {Srv : Type}.




End RunnerFacts.

Lemma run_interruptible_stop_once_witness :
  exists logs resets,
    Interrupt.trace
      (snd (Interrupt.run_interruptible accept_all (raising broken_pipe)
              (Some {["BrokenPipeError"%string := ("pipe"%string, 7)]}) None false
              (empty_world (CB := Empty_set))))
    = Interrupt.trace (empty_world (CB := Empty_set))
        ++ map (fun sc => Interrupt.ev_signal sc.1 (Interrupt.Installed sc.2))
             (Interrupt.with_core_dump None)
        ++ [Interrupt.ev_run] ++ logs ++ [Interrupt.ev_stop] ++ resets
    /\ Forall (fun ev => exists level msg exc_info,
                 ev = Interrupt.ev_log level msg exc_info) logs
    /\ Forall (fun ev => exists sig, ev = Interrupt.ev_signal sig Interrupt.SIG_DFL)
         resets.
Proof.
  apply (run_interruptible_stop_once accept_all (raising broken_pipe)
           (Some {["BrokenPipeError"%string := ("pipe"%string, 7)]}) None false
           (empty_world (CB := Empty_set))).
  - intros sig _. reflexivity.
  - discriminate.
Defined.

Lemma run_interruptible_signals_reset_witness :
  fst (Interrupt.run_interruptible accept_all (raising broken_pipe)
         None None false (empty_world (CB := Empty_set))) = Interrupt.Done 1
  /\ forall sig,
    Interrupt.signals
      (snd (Interrupt.run_interruptible accept_all (raising broken_pipe)
              None None false (empty_world (CB := Empty_set)))) !! sig
    = if bool_decide (sig ∈ (Interrupt.with_core_dump
                               (None : option (list (Z * Interrupt.callback Empty_set)))).*1)
      then Some Interrupt.SIG_DFL
      else Interrupt.signals (empty_world (CB := Empty_set)) !! sig.
Proof.
  split; [reflexivity|].
  apply (run_interruptible_signals_reset accept_all (raising broken_pipe)
           None None false (empty_world (CB := Empty_set)) 1).
  - intros sig _. reflexivity.
  - reflexivity.
Defined.

Lemma run_interruptible_handlers_shadowed_witness :
  Interrupt.run_interruptible accept_all (raising broken_pipe)
    (Some {["BrokenPipeError"%string := ("pipe"%string, 7)]}) None false
    (empty_world (CB := Empty_set))
  = Interrupt.run_interruptible accept_all (raising broken_pipe) None None false
      (empty_world (CB := Empty_set)).
Proof.
  apply (run_interruptible_handlers_shadowed accept_all (raising broken_pipe)
           (Some {["BrokenPipeError"%string := ("pipe"%string, 7)]}) None false
           (empty_world (CB := Empty_set)) broken_pipe).
  - reflexivity.
  - reflexivity.
Defined.

Lemma run_interruptible_subclass_key_error_witness :
  Interrupt.run_interruptible accept_all (raising derived_error)
    (Some {["BaseError"%string := ("base"%string, 2)]}) None false
    (empty_world (CB := Empty_set))
  = (Interrupt.Throws Interrupt.key_error,
     Interrupt.mkWorld
       (Interrupt.trace (empty_world (CB := Empty_set))
          ++ map (fun sc => Interrupt.ev_signal sc.1 (Interrupt.Installed sc.2))
               (Interrupt.with_core_dump None)
          ++ [Interrupt.ev_run; Interrupt.ev_stop])
       (foldl (fun m sc => <[sc.1 := Interrupt.Installed sc.2]> m)
          (Interrupt.signals (empty_world (CB := Empty_set)))
          (Interrupt.with_core_dump None))
       tt)
  /\ exists cb,
       foldl (fun m sc => <[sc.1 := Interrupt.Installed sc.2]> m)
         (Interrupt.signals (empty_world (CB := Empty_set)))
         (Interrupt.with_core_dump None) !! Interrupt.SIGQUIT
       = Some (Interrupt.Installed cb).
Proof.
  apply (run_interruptible_subclass_key_error accept_all (raising derived_error)
           {["BaseError"%string := ("base"%string, 2)]} None false
           (empty_world (CB := Empty_set)) derived_error "BaseError"%string tt tt).
  - intros sig _. reflexivity.
  - reflexivity.
  - reflexivity.
  - reflexivity.
  - apply list_elem_of_here.
  - by eexists.
  - reflexivity.
  - reflexivity.
Defined.

Lemma run_interruptible_stop_raises_witness :
  fst (Interrupt.run_interruptible accept_all
         (Interrupt.HtsgetServerRunner (fun _ : unit => Interrupt.Throws broken_pipe)
            (fun srv : unit => srv) tt)
         None None false
         (Interrupt.mkWorld (CB := Empty_set) [] ∅ None))
  = Interrupt.Throws Interrupt.attribute_error
  /\ Interrupt.signals
       (snd (Interrupt.run_interruptible accept_all
               (Interrupt.HtsgetServerRunner (fun _ : unit => Interrupt.Throws broken_pipe)
                  (fun srv : unit => srv) tt)
               None None false
               (Interrupt.mkWorld (CB := Empty_set) [] ∅ None)))
     = foldl (fun m sc => <[sc.1 := Interrupt.Installed sc.2]> m)
         (Interrupt.signals (Interrupt.mkWorld (CB := Empty_set) (S := option unit) [] ∅ None))
         (Interrupt.with_core_dump None).
Proof.
  apply (run_interruptible_stop_raises accept_all
           (Interrupt.HtsgetServerRunner (fun _ : unit => Interrupt.Throws broken_pipe)
              (fun srv : unit => srv) tt)
           None None false (Interrupt.mkWorld (CB := Empty_set) [] ∅ None)
           Interrupt.attribute_error).
  - intros sig _. reflexivity.
  - discriminate.
  - reflexivity.
Defined.

Lemma run_interruptible_install_fails_witness :
  exists e' (k : nat),
    Interrupt.run_interruptible refuse_sigquit (raising broken_pipe) None None false
      (empty_world (CB := Empty_set))
    = (Interrupt.Throws e',
       Interrupt.mkWorld
         (Interrupt.trace (empty_world (CB := Empty_set))
            ++ map (fun sc => Interrupt.ev_signal sc.1 (Interrupt.Installed sc.2))
                 (take k (Interrupt.with_core_dump None)))
         (foldl (fun m sc => <[sc.1 := Interrupt.Installed sc.2]> m)
            (Interrupt.signals (empty_world (CB := Empty_set)))
            (take k (Interrupt.with_core_dump None)))
         (Interrupt.obj (empty_world (CB := Empty_set)))).
Proof.
  apply (run_interruptible_install_fails refuse_sigquit (raising broken_pipe)
           None None false (empty_world (CB := Empty_set)) Interrupt.SIGQUIT
           (Interrupt.mkPyExc "ValueError"
              ["Exception"; "BaseException"; "object"]%string None)).
  - apply list_elem_of_here.
  - reflexivity.
Defined.

